(** * queryFy backend: the query-answering pipeline

    A shallow embedding of [services/geminiService.js] (prompt
    construction, the retry loop around the generative provider, the
    parsing of the model output, the overload fallback and the
    recommended-question generator) and of the two handlers of
    [routes/query.js] ([POST /api/query] and [POST /api/query/batch]),
    followed by the properties of the pipeline that the specification
    states.

    Conventions.  A JavaScript string is the list of its UTF-16 code
    units.  A JavaScript value is a [JsValue].  Code that awaits, reads the
    clock, calls the provider or the database is written in the monad [M]:
    explicit state passing with JavaScript's exceptions as a second kind of
    completion.  The provider, the document collection and the query
    collection are the fields of a [World]. *)

From Stdlib Require Import List String Ascii NArith ZArith Lia Bool Arith.
From Stdlib Require Import DecimalN.
Import ListNotations.
Open Scope string_scope.
Open Scope list_scope.
Set Warnings "-register-all".

(* ================================================================== *)
(** * The runtime: strings *)
(* ================================================================== *)

(** A string is a sequence of UTF-16 code units; [length] counts them, as
    JavaScript's [.length] does. *)
Definition jsstring := list N.

Definition utf16 (s : string) : jsstring :=
  map N_of_ascii (list_ascii_of_string s).
Coercion utf16 : string >-> jsstring.

(** String concatenation: [a + b], or two adjacent pieces of a template
    literal. *)
Definition cat (a b : jsstring) : jsstring := a ++ b.
Infix "+++" := cat (at level 60, right associativity).

(** The double quote and the line feed, which the literals of this file
    cannot hold. *)
Definition quot : jsstring := [34%N].
Definition nl : jsstring := [10%N].
Definition quoted (s : jsstring) : jsstring := quot +++ s +++ quot.

Definition jsstring_eqb (a b : jsstring) : bool :=
  if list_eq_dec N.eq_dec a b then true else false.

Definition isEmpty (s : jsstring) : bool :=
  match s with [] => true | _ :: _ => false end.

(** [s.startsWith(p)]. *)
Fixpoint startsWith (s p : jsstring) {struct p} : bool :=
  match p, s with
  | [], _ => true
  | _ :: _, [] => false
  | a :: p', b :: s' => N.eqb a b && startsWith s' p'
  end.

(** [s.includes(sub)]. *)
Fixpoint includes (s sub : jsstring) : bool :=
  startsWith s sub ||
  match s with
  | [] => false
  | _ :: s' => includes s' sub
  end.

(** [s.substring(0, n)]. *)
Definition substring0 (s : jsstring) (n : nat) : jsstring := firstn n s.

(** WhiteSpace and LineTerminator of ECMAScript, the code units that
    [trim] removes. *)
Definition isWhiteSpace (c : N) : bool :=
  ((9 <=? c) && (c <=? 13) || (c =? 32) || (c =? 160) || (c =? 5760)
   || (8192 <=? c) && (c <=? 8202) || (c =? 8232) || (c =? 8233)
   || (c =? 8239) || (c =? 8287) || (c =? 12288) || (c =? 65279))%N.

Fixpoint trimStart (s : jsstring) : jsstring :=
  match s with
  | [] => []
  | c :: s' => if isWhiteSpace c then trimStart s' else s
  end.

Definition trimEnd (s : jsstring) : jsstring := rev (trimStart (rev s)).

(** [s.trim()]. *)
Definition trim (s : jsstring) : jsstring := trimEnd (trimStart s).

(** The regular expression [/```json\n?|\n?```/] tried at the head of [s]:
    the length of its match.  The first alternative has priority, and both
    [\n?] are greedy. *)
Definition matchFence (s : jsstring) : option nat :=
  if startsWith s "```json" then
    Some (if startsWith s ("```json" +++ nl) then 8 else 7)
  else if startsWith s (nl +++ "```") then Some 4
  else if startsWith s "```" then Some 3
  else None.

(** [s.replace(/```json\n?|\n?```/g, '')]: every match, leftmost first, is
    deleted.  [skip] counts the code units of the current match that are
    still to be dropped. *)
Fixpoint replaceFences (skip : nat) (s : jsstring) : jsstring :=
  match s with
  | [] => []
  | c :: s' =>
      match skip with
      | S k => replaceFences k s'
      | O =>
          match matchFence s with
          | Some (S k) => replaceFences k s'
          | _ => c :: replaceFences 0 s'
          end
      end
  end.

(* ================================================================== *)
(** * The runtime: values and JSON.parse *)
(* ================================================================== *)

(** A number read from a decimal literal: [(-1)^neg * mant * 10^exp10].
    The pipeline never computes with the numbers of the model; it only
    tests them for truthiness and passes them on. *)
Record Num : Set := mkNum { num_neg : bool; num_mant : N; num_exp10 : Z }.

Inductive JsValue : Set :=
| JUndefined
| JNull
| JBool (b : bool)
| JNum (n : Num)
| JStr (s : jsstring)
| JArr (items : list JsValue)
| JObj (props : list (jsstring * JsValue)).

(** The literals [0.7] and [0.0]. *)
Definition num_0_7 : Num := mkNum false 7 (-1).
Definition num_0 : Num := mkNum false 0 0.

(** A number is falsy when its double is [0] or [-0]: when the mantissa is
    null, or when the literal is so small that it rounds to zero (at most
    [2^-1075], half of the least positive double). *)
Definition num_nonzero (n : Num) : bool :=
  if (num_mant n =? 0)%N then false
  else if (0 <=? num_exp10 n)%Z then true
  else (10 ^ Z.to_N (- num_exp10 n) <? num_mant n * 2 ^ 1075)%N.

(** ToBoolean. *)
Definition truthy (v : JsValue) : bool :=
  match v with
  | JUndefined | JNull => false
  | JBool b => b
  | JNum n => num_nonzero n
  | JStr s => negb (isEmpty s)
  | JArr _ | JObj _ => true
  end.

(** [a || b]. *)
Definition or_else (a b : JsValue) : JsValue := if truthy a then a else b.

(** The value of the property [k] of an object built by [JSON.parse]: of
    two members with the same name the later one wins. *)
Fixpoint lookupProp (k : jsstring) (props : list (jsstring * JsValue)) : JsValue :=
  match props with
  | [] => JUndefined
  | (k', v) :: rest =>
      match lookupProp k rest with
      | JUndefined => if jsstring_eqb k k' then v else JUndefined
      | later => later
      end
  end.

Module Json.

Definition isWs (c : N) : bool :=
  ((c =? 9) || (c =? 10) || (c =? 13) || (c =? 32))%N.

Fixpoint skipWs (s : jsstring) : jsstring :=
  match s with
  | [] => []
  | c :: s' => if isWs c then skipWs s' else s
  end.

Definition isDigit (c : N) : bool := ((48 <=? c) && (c <=? 57))%N.

Definition hexVal (c : N) : option N :=
  if isDigit c then Some (c - 48)%N
  else if ((97 <=? c) && (c <=? 102))%N then Some (c - 87)%N
  else if ((65 <=? c) && (c <=? 70))%N then Some (c - 55)%N
  else None.

(** A run of digits: the number they add to [acc], how many they are, and
    the rest of the input. *)
Fixpoint digits (acc : N) (count : nat) (s : jsstring) : N * nat * jsstring :=
  match s with
  | [] => (acc, count, [])
  | c :: s' =>
      if isDigit c then digits (acc * 10 + (c - 48))%N (S count) s'
      else (acc, count, s)
  end.

(** The characters of a string literal after its opening quote. *)
Fixpoint chars (s : jsstring) : option (jsstring * jsstring) :=
  let push c r :=
    match r with
    | Some (str, rest) => Some (c :: str, rest)
    | None => None
    end in
  match s with
  | [] => None
  | c :: s' =>
      if (c =? 34)%N then Some ([], s')
      else if (c =? 92)%N then
        match s' with
        | [] => None
        | e :: r =>
            if (e =? 34)%N then push 34%N (chars r)
            else if (e =? 92)%N then push 92%N (chars r)
            else if (e =? 47)%N then push 47%N (chars r)
            else if (e =? 98)%N then push 8%N (chars r)
            else if (e =? 102)%N then push 12%N (chars r)
            else if (e =? 110)%N then push 10%N (chars r)
            else if (e =? 114)%N then push 13%N (chars r)
            else if (e =? 116)%N then push 9%N (chars r)
            else if (e =? 117)%N then
              match r with
              | h1 :: h2 :: h3 :: h4 :: r' =>
                  match hexVal h1, hexVal h2, hexVal h3, hexVal h4 with
                  | Some a, Some b, Some c', Some d =>
                      push (((a * 16 + b) * 16 + c') * 16 + d)%N (chars r')
                  | _, _, _, _ => None
                  end
              | _ => None
              end
            else None
        end
      else if (c <? 32)%N then None
      else push c (chars s')
  end.

(** A number literal: an optional minus sign; an integer part, [0] alone
    or digits that do not start with [0]; an optional fraction, a point
    and one digit or more; an optional exponent, [e] or [E], an optional
    sign and one digit or more. *)
Definition number (s : jsstring) : option (Num * jsstring) :=
  let (neg, s1) :=
    match s with
    | c :: s' => if (c =? 45)%N then (true, s') else (false, s)
    | [] => (false, s)
    end in
  let int :=
    match s1 with
    | c :: s' =>
        if (c =? 48)%N then Some (0%N, s')
        else if isDigit c then let '(m, _, r) := digits 0 0 s1 in Some (m, r)
        else None
    | [] => None
    end in
  match int with
  | None => None
  | Some (m, s2) =>
      let frac :=
        match s2 with
        | c :: s' =>
            if (c =? 46)%N then
              let '(m', k, r) := digits m 0 s' in
              match k with
              | O => None
              | S _ => Some (m', (- Z.of_nat k)%Z, r)
              end
            else Some (m, 0%Z, s2)
        | [] => Some (m, 0%Z, s2)
        end in
      match frac with
      | None => None
      | Some (m', e, s3) =>
          match s3 with
          | c :: s' =>
              if ((c =? 101) || (c =? 69))%N then
                let (eneg, s4) :=
                  match s' with
                  | d :: s'' =>
                      if (d =? 45)%N then (true, s'')
                      else if (d =? 43)%N then (false, s'')
                      else (false, s')
                  | [] => (false, s')
                  end in
                let '(x, k, r) := digits 0 0 s4 in
                match k with
                | O => None
                | S _ =>
                    let x' := if eneg then (- Z.of_N x)%Z else Z.of_N x in
                    Some (mkNum neg m' (e + x'), r)
                end
              else Some (mkNum neg m' e, s3)
          | [] => Some (mkNum neg m' e, s3)
          end
      end
  end.

(** A value, the elements of an array after its first bracket and the
    members of an object after its first brace.  The input of each starts
    at a token.  [fuel] bounds the depth of the calls.  Every call but the
    one from [elements] to the [value] of its first element comes after
    one code unit of input or more has been read, and that one is followed
    by the read of a code unit, so a depth of twice the length of the
    input is never exceeded. *)
Fixpoint value (fuel : nat) (s : jsstring) {struct fuel}
  : option (JsValue * jsstring) :=
  match fuel with
  | O => None
  | S fuel' =>
      match s with
      | [] => None
      | c :: rest =>
          if (c =? 123)%N then
            match skipWs rest with
            | [] => None
            | c' :: rest' =>
                if (c' =? 125)%N then Some (JObj [], rest')
                else
                  match members fuel' (c' :: rest') with
                  | Some (ps, r) => Some (JObj ps, r)
                  | None => None
                  end
            end
          else if (c =? 91)%N then
            match skipWs rest with
            | [] => None
            | c' :: rest' =>
                if (c' =? 93)%N then Some (JArr [], rest')
                else
                  match elements fuel' (c' :: rest') with
                  | Some (vs, r) => Some (JArr vs, r)
                  | None => None
                  end
            end
          else if (c =? 34)%N then
            match chars rest with
            | Some (str, r) => Some (JStr str, r)
            | None => None
            end
          else if startsWith s "true" then Some (JBool true, skipn 4 s)
          else if startsWith s "false" then Some (JBool false, skipn 5 s)
          else if startsWith s "null" then Some (JNull, skipn 4 s)
          else
            match number s with
            | Some (n, r) => Some (JNum n, r)
            | None => None
            end
      end
  end

with elements (fuel : nat) (s : jsstring) {struct fuel}
  : option (list JsValue * jsstring) :=
  match fuel with
  | O => None
  | S fuel' =>
      match value fuel' s with
      | None => None
      | Some (v, r) =>
          match skipWs r with
          | [] => None
          | c :: r' =>
              if (c =? 44)%N then
                match elements fuel' (skipWs r') with
                | Some (vs, r'') => Some (v :: vs, r'')
                | None => None
                end
              else if (c =? 93)%N then Some ([v], r')
              else None
          end
      end
  end

with members (fuel : nat) (s : jsstring) {struct fuel}
  : option (list (jsstring * JsValue) * jsstring) :=
  match fuel with
  | O => None
  | S fuel' =>
      match s with
      | [] => None
      | q :: s' =>
          if (q =? 34)%N then
            match chars s' with
            | None => None
            | Some (key, r) =>
                match skipWs r with
                | [] => None
                | c :: r' =>
                    if (c =? 58)%N then
                      match value fuel' (skipWs r') with
                      | None => None
                      | Some (v, r'') =>
                          match skipWs r'' with
                          | [] => None
                          | d :: r3 =>
                              if (d =? 44)%N then
                                match members fuel' (skipWs r3) with
                                | Some (ps, r4) => Some ((key, v) :: ps, r4)
                                | None => None
                                end
                              else if (d =? 125)%N then Some ([(key, v)], r3)
                              else None
                          end
                      end
                    else None
                end
            end
          else None
      end
  end.

(** [JSON.parse(text)]: [None] stands for the SyntaxError it throws. *)
Definition parse (text : jsstring) : option JsValue :=
  match value (2 * List.length text + 2) (skipWs text) with
  | Some (v, rest) =>
      match skipWs rest with
      | [] => Some v
      | _ :: _ => None
      end
  | None => None
  end.

End Json.

(* ================================================================== *)
(** * Effects: the world, the state and the monad *)
(* ================================================================== *)

(** A thrown [Error]; the code only ever reads its [message]. *)
Record Error : Set := mkError { message : jsstring }.

(** What [model.generateContent(prompt)], [result.response] and
    [response.text()] give together: the text of the model, or a
    rejection. *)
Inductive Reply : Set :=
| Text (responseText : jsstring)
| Rejects (apiError : Error).

(** A stored document, as far as the query routes read it
    ([models/Document.js]). *)
Record Document : Set := mkDocument {
  doc_id : jsstring;
  originalName : jsstring;
  extractedText : jsstring
}.

Inductive Lookup : Set :=
| Found (document : Document)
| NotFound
| LookupFails (error : Error).

(** The fields given to [new Query({...})] ([models/Query.js]). *)
Record QueryRecord : Set := mkQuery {
  documentId : jsstring;
  queryText : jsstring;
  response : JsValue;
  confidence : JsValue;
  processingTime : Z
}.

(** Everything outside the process.  The provider and the query collection
    are asked with the number of requests they have had before, so they
    may answer the same request differently from one time to the next. *)
Record World : Type := mkWorld {
  GEMINI_API_KEY : bool;
  generateContent : nat -> jsstring -> Reply;
  latency : nat -> Z;
  findById : jsstring -> Lookup;
  insertQuery : nat -> QueryRecord -> option Error
}.

(** The state of the process and the trace of what it has done: whether
    the module variable [model] is set, the clock in milliseconds, the
    prompts sent to the provider, the delays of the timers awaited and the
    query records saved, each list oldest first. *)
Record State : Set := mkState {
  model : bool;
  now : Z;
  calls : list jsstring;
  timers : list Z;
  saved : list QueryRecord
}.

Inductive Completion (A : Type) : Type :=
| Normal (a : A)
| Throw (e : Error).
Arguments Normal {A} a.
Arguments Throw {A} e.

Definition M (A : Type) : Type := State -> Completion A * State.

Definition ret {A} (a : A) : M A := fun st => (Normal a, st).

Definition throw {A} (e : Error) : M A := fun st => (Throw e, st).

Definition bind {A B} (m : M A) (k : A -> M B) : M B :=
  fun st =>
    match m st with
    | (Normal a, st') => k a st'
    | (Throw e, st') => (Throw e, st')
    end.

(** [try { body } catch (e) { handler e }]. *)
Definition tryCatch {A} (body : M A) (handler : Error -> M A) : M A :=
  fun st =>
    match body st with
    | (Normal a, st') => (Normal a, st')
    | (Throw e, st') => handler e st'
    end.

(** A pure computation that may throw. *)
Definition lift {A} (c : Completion A) : M A := fun st => (c, st).

Declare Scope js_scope.
Delimit Scope js_scope with js.
Notation "x <- m ;; k" := (bind m (fun x => k))
  (at level 100, m at next level, right associativity) : js_scope.
Notation "m ;; k" := (bind m (fun _ => k))
  (at level 100, right associativity) : js_scope.
Open Scope js_scope.

(** [Date.now()]. *)
Definition Date_now : M Z := fun st => (Normal (now st), st).

(** The state once a timer of [ms] milliseconds has fired. *)
Definition afterSleep (ms : Z) (st : State) : State :=
  mkState (model st) (now st + ms) (calls st) (timers st ++ [ms]) (saved st).

(** [await new Promise(resolve => setTimeout(resolve, ms))]. *)
Definition sleep (ms : Z) : M unit := fun st => (Normal tt, afterSleep ms st).

(** The state once [model] is set. *)
Definition withModel (st : State) : State :=
  mkState true (now st) (calls st) (timers st) (saved st).

(** The state once a query record is stored. *)
Definition afterSave (q : QueryRecord) (st : State) : State :=
  mkState (model st) (now st) (calls st) (timers st) (saved st ++ [q]).

(* ================================================================== *)
(** * services/geminiService.js *)
(* ================================================================== *)

(** What [processQueryWithGemini] returns, as far as its callers read it:
    the members spread from [parsedResponse], then [processingTime] and
    [tokensUsed]. *)
Record AiResponse : Set := mkAiResponse {
  answer : JsValue;
  canAnswer : JsValue;
  aiConfidence : JsValue;
  reasoning : JsValue;
  aiProcessingTime : Z;
  tokensUsed : nat
}.

(** The four members of [parsedResponse] that the code fills in. *)
Record Answer : Set := mkAnswer {
  ans_answer : JsValue;
  ans_canAnswer : JsValue;
  ans_confidence : JsValue;
  ans_reasoning : JsValue
}.

Definition withMetrics (a : Answer) (time : Z) (tokens : nat) : AiResponse :=
  mkAiResponse (ans_answer a) (ans_canAnswer a) (ans_confidence a)
    (ans_reasoning a) time tokens.

(** [Math.ceil(text.length / 4)]. *)
Definition estimateTokens (text : jsstring) : nat :=
  (List.length text + 3) / 4.

(** The template literal of [processQueryWithGemini]. *)
Definition buildPrompt (documentText userQuery : jsstring) : jsstring :=
  "Document: " +++ substring0 documentText 2000
  +++ (if (2000 <? List.length documentText)%nat then utf16 "..." else utf16 "")
  +++ nl +++ nl
  +++ "Question: " +++ userQuery
  +++ nl +++ nl
  +++ "Answer this question based on the document content. Respond in JSON format:"
  +++ nl
  +++ "{" +++ quoted "answer" +++ ": " +++ quoted "your answer" +++ ", "
  +++ quoted "canAnswer" +++ ": true/false, "
  +++ quoted "confidence" +++ ": 0.0-1.0, "
  +++ quoted "reasoning" +++ ": " +++ quoted "brief explanation" +++ "}".

(** [responseText.replace(/```json\n?|\n?```/g, '').trim()]. *)
Definition cleanedText (responseText : jsstring) : jsstring :=
  trim (replaceFences 0 responseText).

(** The object built when [JSON.parse] throws. *)
Definition notJsonReasoning : jsstring :=
  "Response generated but not in expected JSON format".

Definition fallbackResponse (responseText : jsstring) : JsValue :=
  JObj [ (utf16 "answer", JStr responseText);
         (utf16 "canAnswer", JBool true);
         (utf16 "confidence", JNum num_0_7);
         (utf16 "reasoning", JStr notJsonReasoning) ].

(** The inner [try]/[catch] of [processQueryWithGemini]. *)
Definition decodeResponse (responseText : jsstring) : JsValue :=
  match Json.parse (cleanedText responseText) with
  | Some parsedResponse => parsedResponse
  | None => fallbackResponse responseText
  end.

(** [v.k] for one of the names the services read ([answer], [canAnswer],
    [confidence], [reasoning], [questions]), on a value that is neither
    [null] nor [undefined].  Arrays and primitives have no such member. *)
Definition getMember (v : JsValue) (k : jsstring) : JsValue :=
  match v with
  | JObj props => lookupProp k props
  | _ => JUndefined
  end.

(** The TypeError of V8 for a member read on [null] or [undefined]. *)
Definition cannotRead (base member : jsstring) : Error :=
  mkError ("Cannot read properties of " +++ base +++ " (reading '" +++ member +++ "')").

(** "Ensure required fields exist": the four assignments, and then what
    the spread [...parsedResponse] copies.  On an object or an array the
    assignments create the members.  On a boolean, a number or a string
    they are ignored (the module is not in strict mode) and the spread
    copies none of the four names.  On [null] the first read throws. *)
Definition ensureFields (parsedResponse : JsValue) (responseText : jsstring)
  : Completion Answer :=
  match parsedResponse with
  | JNull => Throw (cannotRead "null" "answer")
  | JUndefined => Throw (cannotRead "undefined" "answer")
  | JObj _ | JArr _ =>
      Normal
        (mkAnswer
           (or_else (getMember parsedResponse "answer") (JStr responseText))
           (match getMember parsedResponse "canAnswer" with
            | JUndefined => JBool true
            | v => v
            end)
           (or_else (getMember parsedResponse "confidence") (JNum num_0_7))
           (or_else (getMember parsedResponse "reasoning")
              (JStr (utf16 "Analysis completed"))))
  | JBool _ | JNum _ | JStr _ =>
      Normal (mkAnswer JUndefined JUndefined JUndefined JUndefined)
  end.

(** Lines "Try to parse the JSON response" to "Ensure required fields
    exist": from the text of the model to the four answer members. *)
Definition parseResponse (responseText : jsstring) : Completion Answer :=
  ensureFields (decodeResponse responseText) responseText.

(** The answer returned when the provider is still overloaded after the
    last attempt. *)
Definition overloadedAnswer (userQuery : jsstring) : jsstring :=
  "I apologize, but the AI service is currently overloaded. However, I can see that you're asking: "
  +++ quoted userQuery
  +++ ". Please try again in a few moments, or try rephrasing your question. The document appears to contain relevant information that I could analyze once the service is available.".

Definition defaultQuestions : JsValue :=
  JArr [ JStr (utf16 "What is the main topic of this document?");
         JStr (utf16 "Can you summarize the key points?");
         JStr (utf16 "What are the most important findings?") ].

(** The template literal of [generateRecommendedQuestions]. *)
Definition questionsPrompt (textSample : jsstring) : jsstring :=
  "Based on this document excerpt: " +++ quoted textSample
  +++ nl +++ nl
  +++ "Generate 3 relevant questions that would help someone understand this document better. Respond in JSON format:"
  +++ nl
  +++ "{" +++ quoted "questions" +++ ": [" +++ quoted "question 1" +++ ", "
  +++ quoted "question 2" +++ ", " +++ quoted "question 3" +++ "]}".

Section Services.

Variable w : World.

(** [if (!model) initializeGemini()]. *)
Definition initializeGemini : M unit :=
  fun st =>
    if GEMINI_API_KEY w then (Normal tt, withModel st)
    else
      (Throw (mkError "GEMINI_API_KEY is not set in environment variables"), st).

Definition ensureModel : M unit :=
  fun st => if model st then (Normal tt, st) else initializeGemini st.

(** The state once the provider has answered [prompt], well or not. *)
Definition afterCall (prompt : jsstring) (st : State) : State :=
  mkState (model st) (now st + latency w (List.length (calls st)))
    (calls st ++ [prompt]) (timers st) (saved st).

(** One request to the provider: [await model.generateContent(prompt)],
    [await result.response], [response.text()]. *)
Definition callProvider (prompt : jsstring) : M jsstring :=
  fun st =>
    match generateContent w (List.length (calls st)) prompt with
    | Text responseText => (Normal responseText, afterCall prompt st)
    | Rejects apiError => (Throw apiError, afterCall prompt st)
    end.

(** [while (retries > 0) { try {...; break} catch (apiError) {...} }].
    [None] is the exit of the loop through its condition, which leaves
    [responseText] undefined. *)
Fixpoint retryLoop (prompt : jsstring) (retries : nat) : M (option jsstring) :=
  match retries with
  | O => ret None
  | S remaining =>
      tryCatch
        (responseText <- callProvider prompt ;; ret (Some responseText))
        (fun apiError =>
           if includes (message apiError) "overloaded" && (1 <? retries)%nat
           then sleep 2000 ;; retryLoop prompt remaining
           else throw apiError)
  end.

(** The outer [catch] of [processQueryWithGemini]. *)
Definition handleError (userQuery : jsstring) (error : Error) : M AiResponse :=
  if includes (message error) "API_KEY" then
    throw (mkError "Invalid Gemini API key. Please check your configuration.")
  else if includes (message error) "quota" then
    throw (mkError "Gemini API quota exceeded. Please try again later.")
  else if includes (message error) "SAFETY" then
    throw (mkError "Content was blocked by Gemini safety filters. Please try a different query.")
  else if includes (message error) "overloaded" then
    t1 <- Date_now ;;
    t2 <- Date_now ;;
    ret (mkAiResponse
           (JStr (overloadedAnswer userQuery))
           (JBool false)
           (JNum num_0)
           (JStr (utf16 "Gemini API is temporarily overloaded"))
           (t1 - (t2 - 1000))
           0)
  else
    throw (mkError ("Gemini processing failed: " +++ message error)).

Definition processQueryWithGemini (documentText userQuery : jsstring)
  : M AiResponse :=
  tryCatch
    (ensureModel ;;
     startTime <- Date_now ;;
     let prompt := buildPrompt documentText userQuery in
     reply <- retryLoop prompt 3 ;;
     endTime <- Date_now ;;
     let processingTime := (endTime - startTime)%Z in
     match reply with
     | Some responseText =>
         parsedResponse <- lift (parseResponse responseText) ;;
         ret (withMetrics parsedResponse processingTime
                (estimateTokens (prompt +++ responseText)))
     | None =>
         (* [responseText] is undefined: [responseText.replace] throws
            inside the inner [try], and the fallback object is built
            around [undefined]. *)
         ret (mkAiResponse JUndefined (JBool true) (JNum num_0_7)
                (JStr notJsonReasoning) processingTime
                (estimateTokens (prompt +++ "undefined")))
     end)
    (handleError userQuery).

(** [generateRecommendedQuestions]: the value it resolves to.  It is
    [parsed.questions] when that is truthy, whatever its type. *)
Definition generateRecommendedQuestions (documentText : jsstring) : M JsValue :=
  tryCatch
    (ensureModel ;;
     let textSample := substring0 documentText 1000 in
     let prompt := questionsPrompt textSample in
     responseText <- callProvider prompt ;;
     tryCatch
       (match Json.parse (cleanedText responseText) with
        | None => throw (mkError "Unexpected token in JSON")
        | Some JNull => throw (cannotRead "null" "questions")
        | Some parsed => ret (or_else (getMember parsed "questions") defaultQuestions)
        end)
       (fun parseError => ret defaultQuestions))
    (fun error => ret defaultQuestions).

End Services.

(* ================================================================== *)
(** * models/Query.js and routes/query.js *)
(* ================================================================== *)

(** One entry of [results] in the batch handler. *)
Inductive BatchItem : Set :=
| ItemSuccess (query : jsstring) (answer confidence : JsValue)
| ItemFailure (query : jsstring) (error : jsstring).

Definition itemQuery (item : BatchItem) : jsstring :=
  match item with
  | ItemSuccess query _ _ => query
  | ItemFailure query _ => query
  end.

Definition itemSucceeded (item : BatchItem) : bool :=
  match item with
  | ItemSuccess _ _ _ => true
  | ItemFailure _ _ => false
  end.

(** The [query] object of the reply of [POST /api/query], without the
    [id] and [createdAt] that the collection generates. *)
Record QueryReply : Set := mkQueryReply {
  documentName : jsstring;
  replyQueryText : jsstring;
  replyAnswer : JsValue;
  replyCanAnswer : JsValue;
  replyConfidence : JsValue;
  replyReasoning : JsValue;
  replyProcessingTime : Z;
  replyTokensUsed : nat
}.

Inductive Body : Set :=
| ErrorBody (error : jsstring) (detail : option jsstring)
| QueryBody (query : QueryReply)
| BatchBody (documentName : jsstring) (results : list BatchItem).

(** [res.status(status).json(body)]. *)
Record Response : Set := mkResponse { status : nat; body : Body }.

(** [!x] for a member of the request body that is a string when it is
    there. *)
Definition missing (x : option jsstring) : bool :=
  match x with
  | None => true
  | Some s => isEmpty s
  end.

(** The [required: true] of the two String paths of [querySchema]: the
    required validator of a String path rejects [undefined], [null] and
    the empty string.  The result is the message of the validation error,
    if there is one. *)
Definition validateQuery (q : QueryRecord) : option jsstring :=
  let queryTextMissing := isEmpty (queryText q) in
  let responseMissing :=
    match response q with
    | JUndefined | JNull => true
    | JStr s => isEmpty s
    | _ => false
    end in
  match queryTextMissing, responseMissing with
  | false, false => None
  | true, false =>
      Some (utf16 "Query validation failed: queryText: Path `queryText` is required.")
  | false, true =>
      Some (utf16 "Query validation failed: response: Path `response` is required.")
  | true, true =>
      Some (utf16 "Query validation failed: queryText: Path `queryText` is required., response: Path `response` is required.")
  end.

Section Routes.

Variable w : World.

(** [await Document.findById(documentId)]. *)
Definition Document_findById (id : jsstring) : M (option Document) :=
  fun st =>
    match findById w id with
    | Found document => (Normal (Some document), st)
    | NotFound => (Normal None, st)
    | LookupFails e => (Throw e, st)
    end.

(** [await queryRecord.save()]: the validation of the schema, then the
    insertion.  The collection may refuse any record (a cast or a range
    validator of the other paths, a lost connection). *)
Definition save (q : QueryRecord) : M unit :=
  fun st =>
    match validateQuery q with
    | Some msg => (Throw (mkError msg), st)
    | None =>
        match insertQuery w (List.length (saved st)) q with
        | Some e => (Throw e, st)
        | None => (Normal tt, afterSave q st)
        end
    end.

(** [POST /api/query]. *)
Definition postQuery (documentId query : option jsstring) : M Response :=
  tryCatch
    (match documentId, query with
     | Some documentId, Some query =>
         if isEmpty documentId || isEmpty query then
           ret (mkResponse 400
                  (ErrorBody "Missing required fields"
                     (Some (utf16 "Both documentId and query are required"))))
         else if (List.length (trim query) <? 3)%nat then
           ret (mkResponse 400
                  (ErrorBody "Invalid query"
                     (Some (utf16 "Query must be at least 3 characters long"))))
         else
           found <- Document_findById documentId ;;
           match found with
           | None =>
               ret (mkResponse 404
                      (ErrorBody "Document not found"
                         (Some (utf16 "The specified document does not exist"))))
           | Some document =>
               if isEmpty (extractedText document)
                  || (List.length (trim (extractedText document)) =? 0)%nat
               then
                 ret (mkResponse 400
                        (ErrorBody "No text content"
                           (Some (utf16 "The document has no extractable text content"))))
               else
                 startTime <- Date_now ;;
                 aiResponse <- processQueryWithGemini w (extractedText document) query ;;
                 endTime <- Date_now ;;
                 let processingTime := (endTime - startTime)%Z in
                 save (mkQuery (doc_id document) query (answer aiResponse)
                         (or_else (aiConfidence aiResponse) (JNum num_0_7))
                         processingTime) ;;
                 ret (mkResponse 200
                        (QueryBody
                           (mkQueryReply (originalName document) query
                              (answer aiResponse) (canAnswer aiResponse)
                              (aiConfidence aiResponse) (reasoning aiResponse)
                              processingTime (tokensUsed aiResponse))))
           end
     | _, _ =>
         ret (mkResponse 400
                (ErrorBody "Missing required fields"
                   (Some (utf16 "Both documentId and query are required"))))
     end)
    (fun error =>
       if includes (message error) "Gemini" then
         ret (mkResponse 503
                (ErrorBody "AI service unavailable" (Some (message error))))
       else
         ret (mkResponse 500
                (ErrorBody "Query processing failed" (Some (message error))))).

(** The body of [for (const query of queries)]: one entry is pushed on
    [results], in the [try] or in the [catch]. *)
Definition batchStep (document : Document) (results : list BatchItem)
    (query : jsstring) : M (list BatchItem) :=
  tryCatch
    (aiResponse <- processQueryWithGemini w (extractedText document) query ;;
     save (mkQuery (doc_id document) query (answer aiResponse)
             (or_else (aiConfidence aiResponse) (JNum num_0_7))
             (if (aiProcessingTime aiResponse =? 0)%Z then 0%Z
              else aiProcessingTime aiResponse)) ;;
     ret (results ++ [ItemSuccess query (answer aiResponse) (aiConfidence aiResponse)]))
    (fun queryError =>
       ret (results ++ [ItemFailure query (message queryError)])).

Fixpoint batchLoop (document : Document) (queries : list jsstring)
    (results : list BatchItem) : M (list BatchItem) :=
  match queries with
  | [] => ret results
  | query :: rest =>
      results' <- batchStep document results query ;;
      batchLoop document rest results'
  end.

(** [POST /api/query/batch].  [queries] is [None] when the member is
    absent or is not an array. *)
Definition postBatch (documentId : option jsstring)
    (queries : option (list jsstring)) : M Response :=
  tryCatch
    (match documentId, queries with
     | Some documentId, Some queries =>
         if isEmpty documentId then
           ret (mkResponse 400
                  (ErrorBody "Invalid input"
                     (Some (utf16 "documentId and queries array are required"))))
         else if (List.length queries =? 0)%nat || (10 <? List.length queries)%nat then
           ret (mkResponse 400
                  (ErrorBody "Invalid query count"
                     (Some (utf16 "Please provide between 1 and 10 queries"))))
         else
           found <- Document_findById documentId ;;
           match found with
           | None => ret (mkResponse 404 (ErrorBody "Document not found" None))
           | Some document =>
               results <- batchLoop document queries [] ;;
               ret (mkResponse 200 (BatchBody (originalName document) results))
           end
     | _, _ =>
         ret (mkResponse 400
                (ErrorBody "Invalid input"
                   (Some (utf16 "documentId and queries array are required"))))
     end)
    (fun error =>
       ret (mkResponse 500
              (ErrorBody "Batch processing failed" (Some (message error))))).

End Routes.

(* ================================================================== *)
(** * The vocabulary of the properties *)
(* ================================================================== *)

(** The classes of provider failure, told apart the way the outer [catch]
    of [processQueryWithGemini] tells them apart: by the first of the four
    markers that the message holds. *)
Inductive FailureClass : Set :=
| Credentials
| QuotaExceeded
| SafetyRejected
| TransientOverload
| OtherFailure.

Definition classify (msg : jsstring) : FailureClass :=
  if includes msg "API_KEY" then Credentials
  else if includes msg "quota" then QuotaExceeded
  else if includes msg "SAFETY" then SafetyRejected
  else if includes msg "overloaded" then TransientOverload
  else OtherFailure.

(** The message of the error that reaches the caller for a fatal
    failure. *)
Definition fatalMessage (msg : jsstring) : jsstring :=
  match classify msg with
  | Credentials => "Invalid Gemini API key. Please check your configuration."
  | QuotaExceeded => "Gemini API quota exceeded. Please try again later."
  | SafetyRejected =>
      "Content was blocked by Gemini safety filters. Please try a different query."
  | _ => "Gemini processing failed: " +++ msg
  end.

(** The degraded answer, built from the question alone. *)
Definition degradedResponse (userQuery : jsstring) (time : Z) : AiResponse :=
  mkAiResponse (JStr (overloadedAnswer userQuery)) (JBool false) (JNum num_0)
    (JStr (utf16 "Gemini API is temporarily overloaded")) time 0.

(** The answer of the parser when the text of the model is not JSON. *)
Definition notJsonAnswer (responseText : jsstring) : Answer :=
  mkAnswer (JStr responseText) (JBool true) (JNum num_0_7) (JStr notJsonReasoning).

(** What [generateRecommendedQuestions] makes of the text of the model:
    its inner [try]/[catch]. *)
Definition questionsOf (responseText : jsstring) : JsValue :=
  match Json.parse (cleanedText responseText) with
  | None | Some JNull => defaultQuestions
  | Some parsed => or_else (getMember parsed "questions") defaultQuestions
  end.

Section Vocabulary.

Variable w : World.

(** The provider can be reached: [model] is set, or the key is there to
    set it. *)
Definition ready (st : State) : Prop :=
  model st = true \/ GEMINI_API_KEY w = true.

(** The state after [k] rejected attempts at [prompt], each followed by
    the backoff. *)
Fixpoint afterRetries (prompt : jsstring) (k : nat) (st : State) : State :=
  match k with
  | O => st
  | S k' => afterRetries prompt k' (afterSleep 2000 (afterCall w prompt st))
  end.

(** The attempt number [k] of an invocation entered in state [st] (the
    first is number 0) is rejected with a message that holds
    "overloaded": the test of the retry loop. *)
Definition overloadedAt (prompt : jsstring) (st : State) (k : nat) : Prop :=
  exists apiError,
    generateContent w (List.length (calls st) + k) prompt = Rejects apiError
    /\ includes (message apiError) "overloaded" = true.

(** The [try] block of the batch loop, without the push. *)
Definition answerAndSave (document : Document) (query : jsstring) : M AiResponse :=
  aiResponse <- processQueryWithGemini w (extractedText document) query ;;
  save w (mkQuery (doc_id document) query (answer aiResponse)
            (or_else (aiConfidence aiResponse) (JNum num_0_7))
            (if (aiProcessingTime aiResponse =? 0)%Z then 0%Z
             else aiProcessingTime aiResponse)) ;;
  ret aiResponse.

(** The outcome of one question of a batch as the specification words it:
    a success entry when the question is answered and stored, a failure
    entry with the description of the error when anything is thrown. *)
Definition itemOf (document : Document) (query : jsstring) (st : State)
  : BatchItem * State :=
  match answerAndSave document query st with
  | (Normal aiResponse, st') =>
      (ItemSuccess query (answer aiResponse) (aiConfidence aiResponse), st')
  | (Throw e, st') => (ItemFailure query (message e), st')
  end.

(** The batch as the specification words it: the questions one at a time,
    in input order, each from the state the one before left, whatever its
    outcome. *)
Fixpoint isolatedBatch (document : Document) (queries : list jsstring)
    (st : State) : list BatchItem * State :=
  match queries with
  | [] => ([], st)
  | query :: rest =>
      let (item, st1) := itemOf document query st in
      let (items, st2) := isolatedBatch document rest st1 in
      (item :: items, st2)
  end.

End Vocabulary.

(** Worlds, documents and requests for the examples. *)
Module Scenario.

Definition skyDocument : Document :=
  mkDocument "65f0c0ffee" "sky.txt" "The sky is blue.".

(** A document stored without text: [extractedText] has the default of
    the schema. *)
Definition blankDocument : Document :=
  mkDocument "65f0c0ffee" "blank.txt" "".

Definition skyQuestion : jsstring := "What color is the sky?".

Definition initial : State := mkState false 1700000000000 [] [] [].

(** A world with the key set, requests of 120 ms, one document under every
    identifier and a collection that stores every valid record. *)
Definition worldWith (provider : nat -> jsstring -> Reply)
    (document : Document) : World :=
  mkWorld true provider (fun _ => 120%Z) (fun _ => Found document)
    (fun _ _ => None).

Definition blueReply : jsstring :=
  "{" +++ quoted "answer" +++ ":" +++ quoted "Blue" +++ ","
  +++ quoted "canAnswer" +++ ":true," +++ quoted "confidence" +++ ":0.95,"
  +++ quoted "reasoning" +++ ":" +++ quoted "stated directly" +++ "}".

Definition cannotTellReply : jsstring :=
  "{" +++ quoted "answer" +++ ":" +++ quoted "Not stated" +++ ","
  +++ quoted "canAnswer" +++ ":false," +++ quoted "confidence" +++ ":0,"
  +++ quoted "reasoning" +++ ":" +++ quoted "absent from the excerpt" +++ "}".


Definition overloadedDetail : jsstring :=
  "[503 Service Unavailable] The model is overloaded. Please try again later.".

Definition credentialsDetail : jsstring :=
  "[400 Bad Request] API key not valid. Please pass a valid API key. [reason: API_KEY_INVALID]".

Definition badRequestDetail : jsstring :=
  "[400 Bad Request] Invalid JSON payload received.".

Definition answering (responseText : jsstring) : World :=
  worldWith (fun _ _ => Text responseText) skyDocument.

Definition overloadedWorld : World :=
  worldWith (fun _ _ => Rejects (mkError overloadedDetail)) skyDocument.

Definition credentialsWorld : World :=
  worldWith (fun _ _ => Rejects (mkError credentialsDetail)) skyDocument.

(** Overloaded at the first request, a bad request at the second. *)
Definition flakyWorld : World :=
  worldWith
    (fun n _ =>
       match n with
       | O => Rejects (mkError overloadedDetail)
       | _ => Rejects (mkError badRequestDetail)
       end)
    skyDocument.

(** The second request is refused for its credentials, the others are
    answered. *)
Definition secondFails : World :=
  worldWith
    (fun n _ =>
       match n with
       | 1 => Rejects (mkError credentialsDetail)
       | _ => Text blueReply
       end)
    skyDocument.

Definition threeQuestions : list jsstring :=
  [ utf16 "What color is the sky?";
    utf16 "Who wrote this?";
    utf16 "Is the sky green?" ].

Definition blankWorld : World :=
  worldWith (fun _ _ => Text blueReply) blankDocument.

End Scenario.

(* ================================================================== *)
(** * More of services/geminiService.js *)
(* ================================================================== *)

Section MoreServices.

Variable w : World.

(** [validateGeminiKey]: the key, then a fresh [initializeGemini] and one
    test request; any error is caught and gives [false]. *)
Definition validateGeminiKey : M bool :=
  tryCatch
    (if negb (GEMINI_API_KEY w) then ret false
     else
       initializeGemini w ;;
       callProvider w "Hello, this is a test." ;;
       ret true)
    (fun error => ret false).

End MoreServices.

(** The outer [catch] of [POST /api/query]: the reply for a thrown
    error. *)
Definition queryFailure (error : Error) : Response :=
  if includes (message error) "Gemini" then
    mkResponse 503 (ErrorBody "AI service unavailable" (Some (message error)))
  else
    mkResponse 500 (ErrorBody "Query processing failed" (Some (message error))).

(** The record that [POST /api/query] saves and the reply it sends for an
    answer of the service that took [time] milliseconds. *)
Definition queryRecordOf (document : Document) (query : jsstring)
    (aiResponse : AiResponse) (time : Z) : QueryRecord :=
  mkQuery (doc_id document) query (answer aiResponse)
    (or_else (aiConfidence aiResponse) (JNum num_0_7)) time.

Definition queryReplyOf (document : Document) (query : jsstring)
    (aiResponse : AiResponse) (time : Z) : Response :=
  mkResponse 200
    (QueryBody
       (mkQueryReply (originalName document) query (answer aiResponse)
          (canAnswer aiResponse) (aiConfidence aiResponse)
          (reasoning aiResponse) time (tokensUsed aiResponse))).

(* ================================================================== *)
(** * utils/textExtractor.js: cleanText *)
(* ================================================================== *)

(** [text.replace(/\s+/g, ' ')]: every run of whitespace becomes one
    space.  [inRun] tells that the code unit before was whitespace.  The
    class [\s] is the whitespace of [trim]. *)
Fixpoint collapseWhiteSpace (inRun : bool) (s : jsstring) : jsstring :=
  match s with
  | [] => []
  | c :: s' =>
      if isWhiteSpace c then
        if inRun then collapseWhiteSpace true s'
        else 32%N :: collapseWhiteSpace true s'
      else c :: collapseWhiteSpace false s'
  end.

(** [text.replace(/\n+/g, '\n')]: every run of line feeds becomes one
    line feed. *)
Fixpoint collapseNewlines (inRun : bool) (s : jsstring) : jsstring :=
  match s with
  | [] => []
  | c :: s' =>
      if (c =? 10)%N then
        if inRun then collapseNewlines true s'
        else 10%N :: collapseNewlines true s'
      else c :: collapseNewlines false s'
  end.

(** [cleanText]. *)
Definition cleanText (text : jsstring) : jsstring :=
  trim (collapseNewlines false (collapseWhiteSpace false text)).

(** The text starts with a code unit that is not whitespace, or is
    empty. *)
Definition startsClean (s : jsstring) : bool :=
  match s with
  | [] => true
  | c :: _ => negb (isWhiteSpace c)
  end.

(** Every whitespace code unit of the text is a space, and what follows
    it is not whitespace. *)
Fixpoint singleSpaced (s : jsstring) : bool :=
  match s with
  | [] => true
  | c :: s' =>
      (if isWhiteSpace c then (c =? 32)%N && startsClean s' else true)
      && singleSpaced s'
  end.

(** The code units of the text that are not whitespace, in order. *)
Definition inked (s : jsstring) : jsstring :=
  filter (fun c => negb (isWhiteSpace c)) s.

(* ================================================================== *)
(** * utils/textExtractor.js, models/Document.js and routes/upload.js *)
(* ================================================================== *)

Module Upload.

(** [req.file], as multer leaves it. *)
Record UploadedFile : Set := mkFile {
  path : jsstring;
  originalname : jsstring;
  filename : jsstring;
  mimetype : jsstring;
  size : N
}.

(** The fields given to [new Document({...})]. *)
Record NewDocument : Set := mkNewDocument {
  doc_filename : jsstring;
  doc_originalName : jsstring;
  doc_filePath : jsstring;
  doc_fileSize : N;
  doc_mimeType : jsstring;
  doc_extractedText : jsstring
}.

(** The file system, the two extraction libraries and the document
    collection.  A buffer is the list of its bytes; [toUtf8] is
    [buffer.toString('utf-8')], which does not throw. *)
Record Env : Type := mkEnv {
  readFileSync : jsstring -> Completion (list N);
  pdfParse : list N -> Completion jsstring;
  extractRawText : list N -> Completion jsstring;
  toUtf8 : list N -> jsstring;
  remove : jsstring -> option Error;
  insertDocument : nat -> NewDocument -> option Error
}.

(** The paths removed from the disk and the documents stored, oldest
    first. *)
Record Store : Set := mkStore {
  removed : list jsstring;
  documents : list NewDocument
}.

Inductive UploadBody : Set :=
| UploadError (error detail : jsstring)
| Uploaded (originalName : jsstring) (fileSize : N) (mimeType : jsstring)
    (textLength : nat).

Record UploadResponse : Set := mkUploadResponse {
  up_status : nat;
  up_body : UploadBody
}.

(** [catch (error) { throw new Error(prefix + error.message) }]. *)
Definition rethrow {A} (prefix : jsstring) (c : Completion A) : Completion A :=
  match c with
  | Normal a => Normal a
  | Throw e => Throw (mkError (prefix +++ message e))
  end.

Definition pdfType : jsstring := "application/pdf".
Definition docxType : jsstring :=
  "application/vnd.openxmlformats-officedocument.wordprocessingml.document".
Definition mswordType : jsstring := "application/msword".
Definition textType : jsstring := "text/plain".

(** [fileFilter] of multer: whether the type is accepted. *)
Definition fileFilter (mimeType : jsstring) : bool :=
  existsb (jsstring_eqb mimeType) [pdfType; docxType; mswordType; textType].

Section Routes.

Variable env : Env.

Definition extractFromPDF (fileBuffer : list N) : Completion jsstring :=
  rethrow "PDF extraction failed: " (pdfParse env fileBuffer).

Definition extractFromWord (fileBuffer : list N) : Completion jsstring :=
  rethrow "Word document extraction failed: " (extractRawText env fileBuffer).

(** [extractTextFromDocument].  The [default] case of the [switch] reads
    the buffer as text in a [try] that cannot fail. *)
Definition extractTextFromDocument (filePath mimeType : jsstring)
  : Completion jsstring :=
  rethrow "Failed to extract text: "
    (match readFileSync env filePath with
     | Throw e => Throw e
     | Normal fileBuffer =>
         if jsstring_eqb mimeType pdfType then extractFromPDF fileBuffer
         else if jsstring_eqb mimeType docxType
                 || jsstring_eqb mimeType mswordType
         then extractFromWord fileBuffer
         else if jsstring_eqb mimeType textType
         then Normal (toUtf8 env fileBuffer)
         else Normal (toUtf8 env fileBuffer)
     end).

(** The inner [try] of the upload handler: extraction, cleaning, and the
    refusal of a text that is empty. *)
Definition extractAndClean (file : UploadedFile) : Completion jsstring :=
  match extractTextFromDocument (path file) (mimetype file) with
  | Throw e => Throw e
  | Normal raw =>
      let extractedText := cleanText raw in
      if isEmpty extractedText
         || (List.length (trim extractedText) =? 0)%nat
      then
        Throw (mkError "Document appears to be empty or contains no readable text")
      else Normal extractedText
  end.

(** [try { await fsExtra.remove(path) } catch (cleanupError) { }]. *)
Definition cleanup (filePath : jsstring) (st : Store) : Store :=
  match remove env filePath with
  | None => mkStore (removed st ++ [filePath]) (documents st)
  | Some _ => st
  end.

(** The [required: true] of the String paths of [documentSchema], as in
    [validateQuery]; [fileSize] is a number, which is there. *)
Definition validateDocument (d : NewDocument) : option jsstring :=
  let missing :=
    filter (fun p => isEmpty (snd p))
      [ (utf16 "filename", doc_filename d);
        (utf16 "originalName", doc_originalName d);
        (utf16 "filePath", doc_filePath d);
        (utf16 "mimeType", doc_mimeType d) ] in
  match missing with
  | [] => None
  | first :: others =>
      Some ("Document validation failed: "
            +++ fold_left
                  (fun msg p =>
                     msg +++ ", " +++ fst p +++ ": Path `" +++ fst p
                     +++ "` is required.")
                  others
                  (fst first +++ ": Path `" +++ fst first +++ "` is required."))
  end.

(** [await document.save()]. *)
Definition saveDocument (d : NewDocument) (st : Store) : Completion Store :=
  match validateDocument d with
  | Some msg => Throw (mkError msg)
  | None =>
      match insertDocument env (List.length (documents st)) d with
      | Some e => Throw e
      | None => Normal (mkStore (removed st) (documents st ++ [d]))
      end
  end.

(** [POST /api/upload], after multer has stored the file. *)
Definition postUpload (file : option UploadedFile) (st : Store)
  : UploadResponse * Store :=
  match file with
  | None =>
      (mkUploadResponse 400
         (UploadError "No file uploaded" "Please select a document to upload"),
       st)
  | Some f =>
      match extractAndClean f with
      | Throw extractionError =>
          (mkUploadResponse 400
             (UploadError "Text extraction failed" (message extractionError)),
           cleanup (path f) st)
      | Normal extractedText =>
          match saveDocument
                  (mkNewDocument (filename f) (originalname f) (path f)
                     (size f) (mimetype f) extractedText) st with
          | Normal st' =>
              (mkUploadResponse 201
                 (Uploaded (originalname f) (size f) (mimetype f)
                    (List.length extractedText)),
               st')
          | Throw error =>
              (mkUploadResponse 500 (UploadError "Upload failed" (message error)),
               if isEmpty (path f) then st else cleanup (path f) st)
          end
      end
  end.

End Routes.

(** The reply of [GET /api/upload/:id/recommended-questions]. *)
Inductive QuestionsBody : Set :=
| QuestionsError (error : jsstring) (detail : option jsstring)
| Questions (questions : JsValue).

Record QuestionsResponse : Set := mkQuestionsResponse {
  q_status : nat;
  q_body : QuestionsBody
}.

(** [GET /api/upload/:id/recommended-questions].  [useMemoryStorage] is
    [global.useMemoryStorage]; when it is truthy the handler calls
    [getMemoryStorage], which [utils/memoryStorage.js] does not export. *)
Definition getRecommendedQuestions (w : World) (useMemoryStorage : bool)
    (documentId : jsstring) : M QuestionsResponse :=
  tryCatch
    (found <-
       (if useMemoryStorage
        then throw (mkError "getMemoryStorage is not a function")
        else Document_findById w documentId) ;;
     match found with
     | None =>
         ret (mkQuestionsResponse 404 (QuestionsError "Document not found" None))
     | Some document =>
         questions <- generateRecommendedQuestions w (extractedText document) ;;
         ret (mkQuestionsResponse 200 (Questions questions))
     end)
    (fun error =>
       ret (mkQuestionsResponse 500
              (QuestionsError "Failed to generate recommended questions"
                 (Some (message error))))).

(** A disk with one text file and libraries that are not used. *)
Definition textEnv (content : jsstring) : Env :=
  mkEnv (fun _ => Normal [])
    (fun _ => Throw (mkError "not a PDF"))
    (fun _ => Throw (mkError "not a Word document"))
    (fun _ => content)
    (fun _ => None)
    (fun _ _ => None).

Definition notes : UploadedFile :=
  mkFile "uploads/document-1.txt" "notes.txt" "document-1.txt" "text/plain" 42.

Definition emptyStore : Store := mkStore [] [].

End Upload.

(* ================================================================== *)
(** * server.js: the allowed origins *)
(* ================================================================== *)

Module Cors.

Definition defaultOrigins : list jsstring :=
  [ utf16 "http://localhost:3000";
    utf16 "http://127.0.0.1:3000";
    utf16 "http://localhost:5173" ].

(** [s.split(',')]. *)
Fixpoint splitComma (s : jsstring) : list jsstring :=
  match s with
  | [] => [[]]
  | c :: s' =>
      if (c =? 44)%N then [] :: splitComma s'
      else
        match splitComma s' with
        | piece :: rest => (c :: piece) :: rest
        | [] => [[c]]
        end
  end.

(** [(process.env.ALLOWED_ORIGINS || '').split(',').map(s => s.trim())
    .filter(Boolean)]; [None] is a variable that is not set. *)
Definition envOrigins (ALLOWED_ORIGINS : option jsstring) : list jsstring :=
  filter (fun s => negb (isEmpty s))
    (map trim
       (splitComma
          (match ALLOWED_ORIGINS with
           | Some s => s
           | None => []
           end))).

(** [[...new Set(l)]]: the first occurrence of each element, in order.
    [seen] holds the elements met before. *)
Fixpoint dedupe (seen l : list jsstring) : list jsstring :=
  match l with
  | [] => []
  | x :: l' =>
      if existsb (jsstring_eqb x) seen then dedupe seen l'
      else x :: dedupe (x :: seen) l'
  end.

Definition allowedOrigins (ALLOWED_ORIGINS : option jsstring) : list jsstring :=
  dedupe [] (defaultOrigins ++ envOrigins ALLOWED_ORIGINS).

(** [s.endsWith(suffix)]. *)
Definition endsWith (s suffix : jsstring) : bool :=
  startsWith (rev s) (rev suffix).

(** [corsOptions.origin]: [None] is [callback(null, true)], an error is
    [callback(error, false)].  The origin is [None] when the request has
    no [Origin] header. *)
Definition origin (allowed : list jsstring) (requestOrigin : option jsstring)
  : option Error :=
  match requestOrigin with
  | None => None
  | Some o =>
      if isEmpty o then None
      else if existsb (jsstring_eqb (utf16 "*")) allowed then None
      else if existsb (jsstring_eqb o) allowed then None
      else if existsb
                (fun entry => startsWith entry "*." && endsWith o (tl entry))
                allowed
      then None
      else Some (mkError ("CORS blocked: " +++ o))
  end.

End Cors.

(* ================================================================== *)
(** * utils/memoryStorage.js *)
(* ================================================================== *)

Module MemoryStorage.

(** The own properties of an object, in the order they were written; of
    two properties with the same name the later one holds the value. *)
Definition Props := list (jsstring * JsValue).

Fixpoint propOf (k : jsstring) (props : Props) : option JsValue :=
  match props with
  | [] => None
  | (k', v) :: rest =>
      match propOf k rest with
      | Some later => Some later
      | None => if jsstring_eqb k k' then Some v else None
      end
  end.

(** [o.k]. *)
Definition get (k : jsstring) (props : Props) : JsValue :=
  match propOf k props with
  | Some v => v
  | None => JUndefined
  end.

(** A stored object: [{ _id, id, ...data, uploadedAt }] or
    [{ _id, id, ...data, createdAt }].  The date, which the spread cannot
    replace, is kept apart: it is the value of [uploadedAt] (of
    [createdAt]), whatever [props] holds under that name. *)
Record Stored : Set := mkStored { props : Props; date : Z }.

Record Memory : Set := mkMemory {
  documents : list Stored;
  queries : list Stored;
  nextDocId : N;
  nextQueryId : N
}.

(** [let documents = []; let queries = []; let nextDocId = 1;
    let nextQueryId = 1]; it is also what [clearAll] leaves. *)
Definition initial : Memory := mkMemory [] [] 1 1.

Definition clearAll (st : Memory) : Memory := initial.

(** [n++] on a counter: exact below [2^53], where the doubles stop
    holding every integer; a counter that starts at 1 does not go
    further. *)
Definition increment (n : N) : N :=
  if (n <? 9007199254740992)%N then (n + 1)%N else n.

Fixpoint digitsOf (d : Decimal.uint) : jsstring :=
  match d with
  | Decimal.Nil => []
  | Decimal.D0 d => 48%N :: digitsOf d
  | Decimal.D1 d => 49%N :: digitsOf d
  | Decimal.D2 d => 50%N :: digitsOf d
  | Decimal.D3 d => 51%N :: digitsOf d
  | Decimal.D4 d => 52%N :: digitsOf d
  | Decimal.D5 d => 53%N :: digitsOf d
  | Decimal.D6 d => 54%N :: digitsOf d
  | Decimal.D7 d => 55%N :: digitsOf d
  | Decimal.D8 d => 56%N :: digitsOf d
  | Decimal.D9 d => 57%N :: digitsOf d
  end.

(** The counter in a template literal: its decimal digits. *)
Definition decimal (n : N) : jsstring := digitsOf (N.to_uint n).

Definition docKey (n : N) : jsstring := "doc_" +++ decimal n.
Definition queryKey (n : N) : jsstring := "query_" +++ decimal n.

(** [v === id] for a string [id]. *)
Definition strictEq (v : JsValue) (id : jsstring) : bool :=
  match v with
  | JStr s => jsstring_eqb s id
  | _ => false
  end.

(** [doc => doc._id === id || doc.id === id]. *)
Definition hasId (id : jsstring) (doc : Stored) : bool :=
  strictEq (get "_id" (props doc)) id || strictEq (get "id" (props doc)) id.

(** [saveDocument(docData)] at time [now]: the document returned and the
    new state. *)
Definition saveDocument (docData : Props) (now : Z) (st : Memory)
  : Stored * Memory :=
  let n := nextDocId st in
  let n' := increment n in
  let document :=
    mkStored ([ (utf16 "_id", JStr (docKey n));
                (utf16 "id", JStr (docKey (n' - 1))) ] ++ docData) now in
  (document,
   mkMemory (documents st ++ [document]) (queries st) n' (nextQueryId st)).

Definition findDocuments (st : Memory) : list Stored := documents st.

(** [documents.find(...)]. *)
Definition findDocumentById (id : jsstring) (st : Memory) : option Stored :=
  find (hasId id) (documents st).

(** [l.splice(l.findIndex(p), 1)] when the index is found. *)
Fixpoint removeFirst (p : Stored -> bool) (l : list Stored) : list Stored :=
  match l with
  | [] => []
  | x :: l' => if p x then l' else x :: removeFirst p l'
  end.

(** [deleteDocument(id)]. *)
Definition deleteDocument (id : jsstring) (st : Memory) : bool * Memory :=
  if existsb (hasId id) (documents st) then
    (true,
     mkMemory (removeFirst (hasId id) (documents st))
       (filter (fun q => negb (strictEq (get "documentId" (props q)) id))
          (queries st))
       (nextDocId st) (nextQueryId st))
  else (false, st).

(** [saveQuery(queryData)]. *)
Definition saveQuery (queryData : Props) (now : Z) (st : Memory)
  : Stored * Memory :=
  let n := nextQueryId st in
  let n' := increment n in
  let query :=
    mkStored ([ (utf16 "_id", JStr (queryKey n));
                (utf16 "id", JStr (queryKey (n' - 1))) ] ++ queryData) now in
  (query, mkMemory (documents st) (queries st ++ [query]) (nextDocId st) n').

(** [findQueriesByDocumentId(documentId)]. *)
Definition findQueriesByDocumentId (documentId : jsstring) (st : Memory)
  : list Stored :=
  filter (fun q => strictEq (get "documentId" (props q)) documentId)
    (queries st).

Definition findAllQueries (st : Memory) : list Stored := queries st.

(** The data has no property of that name. *)
Definition lacks (k : jsstring) (data : Props) : Prop :=
  propOf k data = None.

(** The values of [_id] and [id] of a stored object. *)
Definition keysOf (o : Stored) : JsValue * JsValue :=
  (get "_id" (props o), get "id" (props o)).

(** Every stored document carries, as [_id] and as [id], the key made
    from a counter value below the next one, and no two carry the same:
    [ns] are the counter values, in the order of the documents. *)
Definition keyed (st : Memory) : Prop :=
  exists ns : list N,
    NoDup ns
    /\ Forall (fun n => (n < nextDocId st)%N) ns
    /\ map keysOf (documents st)
       = map (fun n => (JStr (docKey n), JStr (docKey n))) ns.

End MemoryStorage.

(* ================================================================== *)
(** * Facts about the runtime *)
(* ================================================================== *)

Lemma startsWith_app (p rest : jsstring) : startsWith (p +++ rest) p = true.
Proof.
  unfold cat. induction p as [|c p IH]; simpl; [reflexivity|].
  rewrite N.eqb_refl. exact IH.
Qed.

Lemma includes_suffix (pre s : jsstring) : includes (pre +++ s) s = true.
Proof.
  unfold cat. induction pre as [|c pre IH]; simpl.
  - destruct s as [|c s]; simpl; [reflexivity|].
    rewrite N.eqb_refl.
    generalize (startsWith_app s []). unfold cat. rewrite app_nil_r.
    intros ->. reflexivity.
  - rewrite IH. apply orb_true_r.
Qed.

Lemma or_else_truthy (a b : JsValue) : truthy a = true -> or_else a b = a.
Proof. unfold or_else. intros ->. reflexivity. Qed.

Lemma or_else_falsy (a b : JsValue) : truthy a = false -> or_else a b = b.
Proof. unfold or_else. intros ->. reflexivity. Qed.

(* ================================================================== *)
(** * Facts about the service *)
(* ================================================================== *)

Lemma classify_overload_includes (msg : jsstring) :
  classify msg = TransientOverload -> includes msg "overloaded" = true.
Proof.
  unfold classify.
  destruct (includes msg "API_KEY"); [discriminate|].
  destruct (includes msg "quota"); [discriminate|].
  destruct (includes msg "SAFETY"); [discriminate|].
  destruct (includes msg "overloaded"); [reflexivity|discriminate].
Qed.

Lemma handleError_overload (userQuery : jsstring) (error : Error) (st : State) :
  classify (message error) = TransientOverload ->
  handleError userQuery error st = (Normal (degradedResponse userQuery 1000), st).
Proof.
  unfold classify, handleError.
  destruct (includes (message error) "API_KEY"); [discriminate|].
  destruct (includes (message error) "quota"); [discriminate|].
  destruct (includes (message error) "SAFETY"); [discriminate|].
  destruct (includes (message error) "overloaded"); [|discriminate].
  intros _. unfold bind, Date_now, ret, degradedResponse.
  replace (now st - (now st - 1000))%Z with 1000%Z by lia. reflexivity.
Qed.

Lemma handleError_fatal (userQuery : jsstring) (error : Error) (st : State) :
  includes (message error) "overloaded" = false ->
  handleError userQuery error st = (Throw (mkError (fatalMessage (message error))), st).
Proof.
  unfold fatalMessage, classify, handleError. intros ->.
  destruct (includes (message error) "API_KEY"); [reflexivity|].
  destruct (includes (message error) "quota"); [reflexivity|].
  destruct (includes (message error) "SAFETY"); reflexivity.
Qed.

(** The outer [catch] keeps the state: it throws, or reads the clock. *)
Lemma handleError_state (userQuery : jsstring) (error : Error) (st : State) :
  snd (handleError userQuery error st) = st.
Proof.
  unfold handleError.
  destruct (includes (message error) "API_KEY"); [reflexivity|].
  destruct (includes (message error) "quota"); [reflexivity|].
  destruct (includes (message error) "SAFETY"); [reflexivity|].
  destruct (includes (message error) "overloaded"); reflexivity.
Qed.

(** When the text of the model is not JSON the parser answers with the
    text itself, [canAnswer] true and confidence 0.7. *)
Lemma parseResponse_not_json (responseText : jsstring) :
  Json.parse (cleanedText responseText) = None ->
  parseResponse responseText = Normal (notJsonAnswer responseText).
Proof.
  intros Hparse. unfold parseResponse, decodeResponse. rewrite Hparse.
  unfold notJsonAnswer, fallbackResponse, ensureFields. f_equal.
  destruct responseText; reflexivity.
Qed.

Section ServiceFacts.

Variable w : World.

Lemma ensureModel_ready (st : State) :
  ready w st -> ensureModel w st = (Normal tt, withModel st).
Proof.
  unfold ready, ensureModel, initializeGemini, withModel.
  destruct st as [m n c t s]; simpl.
  intros [-> | ->]; [reflexivity | destruct m; reflexivity].
Qed.

Lemma ready_withModel (st : State) : ready w (withModel st).
Proof. left. reflexivity. Qed.

Lemma retryLoop_step (prompt : jsstring) (remaining : nat) (st : State) :
  retryLoop w prompt (S remaining) st =
  match generateContent w (List.length (calls st)) prompt with
  | Text responseText => (Normal (Some responseText), afterCall w prompt st)
  | Rejects apiError =>
      if includes (message apiError) "overloaded" && (1 <? S remaining)%nat
      then retryLoop w prompt remaining (afterSleep 2000 (afterCall w prompt st))
      else (Throw apiError, afterCall w prompt st)
  end.
Proof.
  cbn [retryLoop]. unfold tryCatch, bind, callProvider, ret.
  destruct (generateContent w (List.length (calls st)) prompt) as [t|e].
  - reflexivity.
  - destruct (includes (message e) "overloaded" && (1 <? S remaining)%nat).
    + unfold sleep. reflexivity.
    + reflexivity.
Qed.

Lemma calls_afterCall (prompt : jsstring) (st : State) :
  List.length (calls (afterCall w prompt st)) = S (List.length (calls st)).
Proof. cbn [afterCall calls]. rewrite length_app. simpl. lia. Qed.

(** [processQueryWithGemini] once the model is there: the retry loop, then
    the parsing of the reply or the handling of the error. *)
Lemma processQuery_ready (documentText userQuery : jsstring) (st : State) :
  ready w st ->
  processQueryWithGemini w documentText userQuery st =
  let prompt := buildPrompt documentText userQuery in
  match retryLoop w prompt 3 (withModel st) with
  | (Normal (Some responseText), st1) =>
      match parseResponse responseText with
      | Normal a =>
          (Normal (withMetrics a (now st1 - now st)
                     (estimateTokens (prompt +++ responseText))), st1)
      | Throw e => handleError userQuery e st1
      end
  | (Normal None, st1) =>
      (Normal (mkAiResponse JUndefined (JBool true) (JNum num_0_7)
                 (JStr notJsonReasoning) (now st1 - now st)
                 (estimateTokens (prompt +++ "undefined"))), st1)
  | (Throw e, st1) => handleError userQuery e st1
  end.
Proof.
  intros Hready. unfold processQueryWithGemini, tryCatch, bind at 1.
  rewrite (ensureModel_ready st Hready).
  unfold bind at 1. unfold Date_now at 1. unfold bind at 1.
  cbv zeta.
  destruct (retryLoop w (buildPrompt documentText userQuery) 3 (withModel st))
    as [[[t|]|e] st1].
  - unfold bind at 1. unfold Date_now at 1. unfold bind, lift.
    destruct (parseResponse t) as [a|e]; reflexivity.
  - unfold bind at 1. unfold Date_now at 1. reflexivity.
  - reflexivity.
Qed.

Lemma processQuery_not_ready (documentText userQuery : jsstring) (st : State) :
  model st = false -> GEMINI_API_KEY w = false ->
  processQueryWithGemini w documentText userQuery st =
  (Throw (mkError "Invalid Gemini API key. Please check your configuration."), st).
Proof.
  intros Hm Hk.
  unfold processQueryWithGemini, tryCatch, bind at 1.
  unfold ensureModel, initializeGemini. rewrite Hm, Hk.
  reflexivity.
Qed.

End ServiceFacts.

Section RetryFacts.

Variable w : World.
Variable prompt : jsstring.

Lemma afterRetries_calls (k : nat) (st : State) :
  calls (afterRetries w prompt k st) = calls st ++ repeat prompt k.
Proof.
  revert st. induction k as [|k IH]; intros st; cbn [afterRetries repeat].
  - now rewrite app_nil_r.
  - rewrite IH. cbn [afterSleep afterCall calls].
    rewrite <- app_assoc. reflexivity.
Qed.

Lemma afterRetries_timers (k : nat) (st : State) :
  timers (afterRetries w prompt k st) = timers st ++ repeat 2000%Z k.
Proof.
  revert st. induction k as [|k IH]; intros st; cbn [afterRetries repeat].
  - now rewrite app_nil_r.
  - rewrite IH. cbn [afterSleep afterCall timers].
    rewrite <- app_assoc. reflexivity.
Qed.

Lemma afterRetries_saved (k : nat) (st : State) :
  saved (afterRetries w prompt k st) = saved st.
Proof.
  revert st. induction k as [|k IH]; intros st; cbn [afterRetries];
    [reflexivity | now rewrite IH].
Qed.

Lemma afterRetries_model (k : nat) (st : State) :
  model (afterRetries w prompt k st) = model st.
Proof.
  revert st. induction k as [|k IH]; intros st; cbn [afterRetries];
    [reflexivity | now rewrite IH].
Qed.

Lemma afterRetries_length (k : nat) (st : State) :
  List.length (calls (afterRetries w prompt k st)) = List.length (calls st) + k.
Proof. rewrite afterRetries_calls, length_app, repeat_length. reflexivity. Qed.

(** Every backoff lasts two seconds, and a request takes no negative
    time: [k] retries take at least [2000 * k] milliseconds. *)
Lemma afterRetries_now (k : nat) (st : State) :
  (forall n, 0 <= latency w n)%Z ->
  (now st + 2000 * Z.of_nat k <= now (afterRetries w prompt k st))%Z.
Proof.
  intros Hlat. revert st. induction k as [|k IH]; intros st; cbn [afterRetries].
  - lia.
  - specialize (IH (afterSleep 2000 (afterCall w prompt st))).
    cbn [afterSleep afterCall now] in IH.
    specialize (Hlat (List.length (calls st))). lia.
Qed.

Lemma calls_repeat_snoc (l : list jsstring) (k : nat) :
  (l ++ repeat prompt k) ++ [prompt] = l ++ repeat prompt (S k).
Proof.
  rewrite <- app_assoc. f_equal.
  change [prompt] with (repeat prompt 1).
  rewrite <- repeat_app. f_equal; lia.
Qed.

(** As long as the attempts are rejected for overload and one more attempt
    is left after them, the loop waits and goes on. *)
Lemma retryLoop_overloaded (k r : nat) (st : State) :
  1 <= r ->
  (forall j, j < k -> overloadedAt w prompt st j) ->
  retryLoop w prompt (k + r) st = retryLoop w prompt r (afterRetries w prompt k st).
Proof.
  intros Hr. revert st. induction k as [|k IH]; intros st Hover.
  - reflexivity.
  - cbn [Nat.add afterRetries]. rewrite retryLoop_step.
    destruct (Hover 0) as [e [He Hinc]]; [lia|].
    rewrite Nat.add_0_r in He. rewrite He, Hinc.
    replace (1 <? S (k + r))%nat with true
      by (symmetry; apply Nat.ltb_lt; lia).
    cbn [andb]. apply IH.
    intros j Hj. destruct (Hover (S j)) as [e' [He' Hinc']]; [lia|].
    exists e'. split; [|exact Hinc'].
    cbn [afterSleep calls]. rewrite calls_afterCall.
    rewrite <- He'. f_equal. lia.
Qed.

(** The attempt that follows [k] overloaded ones, when [k < retries]. *)
Lemma retryLoop_after_overloaded (k retries : nat) (st : State) :
  k < retries ->
  (forall j, j < k -> overloadedAt w prompt st j) ->
  retryLoop w prompt retries st =
  let st' := afterRetries w prompt k st in
  match generateContent w (List.length (calls st) + k) prompt with
  | Text responseText => (Normal (Some responseText), afterCall w prompt st')
  | Rejects apiError =>
      if includes (message apiError) "overloaded" && (1 <? retries - k)%nat
      then retryLoop w prompt (retries - k - 1)
             (afterSleep 2000 (afterCall w prompt st'))
      else (Throw apiError, afterCall w prompt st')
  end.
Proof.
  intros Hk Hover.
  replace retries with (k + S (retries - k - 1)) at 1 by lia.
  rewrite retryLoop_overloaded by (auto; lia).
  rewrite retryLoop_step, afterRetries_length.
  replace (S (retries - k - 1)) with (retries - k) by lia.
  reflexivity.
Qed.

(** The whole of [processQueryWithGemini] when attempt [k] is rejected and
    is the last: the error of that attempt goes to the outer [catch]. *)
Lemma processQuery_rejected (documentText userQuery : jsstring) (st : State)
    (k : nat) (apiError : Error) :
  prompt = buildPrompt documentText userQuery ->
  ready w st ->
  k < 3 ->
  (forall j, j < k -> overloadedAt w prompt st j) ->
  generateContent w (List.length (calls st) + k) prompt = Rejects apiError ->
  includes (message apiError) "overloaded" = false \/ k = 2 ->
  processQueryWithGemini w documentText userQuery st =
  handleError userQuery apiError
    (afterCall w prompt (afterRetries w prompt k (withModel st))).
Proof.
  intros Hprompt Hready Hk Hover Hrej Hlast.
  rewrite processQuery_ready by exact Hready.
  cbv zeta. rewrite <- Hprompt.
  rewrite (retryLoop_after_overloaded k 3 (withModel st) Hk Hover).
  cbv zeta. change (calls (withModel st)) with (calls st). rewrite Hrej.
  destruct Hlast as [Hinc | ->].
  - rewrite Hinc. reflexivity.
  - rewrite andb_false_r. reflexivity.
Qed.

(** The same when attempt [k] is answered. *)
Lemma processQuery_answered (documentText userQuery : jsstring) (st : State)
    (k : nat) (responseText : jsstring) :
  prompt = buildPrompt documentText userQuery ->
  ready w st ->
  k < 3 ->
  (forall j, j < k -> overloadedAt w prompt st j) ->
  generateContent w (List.length (calls st) + k) prompt = Text responseText ->
  processQueryWithGemini w documentText userQuery st =
  let st1 := afterCall w prompt (afterRetries w prompt k (withModel st)) in
  match parseResponse responseText with
  | Normal a =>
      (Normal (withMetrics a (now st1 - now st)
                 (estimateTokens (prompt +++ responseText))), st1)
  | Throw e => handleError userQuery e st1
  end.
Proof.
  intros Hprompt Hready Hk Hover Htext.
  rewrite processQuery_ready by exact Hready.
  cbv zeta. rewrite <- Hprompt.
  rewrite (retryLoop_after_overloaded k 3 (withModel st) Hk Hover).
  cbv zeta. change (calls (withModel st)) with (calls st). rewrite Htext.
  reflexivity.
Qed.

End RetryFacts.

(* ================================================================== *)
(** * The retry policy and the degraded answer *)
(* ================================================================== *)

(** What the service does when the three attempts are rejected for
    overload, in full: the degraded answer with its constant time, the
    three requests, the two timers and the clock. *)
Lemma processQuery_exhausted (w : World) (documentText userQuery : jsstring)
    (st : State) :
  let prompt := buildPrompt documentText userQuery in
  ready w st ->
  (forall k, k < 3 ->
     exists apiError,
       generateContent w (List.length (calls st) + k) prompt = Rejects apiError
       /\ classify (message apiError) = TransientOverload) ->
  let st' := afterCall w prompt (afterRetries w prompt 2 (withModel st)) in
  processQueryWithGemini w documentText userQuery st
  = (Normal (degradedResponse userQuery 1000), st')
  /\ calls st' = calls st ++ repeat prompt 3
  /\ timers st' = timers st ++ [2000; 2000]%Z.
Proof.
  intros prompt Hready Hall st'.
  assert (Hover : forall j, j < 2 -> overloadedAt w prompt st j).
  { intros j Hj. destruct (Hall j) as [e [He Hc]]; [lia|].
    exists e. split; [exact He | now apply classify_overload_includes]. }
  destruct (Hall 2) as [e3 [He3 Hc3]]; [lia|].
  split; [|split].
  - rewrite (processQuery_rejected w prompt documentText userQuery st 2 e3);
      auto.
    apply handleError_overload. exact Hc3.
  - unfold st'. cbn [afterCall calls]. rewrite afterRetries_calls.
    apply calls_repeat_snoc.
  - unfold st'. cbn [afterCall timers]. rewrite afterRetries_timers.
    reflexivity.
Qed.

(** C2.  When the provider rejects every attempt for transient overload
    (the class that the error handler of the service gives to its
    message), [processQueryWithGemini] sends the prompt exactly three
    times, awaits exactly two timers of 2000 ms between them, and returns
    normally: an answer with [canAnswer] false and confidence 0.0 whose
    text is built from the question alone, and no tokens counted. *)
Theorem overload_on_every_attempt_degrades :
  forall (w : World) (documentText userQuery : jsstring) (st : State),
    ready w st ->
    (forall k, k < 3 ->
       exists apiError,
         generateContent w (List.length (calls st) + k)
           (buildPrompt documentText userQuery) = Rejects apiError
         /\ classify (message apiError) = TransientOverload) ->
    exists (r : AiResponse) (st' : State),
      processQueryWithGemini w documentText userQuery st = (Normal r, st')
      /\ calls st' = calls st ++ repeat (buildPrompt documentText userQuery) 3
      /\ timers st' = timers st ++ [2000; 2000]%Z
      /\ canAnswer r = JBool false
      /\ aiConfidence r = JNum num_0
      /\ answer r = JStr (overloadedAnswer userQuery)
      /\ reasoning r = JStr (utf16 "Gemini API is temporarily overloaded")
      /\ tokensUsed r = 0.
Proof.
  intros w documentText userQuery st Hready Hall.
  destruct (processQuery_exhausted w documentText userQuery st Hready Hall)
    as [Hrun [Hcalls Htimers]].
  eexists; eexists. split; [exact Hrun|].
  split; [exact Hcalls|]. split; [exact Htimers|].
  repeat split; reflexivity.
Qed.

Lemma overload_on_every_attempt_degrades_witness :
  exists (r : AiResponse) (st' : State),
    processQueryWithGemini Scenario.overloadedWorld
      (extractedText Scenario.skyDocument) Scenario.skyQuestion Scenario.initial
    = (Normal r, st')
    /\ calls st'
       = calls Scenario.initial
         ++ repeat (buildPrompt (extractedText Scenario.skyDocument)
                      Scenario.skyQuestion) 3
    /\ timers st' = timers Scenario.initial ++ [2000; 2000]%Z
    /\ canAnswer r = JBool false
    /\ aiConfidence r = JNum num_0
    /\ answer r = JStr (overloadedAnswer Scenario.skyQuestion)
    /\ reasoning r = JStr (utf16 "Gemini API is temporarily overloaded")
    /\ tokensUsed r = 0.
Proof.
  apply (overload_on_every_attempt_degrades Scenario.overloadedWorld).
  - right. reflexivity.
  - intros k _. exists (mkError Scenario.overloadedDetail).
    split; [reflexivity | vm_compute; reflexivity].
Defined.

(** C7.  The provider is overloaded at the three attempts, each taking
    120 ms.  The degraded answer reports a processing time of 1000 ms;
    the clock has advanced by 4360 ms, the three requests and the two
    backoffs. *)
Theorem degraded_processing_time_is_constant :
  let run :=
    processQueryWithGemini Scenario.overloadedWorld
      (extractedText Scenario.skyDocument) Scenario.skyQuestion
      Scenario.initial in
  fst run = Normal (degradedResponse Scenario.skyQuestion 1000)
  /\ (now (snd run) - now Scenario.initial = 4360)%Z.
Proof. vm_compute. split; reflexivity. Qed.

(** The same for every world: the reported time is 1000 ms, and at least
    4000 ms have passed. *)
Lemma degraded_time_general (w : World) (documentText userQuery : jsstring)
    (st : State) :
  ready w st ->
  (forall n, 0 <= latency w n)%Z ->
  (forall k, k < 3 ->
     exists apiError,
       generateContent w (List.length (calls st) + k)
         (buildPrompt documentText userQuery) = Rejects apiError
       /\ classify (message apiError) = TransientOverload) ->
  exists (r : AiResponse) (st' : State),
    processQueryWithGemini w documentText userQuery st = (Normal r, st')
    /\ aiProcessingTime r = 1000%Z
    /\ (4000 <= now st' - now st)%Z.
Proof.
  intros Hready Hlat Hall.
  destruct (processQuery_exhausted w documentText userQuery st Hready Hall)
    as [Hrun _].
  eexists; eexists. split; [exact Hrun|]. split; [reflexivity|].
  cbn [afterCall now].
  pose proof (afterRetries_now w (buildPrompt documentText userQuery) 2
                (withModel st) Hlat) as Hnow.
  change (now (withModel st)) with (now st) in Hnow.
  match goal with |- context [latency w ?n] => specialize (Hlat n) end.
  lia.
Qed.

(** C6, as amended.  An attempt whose rejection does not hold
    "overloaded" is the last: after [k] overloaded attempts ([k] is 0, 1
    or 2) the prompt has been sent [k + 1] times, [k] timers have been
    awaited, and the caller gets an error.  Its message is a fixed
    sentence for a credentials, quota or safety failure, and
    "Gemini processing failed: " followed by the message of the provider
    for any other failure, which is the only case where the detail of the
    provider reaches the caller. *)
Theorem fatal_failure_is_not_retried :
  forall (w : World) (documentText userQuery : jsstring) (st : State)
         (k : nat) (apiError : Error),
    ready w st ->
    k < 3 ->
    (forall j, j < k ->
       overloadedAt w (buildPrompt documentText userQuery) st j) ->
    generateContent w (List.length (calls st) + k)
      (buildPrompt documentText userQuery) = Rejects apiError ->
    includes (message apiError) "overloaded" = false ->
    exists st' : State,
      processQueryWithGemini w documentText userQuery st
      = (Throw (mkError (fatalMessage (message apiError))), st')
      /\ calls st'
         = calls st ++ repeat (buildPrompt documentText userQuery) (S k)
      /\ timers st' = timers st ++ repeat 2000%Z k
      /\ (classify (message apiError) = Credentials ->
          fatalMessage (message apiError)
          = utf16 "Invalid Gemini API key. Please check your configuration.")
      /\ (classify (message apiError) = QuotaExceeded ->
          fatalMessage (message apiError)
          = utf16 "Gemini API quota exceeded. Please try again later.")
      /\ (classify (message apiError) = SafetyRejected ->
          fatalMessage (message apiError)
          = utf16 "Content was blocked by Gemini safety filters. Please try a different query.")
      /\ (classify (message apiError) = OtherFailure ->
          fatalMessage (message apiError)
          = "Gemini processing failed: " +++ message apiError
          /\ includes (fatalMessage (message apiError)) (message apiError) = true).
Proof.
  intros w documentText userQuery st k apiError Hready Hk Hover Hrej Hinc.
  eexists. split.
  - rewrite (processQuery_rejected w (buildPrompt documentText userQuery)
               documentText userQuery st k apiError); auto.
    apply handleError_fatal. exact Hinc.
  - split.
    { cbn [afterCall calls]. rewrite afterRetries_calls.
      apply calls_repeat_snoc. }
    split.
    { cbn [afterCall timers]. rewrite afterRetries_timers. reflexivity. }
    unfold fatalMessage.
    split; [intros Hc; rewrite Hc; reflexivity|].
    split; [intros Hc; rewrite Hc; reflexivity|].
    split; [intros Hc; rewrite Hc; reflexivity|].
    intros Hc; rewrite Hc. split; [reflexivity | apply includes_suffix].
Qed.

Lemma fatal_failure_is_not_retried_witness :
  exists st' : State,
    processQueryWithGemini Scenario.flakyWorld
      (extractedText Scenario.skyDocument) Scenario.skyQuestion Scenario.initial
    = (Throw (mkError ("Gemini processing failed: " +++ Scenario.badRequestDetail)),
       st')
    /\ List.length (calls st') = 2
    /\ timers st' = [2000%Z].
Proof.
  destruct (fatal_failure_is_not_retried Scenario.flakyWorld
              (extractedText Scenario.skyDocument) Scenario.skyQuestion
              Scenario.initial 1 (mkError Scenario.badRequestDetail))
    as [st' [Hrun [Hcalls [Htimers _]]]].
  - right. reflexivity.
  - lia.
  - intros j Hj. exists (mkError Scenario.overloadedDetail).
    assert (j = 0) as -> by lia.
    split; [reflexivity | vm_compute; reflexivity].
  - reflexivity.
  - vm_compute. reflexivity.
  - exists st'. split; [exact Hrun|].
    split; [rewrite Hcalls; reflexivity | exact Htimers].
Defined.

(** C6 as the specification states it fails on a credentials failure: the
    caller gets the fixed sentence of the service, in which the message of
    the provider does not appear. *)
Lemma credentials_detail_is_dropped :
  fst (processQueryWithGemini Scenario.credentialsWorld
         (extractedText Scenario.skyDocument) Scenario.skyQuestion
         Scenario.initial)
  = Throw (mkError "Invalid Gemini API key. Please check your configuration.")
  /\ includes
       (utf16 "Invalid Gemini API key. Please check your configuration.")
       Scenario.credentialsDetail = false.
Proof. vm_compute. split; reflexivity. Qed.

(** A message that holds "overloaded" and the marker of a fatal class is
    retried by the loop like an overload, and then reported as the fatal
    class: the two tests of the service do not agree on it. *)
Lemma overloaded_and_quota_is_retried_then_fatal :
  let w :=
    Scenario.worldWith
      (fun _ _ => Rejects (mkError "The model is overloaded: quota exhausted"))
      Scenario.skyDocument in
  let run :=
    processQueryWithGemini w (extractedText Scenario.skyDocument)
      Scenario.skyQuestion Scenario.initial in
  fst run = Throw (mkError "Gemini API quota exceeded. Please try again later.")
  /\ List.length (calls (snd run)) = 3.
Proof. vm_compute. split; reflexivity. Qed.

(* ================================================================== *)
(** * The parser of the model output *)
(* ================================================================== *)

(** On an object or an array the four members are there after "Ensure
    required fields exist", and nothing is thrown. *)
Lemma ensureFields_object (parsedResponse : JsValue) (responseText : jsstring) :
  (exists props, parsedResponse = JObj props)
  \/ (exists items, parsedResponse = JArr items) ->
  exists a : Answer,
    ensureFields parsedResponse responseText = Normal a
    /\ ans_answer a
       = or_else (getMember parsedResponse "answer") (JStr responseText)
    /\ ans_canAnswer a <> JUndefined
    /\ truthy (ans_confidence a) = true
    /\ truthy (ans_reasoning a) = true.
Proof.
  intros [[props ->] | [items ->]]; eexists; (split; [reflexivity|]);
    cbn [ans_answer ans_canAnswer ans_confidence ans_reasoning];
    (split; [reflexivity|]); (split; [|split]).
  - destruct (getMember (JObj props) "canAnswer"); discriminate.
  - unfold or_else.
    destruct (truthy (getMember (JObj props) "confidence")) eqn:E;
      [exact E | reflexivity].
  - unfold or_else.
    destruct (truthy (getMember (JObj props) "reasoning")) eqn:E;
      [exact E | reflexivity].
  - discriminate.
  - reflexivity.
  - reflexivity.
Qed.

(** C3.  The text [null] is JSON: [JSON.parse] returns [null], the read
    of [parsedResponse.answer] throws a TypeError, and the service rejects
    with it.  The text [42] is JSON too: the parser returns, with none of
    the four members. *)
Theorem parser_throws_on_null :
  parseResponse "null" = Throw (cannotRead "null" "answer")
  /\ fst (processQueryWithGemini (Scenario.answering "null")
            (extractedText Scenario.skyDocument) Scenario.skyQuestion
            Scenario.initial)
     = Throw (mkError
                ("Gemini processing failed: "
                 +++ "Cannot read properties of null (reading 'answer')"))
  /\ parseResponse "42"
     = Normal (mkAnswer JUndefined JUndefined JUndefined JUndefined).
Proof. vm_compute. repeat split; reflexivity. Qed.

(** C9.  The first attempt is answered with a text that decodes to an
    object.  The service returns normally; a [confidence] member that is
    the number zero is replaced by 0.7, and a [canAnswer] member that is
    [false] is returned as [false]. *)
Theorem zero_confidence_is_replaced_false_canAnswer_is_kept :
  forall (w : World) (documentText userQuery : jsstring) (st : State)
         (responseText : jsstring) (props : list (jsstring * JsValue)),
    ready w st ->
    generateContent w (List.length (calls st))
      (buildPrompt documentText userQuery) = Text responseText ->
    Json.parse (cleanedText responseText) = Some (JObj props) ->
    exists (r : AiResponse) (st' : State),
      processQueryWithGemini w documentText userQuery st = (Normal r, st')
      /\ (forall n : Num,
            lookupProp "confidence" props = JNum n ->
            num_nonzero n = false ->
            aiConfidence r = JNum num_0_7)
      /\ (lookupProp "canAnswer" props = JBool false ->
          canAnswer r = JBool false).
Proof.
  intros w documentText userQuery st responseText props Hready Htext Hparse.
  rewrite (processQuery_answered w (buildPrompt documentText userQuery)
             documentText userQuery st 0 responseText); auto.
  - cbv zeta. unfold parseResponse, decodeResponse. rewrite Hparse.
    cbn [ensureFields]. eexists; eexists. split; [reflexivity|].
    cbn [withMetrics aiConfidence canAnswer ans_confidence ans_canAnswer
         getMember].
    split.
    + intros n Hn Hzero. rewrite Hn. apply or_else_falsy. exact Hzero.
    + intros ->. reflexivity.
  - intros j Hj. lia.
  - rewrite Nat.add_0_r. exact Htext.
Qed.

Lemma zero_confidence_is_replaced_false_canAnswer_is_kept_witness :
  exists (r : AiResponse) (st' : State),
    processQueryWithGemini (Scenario.answering Scenario.cannotTellReply)
      (extractedText Scenario.skyDocument) Scenario.skyQuestion Scenario.initial
    = (Normal r, st')
    /\ aiConfidence r = JNum num_0_7
    /\ canAnswer r = JBool false.
Proof.
  destruct (zero_confidence_is_replaced_false_canAnswer_is_kept
              (Scenario.answering Scenario.cannotTellReply)
              (extractedText Scenario.skyDocument) Scenario.skyQuestion
              Scenario.initial Scenario.cannotTellReply
              [ (utf16 "answer", JStr (utf16 "Not stated"));
                (utf16 "canAnswer", JBool false);
                (utf16 "confidence", JNum (mkNum false 0 0));
                (utf16 "reasoning", JStr (utf16 "absent from the excerpt")) ])
    as [r [st' [Hrun [Hconf Hcan]]]].
  - right. reflexivity.
  - reflexivity.
  - vm_compute. reflexivity.
  - exists r, st'. split; [exact Hrun|]. split.
    + apply (Hconf (mkNum false 0 0)); vm_compute; reflexivity.
    + apply Hcan. vm_compute. reflexivity.
Defined.

(* ================================================================== *)
(** * The recommended questions *)
(* ================================================================== *)

Lemma generateRecommendedQuestions_run (w : World) (documentText : jsstring)
    (st : State) :
  generateRecommendedQuestions w documentText st =
  let prompt := questionsPrompt (substring0 documentText 1000) in
  match ensureModel w st with
  | (Normal _, st0) =>
      match generateContent w (List.length (calls st0)) prompt with
      | Text responseText =>
          (Normal (questionsOf responseText), afterCall w prompt st0)
      | Rejects _ => (Normal defaultQuestions, afterCall w prompt st0)
      end
  | (Throw _, st0) => (Normal defaultQuestions, st0)
  end.
Proof.
  unfold generateRecommendedQuestions, tryCatch, bind at 1.
  destruct (ensureModel w st) as [[[]|e0] st0]; [|reflexivity].
  cbv zeta. unfold bind, callProvider.
  destruct (generateContent w (List.length (calls st0)) _) as [t|e];
    [|reflexivity].
  unfold questionsOf.
  destruct (Json.parse (cleanedText t)) as [[]|]; reflexivity.
Qed.






(* ================================================================== *)
(** * The single-query handler *)
(* ================================================================== *)

(** C5.  A question whose trimmed length is under 3 is answered with
    status 400, "Missing required fields" (an empty question, or no
    document identifier) or "Invalid query", and the state is the one the
    handler was entered with: no request to the provider, no lookup, no
    record saved. *)
Theorem short_question_is_rejected :
  forall (w : World) (st : State) (documentId : option jsstring)
         (query : jsstring),
    List.length (trim query) < 3 ->
    exists (error : jsstring) (detail : option jsstring),
      postQuery w documentId (Some query) st
      = (Normal (mkResponse 400 (ErrorBody error detail)), st)
      /\ (error = utf16 "Missing required fields"
          \/ error = utf16 "Invalid query")
      /\ calls (snd (postQuery w documentId (Some query) st)) = calls st.
Proof.
  intros w st documentId query Hshort.
  apply Nat.ltb_lt in Hshort.
  unfold postQuery, tryCatch.
  destruct documentId as [documentId|].
  - destruct (isEmpty documentId || isEmpty query).
    + do 2 eexists. split; [reflexivity|]. split; [left|]; reflexivity.
    + rewrite Hshort.
      do 2 eexists. split; [reflexivity|]. split; [right|]; reflexivity.
  - do 2 eexists. split; [reflexivity|]. split; [left|]; reflexivity.
Qed.

Lemma short_question_is_rejected_witness :
  exists (error : jsstring) (detail : option jsstring),
    postQuery (Scenario.answering Scenario.blueReply)
      (Some (doc_id Scenario.skyDocument)) (Some (utf16 " hi ")) Scenario.initial
    = (Normal (mkResponse 400 (ErrorBody error detail)), Scenario.initial)
    /\ (error = utf16 "Missing required fields"
        \/ error = utf16 "Invalid query")
    /\ calls (snd (postQuery (Scenario.answering Scenario.blueReply)
                     (Some (doc_id Scenario.skyDocument)) (Some (utf16 " hi "))
                     Scenario.initial))
       = calls Scenario.initial.
Proof.
  apply (short_question_is_rejected (Scenario.answering Scenario.blueReply)).
  vm_compute. lia.
Defined.

(** The single-query handler never queries a document without text: the
    answer is a 400 and the state is kept; for a well-formed request the
    error is "No text content". *)
Lemma blank_document_single_query (w : World) (st : State)
    (documentId query : jsstring) (document : Document) :
  findById w documentId = Found document ->
  trim (extractedText document) = [] ->
  exists (error : jsstring) (detail : option jsstring),
    postQuery w (Some documentId) (Some query) st
    = (Normal (mkResponse 400 (ErrorBody error detail)), st)
    /\ (isEmpty documentId = false ->
        isEmpty query = false ->
        3 <= List.length (trim query) ->
        error = utf16 "No text content").
Proof.
  intros Hfound Hblank.
  unfold postQuery, tryCatch.
  destruct (isEmpty documentId) eqn:Hd; cbn [orb].
  { do 2 eexists. split; [reflexivity|]. discriminate. }
  destruct (isEmpty query) eqn:Hq.
  { do 2 eexists. split; [reflexivity|]. discriminate. }
  destruct (List.length (trim query) <? 3)%nat eqn:Hlen.
  { do 2 eexists. split; [reflexivity|]. intros _ _ H.
    apply Nat.ltb_lt in Hlen. lia. }
  unfold bind at 1. unfold Document_findById. rewrite Hfound, Hblank.
  cbn [List.length Nat.eqb]. rewrite orb_true_r.
  do 2 eexists. split; reflexivity.
Qed.

(* ================================================================== *)
(** * The batch handler *)
(* ================================================================== *)

Section BatchFacts.

Variable w : World.
Variable document : Document.

Lemma batchStep_itemOf (results : list BatchItem) (query : jsstring) (st : State) :
  batchStep w document results query st
  = (Normal (results ++ [fst (itemOf w document query st)]),
     snd (itemOf w document query st)).
Proof.
  unfold batchStep, itemOf, answerAndSave, tryCatch, bind.
  destruct (processQueryWithGemini w (extractedText document) query st)
    as [[aiResponse|e] st1]; [|reflexivity].
  destruct (save w _ st1) as [[[]|e] st2]; reflexivity.
Qed.

(** The loop of the handler is the batch of the specification. *)
Lemma batchLoop_isolated (queries : list jsstring) (results : list BatchItem)
    (st : State) :
  batchLoop w document queries results st
  = (Normal (results ++ fst (isolatedBatch w document queries st)),
     snd (isolatedBatch w document queries st)).
Proof.
  revert results st.
  induction queries as [|query rest IH]; intros results st;
    cbn [batchLoop isolatedBatch].
  - unfold ret. cbn [fst snd]. now rewrite app_nil_r.
  - unfold bind. rewrite batchStep_itemOf.
    destruct (itemOf w document query st) as [item st1]. cbn [fst snd].
    rewrite IH.
    destruct (isolatedBatch w document rest st1) as [items st2].
    cbn [fst snd]. rewrite <- app_assoc. reflexivity.
Qed.

Lemma itemOf_query (query : jsstring) (st : State) :
  itemQuery (fst (itemOf w document query st)) = query.
Proof.
  unfold itemOf.
  destruct (answerAndSave w document query st) as [[aiResponse|e] st1];
    reflexivity.
Qed.

Lemma isolatedBatch_queries (queries : list jsstring) (st : State) :
  map itemQuery (fst (isolatedBatch w document queries st)) = queries.
Proof.
  revert st. induction queries as [|query rest IH]; intros st;
    cbn [isolatedBatch]; [reflexivity|].
  pose proof (itemOf_query query st) as Hq.
  destruct (itemOf w document query st) as [item st1]. cbn [fst] in Hq.
  specialize (IH st1).
  destruct (isolatedBatch w document rest st1) as [items st2].
  cbn [fst map] in *. now rewrite Hq, IH.
Qed.

Lemma isolatedBatch_length (queries : list jsstring) (st : State) :
  List.length (fst (isolatedBatch w document queries st)) = List.length queries.
Proof.
  rewrite <- (isolatedBatch_queries queries st) at 2.
  now rewrite length_map.
Qed.

Lemma isolatedBatch_app (before after : list jsstring) (st : State) :
  isolatedBatch w document (before ++ after) st
  = (fst (isolatedBatch w document before st)
     ++ fst (isolatedBatch w document after
               (snd (isolatedBatch w document before st))),
     snd (isolatedBatch w document after
            (snd (isolatedBatch w document before st)))).
Proof.
  revert st. induction before as [|query rest IH]; intros st;
    cbn [isolatedBatch app fst snd].
  - now destruct (isolatedBatch w document after st).
  - destruct (itemOf w document query st) as [item st1].
    rewrite IH.
    destruct (isolatedBatch w document rest st1) as [items st2].
    cbn [fst snd]. reflexivity.
Qed.

(** A question on which the service throws is a failure entry with the
    message of the error. *)
Lemma itemOf_service_throws (query : jsstring) (st st1 : State) (e : Error) :
  processQueryWithGemini w (extractedText document) query st = (Throw e, st1) ->
  itemOf w document query st = (ItemFailure query (message e), st1).
Proof.
  intros Hthrow. unfold itemOf, answerAndSave, bind. rewrite Hthrow.
  reflexivity.
Qed.

Lemma postBatch_valid (documentId : jsstring) (queries : list jsstring)
    (st : State) :
  isEmpty documentId = false ->
  findById w documentId = Found document ->
  1 <= List.length queries <= 10 ->
  postBatch w (Some documentId) (Some queries) st
  = (Normal (mkResponse 200
               (BatchBody (originalName document)
                  (fst (isolatedBatch w document queries st)))),
     snd (isolatedBatch w document queries st)).
Proof.
  intros Hid Hfound Hlen.
  unfold postBatch, tryCatch. rewrite Hid.
  replace (List.length queries =? 0)%nat with false
    by (symmetry; apply Nat.eqb_neq; lia).
  replace (10 <? List.length queries)%nat with false
    by (symmetry; apply Nat.ltb_ge; lia).
  cbn [orb]. unfold bind at 1. unfold Document_findById. rewrite Hfound.
  unfold bind. rewrite batchLoop_isolated. reflexivity.
Qed.

End BatchFacts.

Lemma postBatch_bad_count (w : World) (documentId : option jsstring)
    (queries : list jsstring) (st : State) :
  List.length queries = 0 \/ 10 < List.length queries ->
  exists (error : jsstring) (detail : option jsstring),
    postBatch w documentId (Some queries) st
    = (Normal (mkResponse 400 (ErrorBody error detail)), st)
    /\ (missing documentId = false -> error = utf16 "Invalid query count").
Proof.
  intros Hlen.
  assert (Hcount : ((List.length queries =? 0)%nat
                    || (10 <? List.length queries)%nat) = true).
  { apply orb_true_iff. destruct Hlen as [H|H];
      [left; apply Nat.eqb_eq | right; apply Nat.ltb_lt]; exact H. }
  unfold postBatch, tryCatch.
  destruct documentId as [documentId|]; cbn [missing].
  - destruct (isEmpty documentId).
    + do 2 eexists. split; [reflexivity | discriminate].
    + rewrite Hcount. do 2 eexists. split; reflexivity.
  - do 2 eexists. split; [reflexivity | discriminate].
Qed.

(** C1.  A batch of 1 to 10 questions on a document that is found is
    answered with status 200 and a list of results that has one entry per
    question, in the order of the questions: the list is the one of
    [isolatedBatch], and when the service throws on a question (a fatal
    failure of the provider is such a throw) the entry of that question is
    a failure with the message of the error, and the questions after it
    are processed from the state it left.  A batch of no question or of
    more than 10 is answered with status 400 and the state is kept: no
    question is processed. *)
Theorem batch_gives_one_result_per_question :
  forall (w : World) (st : State) (queries : list jsstring),
    (forall (documentId : jsstring) (document : Document),
        isEmpty documentId = false ->
        findById w documentId = Found document ->
        1 <= List.length queries <= 10 ->
        exists (results : list BatchItem) (st' : State),
          postBatch w (Some documentId) (Some queries) st
          = (Normal (mkResponse 200 (BatchBody (originalName document) results)),
             st')
          /\ List.length results = List.length queries
          /\ map itemQuery results = queries
          /\ (results, st') = isolatedBatch w document queries st
          /\ (forall before query after e st0 st1,
                queries = before ++ query :: after ->
                st0 = snd (isolatedBatch w document before st) ->
                processQueryWithGemini w (extractedText document) query st0
                = (Throw e, st1) ->
                results
                = fst (isolatedBatch w document before st)
                  ++ ItemFailure query (message e)
                     :: fst (isolatedBatch w document after st1)))
    /\ (forall documentId : option jsstring,
          List.length queries = 0 \/ 10 < List.length queries ->
          exists (error : jsstring) (detail : option jsstring),
            postBatch w documentId (Some queries) st
            = (Normal (mkResponse 400 (ErrorBody error detail)), st)
            /\ (missing documentId = false ->
                error = utf16 "Invalid query count")).
Proof.
  intros w st queries. split.
  - intros documentId document Hid Hfound Hlen.
    exists (fst (isolatedBatch w document queries st)),
           (snd (isolatedBatch w document queries st)).
    split; [apply postBatch_valid; assumption|].
    split; [apply isolatedBatch_length|].
    split; [apply isolatedBatch_queries|].
    split; [now destruct (isolatedBatch w document queries st)|].
    intros before query after e st0 st1 -> -> Hthrow.
    rewrite isolatedBatch_app. cbn [fst]. f_equal.
    cbn [isolatedBatch].
    rewrite (itemOf_service_throws w document query _ st1 e Hthrow).
    now destruct (isolatedBatch w document after st1).
  - intros documentId Hlen. apply postBatch_bad_count. exact Hlen.
Qed.

Lemma batch_gives_one_result_per_question_witness :
  (exists st' : State,
     postBatch Scenario.secondFails (Some (doc_id Scenario.skyDocument))
       (Some Scenario.threeQuestions) Scenario.initial
     = (Normal
          (mkResponse 200
             (BatchBody (utf16 "sky.txt")
                [ ItemSuccess (utf16 "What color is the sky?")
                    (JStr (utf16 "Blue")) (JNum (mkNum false 95 (-2)));
                  ItemFailure (utf16 "Who wrote this?")
                    (utf16 "Invalid Gemini API key. Please check your configuration.");
                  ItemSuccess (utf16 "Is the sky green?")
                    (JStr (utf16 "Blue")) (JNum (mkNum false 95 (-2))) ])),
        st'))
  /\ (exists (error : jsstring) (detail : option jsstring),
        postBatch Scenario.secondFails (Some (doc_id Scenario.skyDocument))
          (Some []) Scenario.initial
        = (Normal (mkResponse 400 (ErrorBody error detail)), Scenario.initial)
        /\ (missing (Some (doc_id Scenario.skyDocument)) = false ->
            error = utf16 "Invalid query count")).
Proof.
  split.
  - destruct (batch_gives_one_result_per_question Scenario.secondFails
                Scenario.initial Scenario.threeQuestions) as [Hvalid _].
    destruct (Hvalid (doc_id Scenario.skyDocument) Scenario.skyDocument)
      as [results [st' [Hrun [_ [_ [Hiso _]]]]]].
    + reflexivity.
    + reflexivity.
    + vm_compute. lia.
    + exists st'. rewrite Hrun.
      apply (f_equal fst) in Hiso. cbn [fst] in Hiso. rewrite Hiso.
      vm_compute. reflexivity.
  - destruct (batch_gives_one_result_per_question Scenario.secondFails
                Scenario.initial []) as [_ Hbad].
    apply Hbad. left. reflexivity.
Defined.

(** C4.  The only document has an empty text.  The batch handler sends
    the prompt of the question to the provider all the same, and the entry
    of the question is a success.  A text of three spaces is queried in the
    same way. *)
Theorem batch_queries_a_blank_document :
  let run :=
    postBatch Scenario.blankWorld (Some (doc_id Scenario.blankDocument))
      (Some [Scenario.skyQuestion]) Scenario.initial in
  trim (extractedText Scenario.blankDocument) = []
  /\ calls (snd run)
     = [buildPrompt (extractedText Scenario.blankDocument) Scenario.skyQuestion]
  /\ fst run
     = Normal
         (mkResponse 200
            (BatchBody (utf16 "blank.txt")
               [ ItemSuccess Scenario.skyQuestion (JStr (utf16 "Blue"))
                   (JNum (mkNum false 95 (-2))) ]))
  /\ calls (snd (postBatch
                   (Scenario.worldWith (fun _ _ => Text Scenario.blueReply)
                      (mkDocument "65f0c0ffee" "spaces.txt" "   "))
                   (Some (utf16 "65f0c0ffee")) (Some [Scenario.skyQuestion])
                   Scenario.initial))
     = [buildPrompt (utf16 "   ") Scenario.skyQuestion].
Proof. vm_compute. repeat split; reflexivity. Qed.

(* ================================================================== *)
(** * What the batch handler sends to the provider *)
(* ================================================================== *)

Section TraceFacts.

Variable w : World.

(** The retry loop sends the prompt, between once and [retries] times, and
    nothing else. *)
Lemma retryLoop_trace (prompt : jsstring) (retries : nat) (st : State) :
  exists k,
    k <= retries
    /\ (1 <= retries -> 1 <= k)
    /\ calls (snd (retryLoop w prompt retries st)) = calls st ++ repeat prompt k
    /\ model (snd (retryLoop w prompt retries st)) = model st
    /\ saved (snd (retryLoop w prompt retries st)) = saved st.
Proof.
  revert st. induction retries as [|remaining IH]; intros st.
  - exists 0. cbn [retryLoop ret snd repeat]. rewrite app_nil_r.
    repeat split; lia.
  - rewrite retryLoop_step.
    destruct (generateContent w (List.length (calls st)) prompt) as [t|e].
    + exists 1. cbn [snd afterCall calls model saved repeat].
      repeat split; lia.
    + destruct (includes (message e) "overloaded" && (1 <? S remaining)%nat).
      * destruct (IH (afterSleep 2000 (afterCall w prompt st)))
          as [k [Hk [_ [Hcalls [Hmodel Hsaved]]]]].
        exists (S k). rewrite Hcalls, Hmodel, Hsaved.
        cbn [afterSleep afterCall calls model saved repeat].
        rewrite <- app_assoc. repeat split; lia.
      * exists 1. cbn [snd afterCall calls model saved repeat].
        repeat split; lia.
Qed.

(** The service, once the provider can be reached, sends the prompt of the
    question at least once, and leaves [model] set. *)
Lemma processQuery_trace (documentText userQuery : jsstring) (st : State) :
  ready w st ->
  exists k,
    1 <= k <= 3
    /\ calls (snd (processQueryWithGemini w documentText userQuery st))
       = calls st ++ repeat (buildPrompt documentText userQuery) k
    /\ model (snd (processQueryWithGemini w documentText userQuery st)) = true
    /\ saved (snd (processQueryWithGemini w documentText userQuery st))
       = saved st.
Proof.
  intros Hready.
  assert (Hstate :
    snd (processQueryWithGemini w documentText userQuery st)
    = snd (retryLoop w (buildPrompt documentText userQuery) 3 (withModel st))).
  { rewrite processQuery_ready by exact Hready. cbv zeta.
    destruct (retryLoop w (buildPrompt documentText userQuery) 3 (withModel st))
      as [[[t|]|e] st1]; cbn [snd].
    - destruct (parseResponse t); [reflexivity | apply handleError_state].
    - reflexivity.
    - apply handleError_state. }
  rewrite Hstate.
  destruct (retryLoop_trace (buildPrompt documentText userQuery) 3 (withModel st))
    as [k [Hk [Hk1 [Hcalls [Hmodel Hsaved]]]]].
  exists k. rewrite Hcalls, Hmodel, Hsaved.
  repeat split; try reflexivity; lia.
Qed.

Lemma save_trace (q : QueryRecord) (st : State) :
  calls (snd (save w q st)) = calls st
  /\ model (snd (save w q st)) = model st.
Proof.
  unfold save.
  destruct (validateQuery q); [split; reflexivity|].
  destruct (insertQuery w (List.length (saved st)) q); split; reflexivity.
Qed.

Variable document : Document.

Lemma itemOf_trace (query : jsstring) (st : State) :
  ready w st ->
  exists k,
    1 <= k
    /\ calls (snd (itemOf w document query st))
       = calls st ++ repeat (buildPrompt (extractedText document) query) k
    /\ model (snd (itemOf w document query st)) = true.
Proof.
  intros Hready.
  destruct (processQuery_trace (extractedText document) query st Hready)
    as [k [Hk [Hcalls [Hmodel _]]]].
  exists k. split; [lia|].
  unfold itemOf, answerAndSave, bind, ret.
  destruct (processQueryWithGemini w (extractedText document) query st)
    as [[aiResponse|e] st1]; cbn [snd] in *; [|split; assumption].
  match goal with |- context [save w ?q st1] =>
    destruct (save_trace q st1) as [Hc Hm];
    destruct (save w q st1) as [[[]|e] st2]
  end; cbn [snd] in *; rewrite Hc, Hm; split; assumption.
Qed.

(** Every question of the batch is forwarded: its prompt is among the
    requests made when the batch ends. *)
Lemma isolatedBatch_forwards (queries : list jsstring) (st : State) :
  ready w st ->
  (exists more, calls (snd (isolatedBatch w document queries st))
                = calls st ++ more)
  /\ (forall query,
        In query queries ->
        In (buildPrompt (extractedText document) query)
           (calls (snd (isolatedBatch w document queries st)))).
Proof.
  revert st. induction queries as [|query rest IH]; intros st Hready;
    cbn [isolatedBatch].
  - split; [exists []; cbn [snd]; now rewrite app_nil_r | intros ? []].
  - destruct (itemOf_trace query st Hready) as [k [Hk [Hcalls Hmodel]]].
    destruct (itemOf w document query st) as [item st1]. cbn [snd] in *.
    destruct (IH st1 (or_introl Hmodel)) as [[more Hmore] Hin].
    destruct (isolatedBatch w document rest st1) as [items st2].
    cbn [snd] in *. split.
    + exists (repeat (buildPrompt (extractedText document) query) k ++ more).
      rewrite Hmore, Hcalls, <- app_assoc. reflexivity.
    + intros q [<- | Hq]; [|apply Hin; exact Hq].
      rewrite Hmore, Hcalls. apply in_or_app. left. apply in_or_app. right.
      destruct k as [|k]; [lia|]. left. reflexivity.
Qed.

(** The entry of the empty question is a failure: when the service
    answers, the record has an empty [queryText] and is not valid. *)
Lemma itemOf_empty_question (st : State) :
  itemSucceeded (fst (itemOf w document [] st)) = false.
Proof.
  unfold itemOf, answerAndSave, bind.
  destruct (processQueryWithGemini w (extractedText document) [] st)
    as [[aiResponse|e] st1]; [|reflexivity].
  unfold save, validateQuery. cbn [queryText isEmpty].
  destruct (response _) as [| | | |s| |]; try reflexivity.
  destruct (isEmpty s); reflexivity.
Qed.

Lemma isolatedBatch_items (queries : list jsstring) (st : State)
    (item : BatchItem) :
  In item (fst (isolatedBatch w document queries st)) ->
  exists query st0,
    In query queries /\ item = fst (itemOf w document query st0).
Proof.
  revert st. induction queries as [|query rest IH]; intros st;
    cbn [isolatedBatch]; [intros []|].
  destruct (itemOf w document query st) as [first st1] eqn:Hfirst.
  specialize (IH st1).
  destruct (isolatedBatch w document rest st1) as [items st2].
  cbn [fst] in *. intros [<- | Hin].
  - exists query, st. rewrite Hfirst. split; [left|]; reflexivity.
  - destruct (IH Hin) as [q [st0 [Hq Hitem]]].
    exists q, st0. split; [right; exact Hq | exact Hitem].
Qed.

End TraceFacts.

Lemma parseResponse_blueReply :
  parseResponse Scenario.blueReply
  = Normal (mkAnswer (JStr (utf16 "Blue")) (JBool true)
              (JNum (mkNum false 95 (-2))) (JStr (utf16 "stated directly"))).
Proof. vm_compute. reflexivity. Qed.

(** A question that is not empty, however short, is answered and stored
    when the model answers and the collection accepts the record. *)
Lemma nonempty_question_can_succeed (query : jsstring) :
  query <> [] ->
  exists st' : State,
    postBatch (Scenario.answering Scenario.blueReply)
      (Some (doc_id Scenario.skyDocument)) (Some [query]) Scenario.initial
    = (Normal
         (mkResponse 200
            (BatchBody (utf16 "sky.txt")
               [ ItemSuccess query (JStr (utf16 "Blue"))
                   (JNum (mkNum false 95 (-2))) ])),
       st').
Proof.
  intros Hne.
  rewrite (postBatch_valid (Scenario.answering Scenario.blueReply)
             Scenario.skyDocument);
    [| reflexivity | reflexivity | cbn [List.length]; lia].
  cbn [isolatedBatch]. unfold itemOf, answerAndSave. unfold bind at 1.
  rewrite (processQuery_answered (Scenario.answering Scenario.blueReply)
             (buildPrompt (extractedText Scenario.skyDocument) query)
             (extractedText Scenario.skyDocument) query Scenario.initial 0
             Scenario.blueReply);
    [| reflexivity | right; reflexivity | lia | intros j Hj; lia | reflexivity].
  cbv zeta. rewrite parseResponse_blueReply.
  unfold bind, save, validateQuery.
  cbn [queryText response withMetrics answer ans_answer].
  destruct query as [|c query]; [contradiction|].
  cbn [isEmpty]. change (isEmpty (utf16 "Blue")) with false. cbv iota.
  cbn [Scenario.answering Scenario.worldWith insertQuery ret fst snd
       aiConfidence ans_confidence answer].
  eexists. reflexivity.
Qed.

(** C10, as amended.  In a batch of 1 to 10 questions on a document that
    is found, with the provider reachable, every question is forwarded to
    the provider, the empty one and the short ones too: the handler answers
    with status 200, one entry per question, and the prompt of every
    question is among the requests made.  The entry of an empty question
    is a failure, since the query record requires a [queryText].  Every
    question that is not empty, however short, gets a success entry in
    some world. *)
Theorem batch_forwards_every_question :
  (forall (w : World) (st : State) (documentId : jsstring)
          (document : Document) (queries : list jsstring),
      isEmpty documentId = false ->
      findById w documentId = Found document ->
      1 <= List.length queries <= 10 ->
      ready w st ->
      exists (results : list BatchItem) (st' : State),
        postBatch w (Some documentId) (Some queries) st
        = (Normal (mkResponse 200 (BatchBody (originalName document) results)),
           st')
        /\ map itemQuery results = queries
        /\ (forall query,
              In query queries ->
              In (buildPrompt (extractedText document) query) (calls st'))
        /\ (forall item,
              In item results ->
              itemQuery item = [] ->
              itemSucceeded item = false))
  /\ (forall query : jsstring,
        query <> [] ->
        exists (w : World) (documentId : jsstring) (st st' : State)
               (name : jsstring) (answer confidence : JsValue),
          postBatch w (Some documentId) (Some [query]) st
          = (Normal
               (mkResponse 200
                  (BatchBody name [ItemSuccess query answer confidence])),
             st')).
Proof.
  split.
  - intros w st documentId document queries Hid Hfound Hlen Hready.
    exists (fst (isolatedBatch w document queries st)),
           (snd (isolatedBatch w document queries st)).
    split; [apply postBatch_valid; assumption|].
    split; [apply isolatedBatch_queries|].
    split; [apply isolatedBatch_forwards; exact Hready|].
    intros item Hin Hempty.
    destruct (isolatedBatch_items w document queries st item Hin)
      as [query [st0 [_ ->]]].
    rewrite itemOf_query in Hempty. subst query.
    apply itemOf_empty_question.
  - intros query Hne.
    destruct (nonempty_question_can_succeed query Hne) as [st' Hrun].
    do 7 eexists. exact Hrun.
Qed.

Lemma batch_forwards_every_question_witness :
  (exists st' : State,
     postBatch (Scenario.answering Scenario.blueReply)
       (Some (doc_id Scenario.skyDocument))
       (Some [utf16 ""; utf16 "hi"]) Scenario.initial
     = (Normal
          (mkResponse 200
             (BatchBody (utf16 "sky.txt")
                [ ItemFailure (utf16 "")
                    (utf16 "Query validation failed: queryText: Path `queryText` is required.");
                  ItemSuccess (utf16 "hi") (JStr (utf16 "Blue"))
                    (JNum (mkNum false 95 (-2))) ])),
        st')
     /\ In (buildPrompt (extractedText Scenario.skyDocument) (utf16 ""))
          (calls st')
     /\ In (buildPrompt (extractedText Scenario.skyDocument) (utf16 "hi"))
          (calls st'))
  /\ (exists (w : World) (documentId : jsstring) (st st' : State)
             (name : jsstring) (answer confidence : JsValue),
        postBatch w (Some documentId) (Some [utf16 "?"]) st
        = (Normal
             (mkResponse 200
                (BatchBody name [ItemSuccess (utf16 "?") answer confidence])),
           st')).
Proof.
  destruct batch_forwards_every_question as [Hforward Hcan].
  split.
  - destruct (Hforward (Scenario.answering Scenario.blueReply) Scenario.initial
                (doc_id Scenario.skyDocument) Scenario.skyDocument
                [utf16 ""; utf16 "hi"])
      as [results [st' [Hrun [_ [Hin _]]]]].
    + reflexivity.
    + reflexivity.
    + cbn [List.length]. lia.
    + right. reflexivity.
    + exists st'. split; [|split].
      * rewrite Hrun. revert Hrun. vm_compute. intros [= <- _]. reflexivity.
      * apply Hin. left. reflexivity.
      * apply Hin. right. left. reflexivity.
  - apply Hcan. vm_compute. discriminate.
Defined.

(** C10 as the specification states it fails on the empty question: in no
    world does the batch of the empty question alone answer with a
    success entry. *)
Lemma empty_question_never_succeeds :
  ~ exists (w : World) (st st' : State) (name : jsstring)
           (answer confidence : JsValue),
      postBatch w (Some (doc_id Scenario.skyDocument)) (Some [utf16 ""]) st
      = (Normal
           (mkResponse 200
              (BatchBody name [ItemSuccess (utf16 "") answer confidence])),
         st').
Proof.
  intros [w [st [st' [name [answer [confidence Hrun]]]]]].
  destruct (findById w (doc_id Scenario.skyDocument)) as [document| |e] eqn:Hfound.
  - rewrite (postBatch_valid w document) in Hrun;
      [| reflexivity | exact Hfound | cbn [List.length]; lia].
    change (utf16 "") with (@nil N) in Hrun.
    cbn [isolatedBatch] in Hrun.
    pose proof (itemOf_empty_question w document st) as Hfail.
    destruct (itemOf w document [] st) as [item st1].
    cbn [fst snd] in *. injection Hrun as _ Hitem _. subst item.
    discriminate Hfail.
  - unfold postBatch, tryCatch in Hrun.
    change (isEmpty (doc_id Scenario.skyDocument)) with false in Hrun.
    cbv iota in Hrun. cbn [List.length Nat.eqb Nat.ltb Nat.leb orb] in Hrun.
    unfold bind, Document_findById in Hrun. rewrite Hfound in Hrun.
    unfold ret in Hrun. discriminate Hrun.
  - unfold postBatch, tryCatch in Hrun.
    change (isEmpty (doc_id Scenario.skyDocument)) with false in Hrun.
    cbv iota in Hrun. cbn [List.length Nat.eqb Nat.ltb Nat.leb orb] in Hrun.
    unfold bind, Document_findById in Hrun. rewrite Hfound in Hrun.
    unfold ret in Hrun. discriminate Hrun.
Qed.

(* ================================================================== *)
(** * The scenarios of the specification *)
(* ================================================================== *)

(** The document says that the sky is blue and the model answers with the
    structured object: the reply carries its answer and its confidence. *)
Example sky_is_blue :
  exists (reply : QueryReply) (st' : State),
    postQuery (Scenario.answering Scenario.blueReply)
      (Some (doc_id Scenario.skyDocument)) (Some Scenario.skyQuestion)
      Scenario.initial
    = (Normal (mkResponse 200 (QueryBody reply)), st')
    /\ replyAnswer reply = JStr (utf16 "Blue")
    /\ replyConfidence reply = JNum (mkNum false 95 (-2))
    /\ replyProcessingTime reply = 120%Z
    /\ List.length (saved st') = 1.
Proof. do 2 eexists. vm_compute. repeat split; reflexivity. Qed.

(** The model answers with a sentence: the parser falls back on the text
    itself. *)
Example sentence_is_not_json :
  parseResponse "I think it's blue."
  = Normal (notJsonAnswer "I think it's blue.").
Proof. vm_compute. reflexivity. Qed.

(** Markdown fences around the object are removed before it is decoded. *)
Example fenced_reply_is_decoded :
  parseResponse ("```json" +++ nl +++ Scenario.blueReply +++ nl +++ "```")
  = parseResponse Scenario.blueReply.
Proof. vm_compute. reflexivity. Qed.

(** The provider is overloaded twice and then answers: the third attempt
    is the one that counts, after two backoffs. *)
Example third_attempt_answers :
  let w :=
    Scenario.worldWith
      (fun n _ =>
         match n with
         | 2 => Text Scenario.blueReply
         | _ => Rejects (mkError Scenario.overloadedDetail)
         end)
      Scenario.skyDocument in
  let run :=
    processQueryWithGemini w (extractedText Scenario.skyDocument)
      Scenario.skyQuestion Scenario.initial in
  (exists r, fst run = Normal r
             /\ answer r = JStr (utf16 "Blue")
             /\ aiProcessingTime r = 4360%Z)
  /\ timers (snd run) = [2000; 2000]%Z
  /\ List.length (calls (snd run)) = 3.
Proof. vm_compute. split; [eexists|]; repeat split; reflexivity. Qed.

(** [JSON.parse] on a few texts. *)
Example parse_null : Json.parse "null" = Some JNull.
Proof. vm_compute. reflexivity. Qed.

Example parse_nested :
  Json.parse (" { " +++ quoted "a" +++ " : [ 1 , [ -2.50e1 , { } ] , true ] } ")
  = Some (JObj [ (utf16 "a",
                  JArr [ JNum (mkNum false 1 0);
                         JArr [ JNum (mkNum true 250 (-1)); JObj [] ];
                         JBool true ]) ]).
Proof. vm_compute. reflexivity. Qed.

Example parse_later_member_wins :
  match Json.parse ("{" +++ quoted "a" +++ ":1," +++ quoted "a" +++ ":2}") with
  | Some v => getMember v "a"
  | None => JUndefined
  end
  = JNum (mkNum false 2 0).
Proof. vm_compute. reflexivity. Qed.

Example parse_rejects :
  map Json.parse
    [ utf16 ""; utf16 "01"; utf16 "1."; utf16 "[1,]"; utf16 "nul";
      utf16 "{a:1}"; utf16 "null null" ]
  = [ None; None; None; None; None; None; None ].
Proof. vm_compute. reflexivity. Qed.

(** A number too small for a double is zero, hence falsy. *)
Example underflow_is_falsy :
  option_map truthy (Json.parse "1e-400") = Some false
  /\ option_map truthy (Json.parse "5e-324") = Some true.
Proof. vm_compute. split; reflexivity. Qed.

(* ================================================================== *)
(** * More facts about the runtime *)
(* ================================================================== *)

Lemma startsWith_app_l (s t p : jsstring) :
  startsWith s p = true -> startsWith (s +++ t) p = true.
Proof.
  unfold cat. revert s. induction p as [|a p IH]; intros s; [reflexivity|].
  destruct s as [|b s]; cbn [startsWith app]; [discriminate|].
  intros H. apply andb_true_iff in H. destruct H as [Hab Hrest].
  rewrite Hab. cbn [andb]. apply IH. exact Hrest.
Qed.

Lemma includes_app_l (s t sub : jsstring) :
  includes s sub = true -> includes (s +++ t) sub = true.
Proof.
  unfold cat. induction s as [|c s IH]; cbn [includes app].
  - rewrite orb_false_r. intros H.
    destruct sub as [|a sub]; [|discriminate H].
    destruct t; reflexivity.
  - intros H. apply orb_true_iff in H. destruct H as [H|H].
    + generalize (startsWith_app_l (c :: s) t sub H). unfold cat.
      cbn [app]. intros ->. reflexivity.
    + rewrite (IH H). apply orb_true_r.
Qed.

Lemma includes_app_r (pre s sub : jsstring) :
  includes s sub = true -> includes (pre +++ s) sub = true.
Proof.
  unfold cat. intros H. induction pre as [|c pre IH]; cbn [app]; [exact H|].
  cbn [includes]. rewrite IH. apply orb_true_r.
Qed.

Lemma includes_middle (pre s post : jsstring) :
  includes (pre +++ s +++ post) s = true.
Proof.
  apply includes_app_r. apply includes_app_l.
  generalize (includes_suffix [] s). unfold cat. cbn [app]. intros H; exact H.
Qed.

Lemma length_cat (a b : jsstring) :
  List.length (a +++ b) = List.length a + List.length b.
Proof. unfold cat. apply length_app. Qed.

(* ================================================================== *)
(** * More facts about the service *)
(* ================================================================== *)

Lemma fatalMessage_mentions_Gemini (msg : jsstring) :
  includes (fatalMessage msg) "Gemini" = true.
Proof.
  unfold fatalMessage.
  destruct (classify msg); try (vm_compute; reflexivity);
    apply includes_app_l; vm_compute; reflexivity.
Qed.

(** What the outer [catch] throws is the fatal message of what it
    caught. *)
Lemma handleError_throws (userQuery : jsstring) (cause e : Error) (st st' : State) :
  handleError userQuery cause st = (Throw e, st') ->
  e = mkError (fatalMessage (message cause)) /\ st' = st.
Proof.
  unfold handleError, fatalMessage, classify.
  destruct (includes (message cause) "API_KEY");
    [intros [= <- <-]; split; reflexivity|].
  destruct (includes (message cause) "quota");
    [intros [= <- <-]; split; reflexivity|].
  destruct (includes (message cause) "SAFETY");
    [intros [= <- <-]; split; reflexivity|].
  destruct (includes (message cause) "overloaded");
    [discriminate | intros [= <- <-]; split; reflexivity].
Qed.

Section EffortFacts.

Variable w : World.

(** The retry loop in full: the requests, the timers between them, and
    nothing else. *)
Lemma retryLoop_effort (prompt : jsstring) (retries : nat) (st : State) :
  exists k,
    k <= retries
    /\ (1 <= retries -> 1 <= k)
    /\ calls (snd (retryLoop w prompt retries st)) = calls st ++ repeat prompt k
    /\ timers (snd (retryLoop w prompt retries st))
       = timers st ++ repeat 2000%Z (k - 1)
    /\ saved (snd (retryLoop w prompt retries st)) = saved st.
Proof.
  revert st. induction retries as [|remaining IH]; intros st.
  - exists 0. cbn [retryLoop ret snd repeat Nat.sub]. rewrite !app_nil_r.
    repeat split; lia.
  - rewrite retryLoop_step.
    destruct (generateContent w (List.length (calls st)) prompt) as [t|e].
    + exists 1. cbn [snd afterCall calls timers saved repeat Nat.sub].
      rewrite app_nil_r. repeat split; lia.
    + destruct (includes (message e) "overloaded" && (1 <? S remaining)%nat)
        eqn:Hretry.
      * apply andb_true_iff in Hretry. destruct Hretry as [_ Hleft].
        apply Nat.ltb_lt in Hleft.
        destruct (IH (afterSleep 2000 (afterCall w prompt st)))
          as [k [Hk [Hk1 [Hcalls [Htimers Hsaved]]]]].
        exists (S k). rewrite Hcalls, Htimers, Hsaved.
        cbn [afterSleep afterCall calls timers saved repeat].
        rewrite <- !app_assoc.
        assert (1 <= k) by (apply Hk1; lia).
        replace (S k - 1) with (S (k - 1)) by lia.
        cbn [repeat app]. repeat split; lia.
      * exists 1. cbn [snd afterCall calls timers saved repeat Nat.sub].
        rewrite app_nil_r. repeat split; lia.
Qed.

Lemma processQuery_state (documentText userQuery : jsstring) (st : State) :
  ready w st ->
  snd (processQueryWithGemini w documentText userQuery st)
  = snd (retryLoop w (buildPrompt documentText userQuery) 3 (withModel st)).
Proof.
  intros Hready. rewrite processQuery_ready by exact Hready. cbv zeta.
  destruct (retryLoop w (buildPrompt documentText userQuery) 3 (withModel st))
    as [[[t|]|e] st1]; cbn [snd].
  - destruct (parseResponse t); [reflexivity | apply handleError_state].
  - reflexivity.
  - apply handleError_state.
Qed.

Lemma ready_or_not (st : State) :
  ready w st \/ (model st = false /\ GEMINI_API_KEY w = false).
Proof.
  unfold ready. destruct (model st); [left; left; reflexivity|].
  destruct (GEMINI_API_KEY w); [left; right; reflexivity | right; split; reflexivity].
Qed.

Lemma processQuery_effort (documentText userQuery : jsstring) (st : State) :
  exists k,
    k <= 3
    /\ calls (snd (processQueryWithGemini w documentText userQuery st))
       = calls st ++ repeat (buildPrompt documentText userQuery) k
    /\ timers (snd (processQueryWithGemini w documentText userQuery st))
       = timers st ++ repeat 2000%Z (k - 1)
    /\ saved (snd (processQueryWithGemini w documentText userQuery st))
       = saved st.
Proof.
  destruct (ready_or_not st) as [Hready | [Hm Hk]].
  - rewrite processQuery_state by exact Hready.
    destruct (retryLoop_effort (buildPrompt documentText userQuery) 3
                (withModel st)) as [k [Hk [_ [Hcalls [Htimers Hsaved]]]]].
    exists k. rewrite Hcalls, Htimers, Hsaved. repeat split; lia.
  - rewrite processQuery_not_ready by assumption.
    exists 0. cbn [snd repeat Nat.sub]. rewrite !app_nil_r.
    repeat split; lia.
Qed.

Lemma processQuery_throws (documentText userQuery : jsstring)
    (st st' : State) (e : Error) :
  processQueryWithGemini w documentText userQuery st = (Throw e, st') ->
  exists cause, e = mkError (fatalMessage (message cause)).
Proof.
  unfold processQueryWithGemini, tryCatch.
  match goal with |- context [match ?body st with _ => _ end] =>
    destruct (body st) as [[r|cause] st1] end.
  - discriminate.
  - intros H. apply handleError_throws in H. destruct H as [-> _].
    exists cause. reflexivity.
Qed.

End EffortFacts.

(* ================================================================== *)
(** * Further properties of the service *)
(* ================================================================== *)

Lemma buildPrompt_length (documentText userQuery : jsstring) :
  List.length (buildPrompt documentText userQuery)
  = 207 + Nat.min 2000 (List.length documentText)
    + (if (2000 <? List.length documentText)%nat then 3 else 0)
    + List.length userQuery.
Proof.
  unfold buildPrompt, quoted, substring0.
  rewrite !length_cat, length_firstn.
  repeat match goal with
         | |- context [List.length (utf16 ?s)] =>
             let n := eval vm_compute in (List.length (utf16 s)) in
             change (List.length (utf16 s)) with n
         end.
  change (List.length quot) with 1. change (List.length nl) with 1.
  destruct (2000 <? List.length documentText)%nat;
    [change (List.length (utf16 "...")) with 3
    | change (List.length (utf16 "")) with 0]; lia.
Qed.

(** X1.  The prompt holds the question in full and at most 2000 code
    units of the document: its length is 207 code units of template, the
    excerpt, 3 more for the ellipsis when the document is cut, and the
    question. *)
Theorem prompt_holds_question_and_bounded_excerpt :
  forall documentText userQuery : jsstring,
    includes (buildPrompt documentText userQuery) userQuery = true
    /\ List.length (buildPrompt documentText userQuery)
       = 207 + Nat.min 2000 (List.length documentText)
         + (if (2000 <? List.length documentText)%nat then 3 else 0)
         + List.length userQuery
    /\ List.length (buildPrompt documentText userQuery)
       <= 2210 + List.length userQuery.
Proof.
  intros documentText userQuery. split; [|split].
  - unfold buildPrompt. do 6 apply includes_app_r. apply includes_app_l.
    generalize (includes_suffix [] userQuery). unfold cat. cbn [app].
    intros H; exact H.
  - apply buildPrompt_length.
  - rewrite buildPrompt_length.
    destruct (2000 <? List.length documentText)%nat; lia.
Qed.

Lemma substring0_excerpt (excerpt rest : jsstring) :
  List.length excerpt = 2000 ->
  substring0 (excerpt ++ rest) 2000 = excerpt.
Proof.
  intros Hlen. unfold substring0. rewrite <- Hlen.
  rewrite firstn_app, Nat.sub_diag, firstn_O, firstn_all. apply app_nil_r.
Qed.

Lemma buildPrompt_long (excerpt rest userQuery : jsstring) :
  List.length excerpt = 2000 ->
  rest <> [] ->
  buildPrompt (excerpt ++ rest) userQuery
  = buildPrompt (excerpt ++ [0%N]) userQuery.
Proof.
  intros Hlen Hrest. unfold buildPrompt.
  rewrite !substring0_excerpt by exact Hlen.
  rewrite !length_app, Hlen.
  replace (2000 <? 2000 + List.length rest)%nat with true
    by (symmetry; apply Nat.ltb_lt; destruct rest;
        [contradiction | cbn [List.length]; lia]).
  replace (2000 <? 2000 + List.length [0%N])%nat with true
    by (symmetry; apply Nat.ltb_lt; cbn [List.length]; lia).
  reflexivity.
Qed.

(** X2.  What follows the first 2000 code units of a document has no part
    in the answer: two documents with the same first 2000 code units, both
    longer, are queried with the same prompt and get the same outcome in
    the same world and state. *)
Theorem only_the_first_2000_units_are_read :
  forall (w : World) (excerpt rest1 rest2 userQuery : jsstring) (st : State),
    List.length excerpt = 2000 ->
    rest1 <> [] ->
    rest2 <> [] ->
    buildPrompt (excerpt ++ rest1) userQuery
    = buildPrompt (excerpt ++ rest2) userQuery
    /\ processQueryWithGemini w (excerpt ++ rest1) userQuery st
       = processQueryWithGemini w (excerpt ++ rest2) userQuery st.
Proof.
  intros w excerpt rest1 rest2 userQuery st Hlen H1 H2.
  assert (Hprompt : buildPrompt (excerpt ++ rest1) userQuery
                    = buildPrompt (excerpt ++ rest2) userQuery).
  { rewrite (buildPrompt_long excerpt rest1) by assumption.
    rewrite (buildPrompt_long excerpt rest2) by assumption. reflexivity. }
  split; [exact Hprompt|].
  unfold processQueryWithGemini. rewrite Hprompt. reflexivity.
Qed.

Lemma only_the_first_2000_units_are_read_witness :
  processQueryWithGemini (Scenario.answering Scenario.blueReply)
    (repeat 97%N 2000 ++ utf16 " The sky is blue.") Scenario.skyQuestion
    Scenario.initial
  = processQueryWithGemini (Scenario.answering Scenario.blueReply)
      (repeat 97%N 2000 ++ utf16 " The sky is green.") Scenario.skyQuestion
      Scenario.initial.
Proof.
  apply (only_the_first_2000_units_are_read
           (Scenario.answering Scenario.blueReply) (repeat 97%N 2000)).
  - apply repeat_length.
  - discriminate.
  - discriminate.
Defined.


(** X4.  After [k] attempts rejected for overload ([k] is 0, 1 or 2), the
    answer of the next attempt is the one returned: the prompt has been
    sent [k + 1] times, [k] timers of 2000 ms have been awaited, and the
    processing time reported is the time that has passed on the clock
    since the invocation began, retries and backoffs included. *)
Theorem answer_after_overload_reports_elapsed_time :
  forall (w : World) (documentText userQuery : jsstring) (st : State)
         (k : nat) (responseText : jsstring) (a : Answer),
    ready w st ->
    k < 3 ->
    (forall j, j < k ->
       overloadedAt w (buildPrompt documentText userQuery) st j) ->
    generateContent w (List.length (calls st) + k)
      (buildPrompt documentText userQuery) = Text responseText ->
    parseResponse responseText = Normal a ->
    exists st' : State,
      processQueryWithGemini w documentText userQuery st
      = (Normal (withMetrics a (now st' - now st)
                   (estimateTokens
                      (buildPrompt documentText userQuery +++ responseText))),
         st')
      /\ calls st'
         = calls st ++ repeat (buildPrompt documentText userQuery) (S k)
      /\ timers st' = timers st ++ repeat 2000%Z k.
Proof.
  intros w documentText userQuery st k responseText a Hready Hk Hover Htext
         Hparse.
  eexists. split.
  - rewrite (processQuery_answered w (buildPrompt documentText userQuery)
               documentText userQuery st k responseText); auto.
    cbv zeta. rewrite Hparse. reflexivity.
  - split.
    + cbn [afterCall calls]. rewrite afterRetries_calls.
      apply calls_repeat_snoc.
    + cbn [afterCall timers]. rewrite afterRetries_timers. reflexivity.
Qed.

Lemma answer_after_overload_reports_elapsed_time_witness :
  exists (r : AiResponse) (st' : State),
    processQueryWithGemini
      (Scenario.worldWith
         (fun n _ =>
            match n with
            | 2 => Text Scenario.blueReply
            | _ => Rejects (mkError Scenario.overloadedDetail)
            end)
         Scenario.skyDocument)
      (extractedText Scenario.skyDocument) Scenario.skyQuestion Scenario.initial
    = (Normal r, st')
    /\ aiProcessingTime r = (now st' - now Scenario.initial)%Z
    /\ timers st' = [2000; 2000]%Z.
Proof.
  destruct (answer_after_overload_reports_elapsed_time
              (Scenario.worldWith
                 (fun n _ =>
                    match n with
                    | 2 => Text Scenario.blueReply
                    | _ => Rejects (mkError Scenario.overloadedDetail)
                    end)
                 Scenario.skyDocument)
              (extractedText Scenario.skyDocument) Scenario.skyQuestion
              Scenario.initial 2 Scenario.blueReply
              (mkAnswer (JStr (utf16 "Blue")) (JBool true)
                 (JNum (mkNum false 95 (-2))) (JStr (utf16 "stated directly"))))
    as [st' [Hrun [Hcalls Htimers]]].
  - right. reflexivity.
  - lia.
  - intros j Hj. exists (mkError Scenario.overloadedDetail).
    split; [|vm_compute; reflexivity].
    destruct j as [|[|j]]; [reflexivity | reflexivity | lia].
  - reflexivity.
  - vm_compute. reflexivity.
  - eexists; exists st'. split; [exact Hrun|].
    split; [reflexivity | exact Htimers].
Defined.

(** X5.  Whatever the provider does, one invocation of the service sends
    the same prompt at most three times, awaits a timer of 2000 ms between
    two requests and no other, and saves no record. *)
Theorem service_effort_is_bounded :
  forall (w : World) (documentText userQuery : jsstring) (st : State),
    exists k : nat,
      k <= 3
      /\ calls (snd (processQueryWithGemini w documentText userQuery st))
         = calls st ++ repeat (buildPrompt documentText userQuery) k
      /\ timers (snd (processQueryWithGemini w documentText userQuery st))
         = timers st ++ repeat 2000%Z (k - 1)
      /\ saved (snd (processQueryWithGemini w documentText userQuery st))
         = saved st.
Proof. intros. apply processQuery_effort. Qed.

Lemma validateGeminiKey_no_key (w : World) (st : State) :
  GEMINI_API_KEY w = false -> validateGeminiKey w st = (Normal false, st).
Proof.
  intros Hk. unfold validateGeminiKey, tryCatch. rewrite Hk. reflexivity.
Qed.

Lemma recommendations_no_key (w : World) (documentText : jsstring) (st : State) :
  model st = false -> GEMINI_API_KEY w = false ->
  generateRecommendedQuestions w documentText st = (Normal defaultQuestions, st).
Proof.
  intros Hm Hk. rewrite generateRecommendedQuestions_run. cbv zeta.
  unfold ensureModel, initializeGemini. rewrite Hm, Hk. reflexivity.
Qed.

(** X6.  When [model] is not set and the key is missing, nothing is sent
    to the provider and the state is kept: the service rejects with
    "Invalid Gemini API key", which hides the message of
    [initializeGemini]; the recommended questions are the three fixed
    ones; the validation of the key answers [false]. *)
Theorem without_the_key_nothing_is_sent :
  forall (w : World) (documentText userQuery : jsstring) (st : State),
    model st = false ->
    GEMINI_API_KEY w = false ->
    processQueryWithGemini w documentText userQuery st
    = (Throw (mkError "Invalid Gemini API key. Please check your configuration."),
       st)
    /\ generateRecommendedQuestions w documentText st
       = (Normal defaultQuestions, st)
    /\ validateGeminiKey w st = (Normal false, st).
Proof.
  intros w documentText userQuery st Hm Hk. split; [|split].
  - apply processQuery_not_ready; assumption.
  - apply recommendations_no_key; assumption.
  - apply validateGeminiKey_no_key; assumption.
Qed.

Lemma without_the_key_nothing_is_sent_witness :
  let w :=
    mkWorld false (fun _ _ => Text Scenario.blueReply) (fun _ => 120%Z)
      (fun _ => Found Scenario.skyDocument) (fun _ _ => None) in
  processQueryWithGemini w (extractedText Scenario.skyDocument)
    Scenario.skyQuestion Scenario.initial
  = (Throw (mkError "Invalid Gemini API key. Please check your configuration."),
     Scenario.initial)
  /\ generateRecommendedQuestions w (extractedText Scenario.skyDocument)
       Scenario.initial
     = (Normal defaultQuestions, Scenario.initial)
  /\ validateGeminiKey w Scenario.initial = (Normal false, Scenario.initial).
Proof.
  intros w. apply (without_the_key_nothing_is_sent w); reflexivity.
Defined.

(** X7.  Every error that the service throws carries one of its own four
    messages, the fatal message of what it caught, and each of them
    mentions "Gemini". *)
Theorem service_errors_mention_Gemini :
  forall (w : World) (documentText userQuery : jsstring) (st st' : State)
         (e : Error),
    processQueryWithGemini w documentText userQuery st = (Throw e, st') ->
    includes (message e) "Gemini" = true
    /\ exists cause : Error, message e = fatalMessage (message cause).
Proof.
  intros w documentText userQuery st st' e Hthrow.
  destruct (processQuery_throws w documentText userQuery st st' e Hthrow)
    as [cause ->].
  cbn [message]. split; [apply fatalMessage_mentions_Gemini|].
  exists cause. reflexivity.
Qed.

Lemma service_errors_mention_Gemini_witness :
  includes
    (utf16 "Gemini API quota exceeded. Please try again later.") "Gemini"
  = true
  /\ exists cause : Error,
       utf16 "Gemini API quota exceeded. Please try again later."
       = fatalMessage (message cause).
Proof.
  apply (service_errors_mention_Gemini
           (Scenario.worldWith
              (fun _ _ => Rejects (mkError "429 quota exceeded for this project"))
              Scenario.skyDocument)
           (extractedText Scenario.skyDocument) Scenario.skyQuestion
           Scenario.initial
           (afterCall
              (Scenario.worldWith
                 (fun _ _ => Rejects (mkError "429 quota exceeded for this project"))
                 Scenario.skyDocument)
              (buildPrompt (extractedText Scenario.skyDocument)
                 Scenario.skyQuestion)
              (withModel Scenario.initial))
           (mkError "Gemini API quota exceeded. Please try again later.")).
  vm_compute. reflexivity.
Defined.

(* ================================================================== *)
(** * Further properties of the query routes *)
(* ================================================================== *)

Section RouteFacts.

Variable w : World.

Lemma save_outcome (q : QueryRecord) (st : State) :
  (exists e, save w q st = (Throw e, st))
  \/ save w q st = (Normal tt, afterSave q st).
Proof.
  unfold save.
  destruct (validateQuery q); [left; eexists; reflexivity|].
  destruct (insertQuery w (List.length (saved st)) q);
    [left; eexists; reflexivity | right; reflexivity].
Qed.

(** [POST /api/query] for a well-formed request on a document that is
    found and has text. *)
Lemma postQuery_valid (st : State) (id query : jsstring) (document : Document) :
  isEmpty id = false ->
  isEmpty query = false ->
  3 <= List.length (trim query) ->
  findById w id = Found document ->
  trim (extractedText document) <> [] ->
  postQuery w (Some id) (Some query) st
  = match processQueryWithGemini w (extractedText document) query st with
    | (Throw e, st1) => (Normal (queryFailure e), st1)
    | (Normal aiResponse, st1) =>
        match save w (queryRecordOf document query aiResponse (now st1 - now st))
                st1 with
        | (Throw e, st2) => (Normal (queryFailure e), st2)
        | (Normal _, st2) =>
            (Normal (queryReplyOf document query aiResponse (now st1 - now st)),
             st2)
        end
    end.
Proof.
  intros Hid Hquery Hlen Hfound Htext.
  unfold postQuery, tryCatch. rewrite Hid, Hquery. cbn [orb].
  replace (List.length (trim query) <? 3)%nat with false
    by (symmetry; apply Nat.ltb_ge; exact Hlen).
  unfold bind at 1. unfold Document_findById. rewrite Hfound.
  assert (Hne : isEmpty (extractedText document) = false).
  { destruct (extractedText document); [contradiction Htext; reflexivity|].
    reflexivity. }
  rewrite Hne. cbn [orb].
  replace (List.length (trim (extractedText document)) =? 0)%nat with false
    by (symmetry; apply Nat.eqb_neq;
        destruct (trim (extractedText document));
        [contradiction | cbn [List.length]; lia]).
  unfold bind, Date_now. fold (queryRecordOf document query).
  destruct (processQueryWithGemini w (extractedText document) query st)
    as [[aiResponse|e] st1].
  - unfold queryRecordOf, queryReplyOf.
    destruct (save w _ st1) as [[[]|e] st2]; [reflexivity|].
    unfold queryFailure, ret.
    destruct (includes (message e) "Gemini"); reflexivity.
  - unfold queryFailure, ret.
    destruct (includes (message e) "Gemini"); reflexivity.
Qed.

Lemma queryFailure_status (e : Error) :
  status (queryFailure e) = 503 \/ status (queryFailure e) = 500.
Proof.
  unfold queryFailure.
  destruct (includes (message e) "Gemini"); [left | right]; reflexivity.
Qed.

(** [await queryRecord.save()] keeps the requests and the timers. *)
Lemma save_frame (q : QueryRecord) (st : State) :
  calls (snd (save w q st)) = calls st
  /\ timers (snd (save w q st)) = timers st
  /\ model (snd (save w q st)) = model st.
Proof.
  destruct (save_outcome q st) as [[e ->] | ->]; repeat split; reflexivity.
Qed.

Variable document : Document.

(** What one question of a batch adds to the state. *)
Lemma itemOf_effect (query : jsstring) (st : State) :
  exists (k : nat) (new : list QueryRecord),
    k <= 3
    /\ calls (snd (itemOf w document query st))
       = calls st ++ repeat (buildPrompt (extractedText document) query) k
    /\ timers (snd (itemOf w document query st))
       = timers st ++ repeat 2000%Z (k - 1)
    /\ saved (snd (itemOf w document query st)) = saved st ++ new
    /\ map queryText new
       = (if itemSucceeded (fst (itemOf w document query st)) then [query]
          else []).
Proof.
  destruct (processQuery_effort w (extractedText document) query st)
    as [k [Hk [Hcalls [Htimers Hsaved]]]].
  exists k.
  unfold itemOf, answerAndSave, bind, ret.
  destruct (processQueryWithGemini w (extractedText document) query st)
    as [[aiResponse|e] st1]; cbn [snd] in *.
  - match goal with |- context [save w ?q st1] =>
      destruct (save_outcome q st1) as [[e He] | Hok];
      [rewrite He | rewrite Hok]
    end; cbn [fst snd itemSucceeded].
    + exists []. rewrite app_nil_r. repeat split; assumption || lia.
    + eexists [_]. cbn [afterSave calls timers saved map queryText].
      rewrite Hsaved. repeat split; assumption || lia.
  - exists []. rewrite app_nil_r. cbn [fst itemSucceeded map].
    repeat split; assumption || lia.
Qed.

Lemma isolatedBatch_effect (queries : list jsstring) (st : State) :
  exists (sent : list jsstring) (waits : list Z) (new : list QueryRecord),
    calls (snd (isolatedBatch w document queries st)) = calls st ++ sent
    /\ List.length sent <= 3 * List.length queries
    /\ timers (snd (isolatedBatch w document queries st)) = timers st ++ waits
    /\ List.length waits <= 2 * List.length queries
    /\ Forall (fun ms => ms = 2000%Z) waits
    /\ saved (snd (isolatedBatch w document queries st)) = saved st ++ new
    /\ map queryText new
       = map itemQuery
           (filter itemSucceeded (fst (isolatedBatch w document queries st))).
Proof.
  revert st. induction queries as [|query rest IH]; intros st;
    cbn [isolatedBatch].
  - exists [], [], []. cbn [fst snd List.length]. rewrite !app_nil_r.
    repeat split; try reflexivity; try lia. constructor.
  - destruct (itemOf_effect query st)
      as [k [new1 [Hk [Hcalls [Htimers [Hsaved Hnew]]]]]].
    pose proof (itemOf_query w document query st) as Hq.
    destruct (itemOf w document query st) as [item st1]. cbn [fst snd] in *.
    destruct (IH st1)
      as [sent [waits [new2 [Hc [Hlc [Ht [Hlt [Hall [Hs Hn]]]]]]]]].
    destruct (isolatedBatch w document rest st1) as [items st2].
    cbn [fst snd] in *.
    exists (repeat (buildPrompt (extractedText document) query) k ++ sent),
           (repeat 2000%Z (k - 1) ++ waits), (new1 ++ new2).
    rewrite Hc, Hcalls, Ht, Htimers, Hs, Hsaved, <- !app_assoc.
    rewrite !length_app, !repeat_length, map_app, Hnew, Hn.
    cbn [List.length filter].
    repeat split; try reflexivity; try lia.
    + apply Forall_app. split; [|exact Hall].
      apply Forall_forall. intros ms Hin. apply repeat_spec in Hin. exact Hin.
    + destruct (itemSucceeded item); cbn [map app]; [rewrite Hq|]; reflexivity.
Qed.

(** Without the key every question fails in the same way and the state is
    kept. *)
Lemma isolatedBatch_no_key (queries : list jsstring) (st : State) :
  model st = false ->
  GEMINI_API_KEY w = false ->
  isolatedBatch w document queries st
  = (map (fun query =>
            ItemFailure query
              (utf16 "Invalid Gemini API key. Please check your configuration."))
       queries, st).
Proof.
  intros Hm Hk. induction queries as [|query rest IH];
    cbn [isolatedBatch map]; [reflexivity|].
  unfold itemOf, answerAndSave, bind.
  rewrite processQuery_not_ready by assumption.
  rewrite IH. reflexivity.
Qed.

End RouteFacts.

(** X8.  In [POST /api/query], an error thrown by the service is answered
    with status 503 and the message of the error, "AI service
    unavailable", never with 500; no record is saved. *)
Theorem service_failure_is_answered_503 :
  forall (w : World) (st st' : State) (id query : jsstring)
         (document : Document) (e : Error),
    isEmpty id = false ->
    isEmpty query = false ->
    3 <= List.length (trim query) ->
    findById w id = Found document ->
    trim (extractedText document) <> [] ->
    processQueryWithGemini w (extractedText document) query st = (Throw e, st') ->
    postQuery w (Some id) (Some query) st
    = (Normal
         (mkResponse 503
            (ErrorBody "AI service unavailable" (Some (message e)))),
       st')
    /\ saved st' = saved st.
Proof.
  intros w st st' id query document e Hid Hq Hlen Hfound Htext Hthrow.
  split.
  - rewrite (postQuery_valid w st id query document) by assumption.
    rewrite Hthrow. unfold queryFailure.
    destruct (processQuery_throws w _ _ _ _ _ Hthrow) as [cause ->].
    cbn [message]. rewrite fatalMessage_mentions_Gemini. reflexivity.
  - destruct (processQuery_effort w (extractedText document) query st)
      as [k [_ [_ [_ Hsaved]]]].
    rewrite Hthrow in Hsaved. exact Hsaved.
Qed.

Lemma service_failure_is_answered_503_witness :
  exists st' : State,
    postQuery Scenario.credentialsWorld (Some (doc_id Scenario.skyDocument))
      (Some Scenario.skyQuestion) Scenario.initial
    = (Normal
         (mkResponse 503
            (ErrorBody "AI service unavailable"
               (Some (utf16 "Invalid Gemini API key. Please check your configuration.")))),
       st')
    /\ saved st' = saved Scenario.initial.
Proof.
  eexists.
  apply (service_failure_is_answered_503 Scenario.credentialsWorld
           Scenario.initial _ (doc_id Scenario.skyDocument) Scenario.skyQuestion
           Scenario.skyDocument
           (mkError "Invalid Gemini API key. Please check your configuration."));
    first [ reflexivity | vm_compute; lia | vm_compute; discriminate
          | vm_compute; reflexivity ].
Defined.

(** X9.  [POST /api/query] always answers, with status 200, 400, 404, 500
    or 503.  It saves a record exactly when it answers 200: one record,
    with the question as its [queryText]; with any other status the saved
    records are the ones it found. *)
Theorem postQuery_saves_exactly_on_success :
  forall (w : World) (st : State) (documentId query : option jsstring),
    exists (resp : Response) (st' : State),
      postQuery w documentId query st = (Normal resp, st')
      /\ In (status resp) [200; 400; 404; 500; 503]
      /\ (status resp = 200 ->
          exists q : QueryRecord,
            saved st' = saved st ++ [q] /\ Some (queryText q) = query)
      /\ (status resp <> 200 -> saved st' = saved st).
Proof.
  intros w st documentId query.
  assert (H400 : forall error detail,
    exists (resp : Response) (st' : State),
      (Normal (mkResponse 400 (ErrorBody error detail)), st) = (Normal resp, st')
      /\ In (status resp) [200; 400; 404; 500; 503]
      /\ (status resp = 200 ->
          exists q : QueryRecord,
            saved st' = saved st ++ [q] /\ Some (queryText q) = query)
      /\ (status resp <> 200 -> saved st' = saved st)).
  { intros. do 2 eexists. split; [reflexivity|]. cbn [status].
    split; [right; left; reflexivity|]. split; [discriminate | reflexivity]. }
  destruct documentId as [id|]; [|apply H400].
  destruct query as [q|]; [|apply H400].
  destruct (isEmpty id) eqn:Hid;
    [unfold postQuery, tryCatch; rewrite Hid; apply H400|].
  destruct (isEmpty q) eqn:Hq;
    [unfold postQuery, tryCatch; rewrite Hid, Hq; apply H400|].
  destruct (List.length (trim q) <? 3)%nat eqn:Hlen;
    [unfold postQuery, tryCatch; rewrite Hid, Hq, Hlen; apply H400|].
  apply Nat.ltb_ge in Hlen.
  destruct (findById w id) as [document| |e] eqn:Hfound.
  - destruct (trim (extractedText document)) as [|c t] eqn:Htrim.
    { destruct (blank_document_single_query w st id q document Hfound Htrim)
        as [error [detail [Hrun _]]].
      rewrite Hrun. apply H400. }
    rewrite (postQuery_valid w st id q document); auto;
      [|rewrite Htrim; discriminate].
    destruct (processQuery_effort w (extractedText document) q st)
      as [k [_ [_ [_ Hsaved]]]].
    destruct (processQueryWithGemini w (extractedText document) q st)
      as [[aiResponse|e] st1]; cbn [snd] in Hsaved.
    + match goal with |- context [save w ?r st1] =>
        destruct (save_outcome w r st1) as [[e He] | Hok];
        [rewrite He | rewrite Hok]
      end.
      * do 2 eexists. split; [reflexivity|].
        destruct (queryFailure_status e) as [Hs | Hs]; rewrite Hs.
        -- split; [do 4 right; left; reflexivity|].
           split; [discriminate | intros _; exact Hsaved].
        -- split; [do 3 right; left; reflexivity|].
           split; [discriminate | intros _; exact Hsaved].
      * do 2 eexists. split; [reflexivity|]. cbn [queryReplyOf status].
        split; [left; reflexivity|]. split; [|intros H; contradiction H; reflexivity].
        intros _. eexists. cbn [afterSave saved]. rewrite Hsaved.
        split; reflexivity.
    + do 2 eexists. split; [reflexivity|].
      destruct (queryFailure_status e) as [Hs | Hs]; rewrite Hs.
      * split; [do 4 right; left; reflexivity|].
        split; [discriminate | intros _; exact Hsaved].
      * split; [do 3 right; left; reflexivity|].
        split; [discriminate | intros _; exact Hsaved].
  - unfold postQuery, tryCatch. rewrite Hid, Hq. cbn [orb].
    replace (List.length (trim q) <? 3)%nat with false
      by (symmetry; apply Nat.ltb_ge; exact Hlen).
    unfold bind at 1. unfold Document_findById. rewrite Hfound.
    do 2 eexists. split; [reflexivity|]. cbn [status].
    split; [do 2 right; left; reflexivity|].
    split; [discriminate | reflexivity].
  - unfold postQuery, tryCatch. rewrite Hid, Hq. cbn [orb].
    replace (List.length (trim q) <? 3)%nat with false
      by (symmetry; apply Nat.ltb_ge; exact Hlen).
    unfold bind at 1. unfold Document_findById. rewrite Hfound.
    fold (queryFailure e).
    assert (Hf : (if includes (message e) "Gemini"
                  then ret (mkResponse 503
                              (ErrorBody "AI service unavailable"
                                 (Some (message e))))
                  else ret (mkResponse 500
                              (ErrorBody "Query processing failed"
                                 (Some (message e))))) st
                 = (Normal (queryFailure e), st)).
    { unfold queryFailure, ret.
      destruct (includes (message e) "Gemini"); reflexivity. }
    rewrite Hf. do 2 eexists. split; [reflexivity|].
    destruct (queryFailure_status e) as [Hs | Hs]; rewrite Hs.
    + split; [do 4 right; left; reflexivity|].
      split; [discriminate | reflexivity].
    + split; [do 3 right; left; reflexivity|].
      split; [discriminate | reflexivity].
Qed.

(** X10.  A batch saves one record per success entry and none for a
    failure: the questions of the records added are the questions of the
    success entries, in the same order. *)
Theorem batch_saves_its_successes :
  forall (w : World) (st : State) (id : jsstring) (document : Document)
         (queries : list jsstring),
    isEmpty id = false ->
    findById w id = Found document ->
    1 <= List.length queries <= 10 ->
    exists (results : list BatchItem) (st' : State) (new : list QueryRecord),
      postBatch w (Some id) (Some queries) st
      = (Normal (mkResponse 200 (BatchBody (originalName document) results)),
         st')
      /\ saved st' = saved st ++ new
      /\ map queryText new = map itemQuery (filter itemSucceeded results)
      /\ List.length new = List.length (filter itemSucceeded results).
Proof.
  intros w st id document queries Hid Hfound Hlen.
  destruct (isolatedBatch_effect w document queries st)
    as [sent [waits [new [_ [_ [_ [_ [_ [Hsaved Hnew]]]]]]]]].
  exists (fst (isolatedBatch w document queries st)),
         (snd (isolatedBatch w document queries st)), new.
  split; [apply postBatch_valid; assumption|].
  split; [exact Hsaved|]. split; [exact Hnew|].
  rewrite <- (length_map queryText new), Hnew. apply length_map.
Qed.

Lemma batch_saves_its_successes_witness :
  exists (results : list BatchItem) (st' : State) (new : list QueryRecord),
    postBatch Scenario.secondFails (Some (doc_id Scenario.skyDocument))
      (Some Scenario.threeQuestions) Scenario.initial
    = (Normal (mkResponse 200 (BatchBody (utf16 "sky.txt") results)), st')
    /\ saved st' = saved Scenario.initial ++ new
    /\ map queryText new = map itemQuery (filter itemSucceeded results)
    /\ List.length new = List.length (filter itemSucceeded results).
Proof.
  apply (batch_saves_its_successes Scenario.secondFails Scenario.initial
           (doc_id Scenario.skyDocument) Scenario.skyDocument
           Scenario.threeQuestions).
  - reflexivity.
  - reflexivity.
  - vm_compute. lia.
Defined.

(** X11.  A batch of [n] questions sends at most [3 * n] requests to the
    provider and awaits at most [2 * n] timers, each of 2000 ms: the
    backoffs of a batch of 10 add up to 40 seconds at most. *)
Theorem batch_effort_is_bounded :
  forall (w : World) (st : State) (id : jsstring) (document : Document)
         (queries : list jsstring),
    isEmpty id = false ->
    findById w id = Found document ->
    1 <= List.length queries <= 10 ->
    exists (sent : list jsstring) (waits : list Z),
      calls (snd (postBatch w (Some id) (Some queries) st)) = calls st ++ sent
      /\ List.length sent <= 3 * List.length queries
      /\ timers (snd (postBatch w (Some id) (Some queries) st))
         = timers st ++ waits
      /\ List.length waits <= 2 * List.length queries
      /\ Forall (fun ms => ms = 2000%Z) waits.
Proof.
  intros w st id document queries Hid Hfound Hlen.
  rewrite (postBatch_valid w document) by assumption. cbn [snd].
  destruct (isolatedBatch_effect w document queries st)
    as [sent [waits [new [Hc [Hlc [Ht [Hlt [Hall _]]]]]]]].
  exists sent, waits. repeat split; assumption.
Qed.

Lemma batch_effort_is_bounded_witness :
  exists (sent : list jsstring) (waits : list Z),
    calls (snd (postBatch Scenario.overloadedWorld
                  (Some (doc_id Scenario.skyDocument))
                  (Some Scenario.threeQuestions) Scenario.initial))
    = calls Scenario.initial ++ sent
    /\ List.length sent <= 3 * List.length Scenario.threeQuestions
    /\ timers (snd (postBatch Scenario.overloadedWorld
                      (Some (doc_id Scenario.skyDocument))
                      (Some Scenario.threeQuestions) Scenario.initial))
       = timers Scenario.initial ++ waits
    /\ List.length waits <= 2 * List.length Scenario.threeQuestions
    /\ Forall (fun ms => ms = 2000%Z) waits.
Proof.
  apply (batch_effort_is_bounded Scenario.overloadedWorld Scenario.initial
           (doc_id Scenario.skyDocument) Scenario.skyDocument).
  - reflexivity.
  - reflexivity.
  - vm_compute. lia.
Defined.

(** X12.  [POST /api/query/batch] always answers, with status 200, 400,
    404 or 500.  It answers 500 only when the lookup of the document
    throws, with the message of that error; no failure of a question makes
    the batch fail.  With any status but 200 the state is the one it was
    entered with: nothing was sent and nothing saved. *)
Theorem batch_fails_only_on_lookup :
  forall (w : World) (st : State) (documentId : option jsstring)
         (queries : option (list jsstring)),
    exists (resp : Response) (st' : State),
      postBatch w documentId queries st = (Normal resp, st')
      /\ In (status resp) [200; 400; 404; 500]
      /\ (status resp = 500 ->
          exists id e,
            documentId = Some id
            /\ findById w id = LookupFails e
            /\ body resp
               = ErrorBody "Batch processing failed" (Some (message e)))
      /\ (status resp <> 200 -> st' = st).
Proof.
  intros w st documentId queries.
  assert (H400 : forall error detail,
    exists (resp : Response) (st' : State),
      (Normal (mkResponse 400 (ErrorBody error detail)), st) = (Normal resp, st')
      /\ In (status resp) [200; 400; 404; 500]
      /\ (status resp = 500 ->
          exists id e,
            documentId = Some id
            /\ findById w id = LookupFails e
            /\ body resp
               = ErrorBody "Batch processing failed" (Some (message e)))
      /\ (status resp <> 200 -> st' = st)).
  { intros. do 2 eexists. split; [reflexivity|]. cbn [status].
    split; [right; left; reflexivity|]. split; [discriminate | reflexivity]. }
  destruct documentId as [id|]; [|apply H400].
  destruct queries as [qs|]; [|apply H400].
  destruct (isEmpty id) eqn:Hid;
    [unfold postBatch, tryCatch; rewrite Hid; apply H400|].
  destruct ((List.length qs =? 0)%nat || (10 <? List.length qs)%nat) eqn:Hcount;
    [unfold postBatch, tryCatch; rewrite Hid, Hcount; apply H400|].
  apply orb_false_iff in Hcount. destruct Hcount as [H0 H10].
  apply Nat.eqb_neq in H0. apply Nat.ltb_ge in H10.
  destruct (findById w id) as [document| |e] eqn:Hfound.
  - rewrite (postBatch_valid w document) by (assumption || lia).
    do 2 eexists. split; [reflexivity|]. cbn [status].
    split; [left; reflexivity|].
    split; [discriminate | intros H; contradiction H; reflexivity].
  - unfold postBatch, tryCatch. rewrite Hid.
    replace ((List.length qs =? 0)%nat || (10 <? List.length qs)%nat) with false
      by (symmetry; apply orb_false_iff; split;
          [apply Nat.eqb_neq | apply Nat.ltb_ge]; assumption).
    unfold bind at 1. unfold Document_findById. rewrite Hfound.
    do 2 eexists. split; [reflexivity|]. cbn [status].
    split; [do 2 right; left; reflexivity|].
    split; [discriminate | reflexivity].
  - unfold postBatch, tryCatch. rewrite Hid.
    replace ((List.length qs =? 0)%nat || (10 <? List.length qs)%nat) with false
      by (symmetry; apply orb_false_iff; split;
          [apply Nat.eqb_neq | apply Nat.ltb_ge]; assumption).
    unfold bind at 1. unfold Document_findById. rewrite Hfound.
    do 2 eexists. split; [reflexivity|]. cbn [status body].
    split; [do 3 right; left; reflexivity|].
    split; [|reflexivity].
    intros _. exists id, e. repeat split. exact Hfound.
Qed.

(** X13.  A batch on a process without the key answers 200 with a failure
    entry for every question, each with the message "Invalid Gemini API
    key"; nothing is sent to the provider and nothing is saved. *)
Theorem batch_without_the_key_fails_every_question :
  forall (w : World) (st : State) (id : jsstring) (document : Document)
         (queries : list jsstring),
    isEmpty id = false ->
    findById w id = Found document ->
    1 <= List.length queries <= 10 ->
    model st = false ->
    GEMINI_API_KEY w = false ->
    postBatch w (Some id) (Some queries) st
    = (Normal
         (mkResponse 200
            (BatchBody (originalName document)
               (map (fun query =>
                       ItemFailure query
                         (utf16 "Invalid Gemini API key. Please check your configuration."))
                  queries))),
       st).
Proof.
  intros w st id document queries Hid Hfound Hlen Hm Hk.
  rewrite (postBatch_valid w document) by assumption.
  rewrite isolatedBatch_no_key by assumption. reflexivity.
Qed.

Lemma batch_without_the_key_fails_every_question_witness :
  let w :=
    mkWorld false (fun _ _ => Text Scenario.blueReply) (fun _ => 120%Z)
      (fun _ => Found Scenario.skyDocument) (fun _ _ => None) in
  postBatch w (Some (doc_id Scenario.skyDocument))
    (Some Scenario.threeQuestions) Scenario.initial
  = (Normal
       (mkResponse 200
          (BatchBody (originalName Scenario.skyDocument)
             (map (fun query =>
                     ItemFailure query
                       (utf16 "Invalid Gemini API key. Please check your configuration."))
                Scenario.threeQuestions))),
     Scenario.initial).
Proof.
  intros w.
  apply (batch_without_the_key_fails_every_question w Scenario.initial
           (doc_id Scenario.skyDocument) Scenario.skyDocument
           Scenario.threeQuestions).
  - reflexivity.
  - reflexivity.
  - vm_compute. lia.
  - reflexivity.
  - reflexivity.
Defined.

(* ================================================================== *)
(** * Further properties of the recommended questions and of the
      validation of the key *)
(* ================================================================== *)

(** X14.  [generateRecommendedQuestions] reads the first 1000 code units
    of the document and no more.  It sends one request at most, the prompt
    of that excerpt, awaits no timer (an overloaded provider is not asked
    again) and saves nothing. *)
Theorem recommendations_read_1000_units_and_ask_once :
  forall (w : World) (documentText : jsstring) (st : State),
    generateRecommendedQuestions w documentText st
    = generateRecommendedQuestions w (substring0 documentText 1000) st
    /\ (calls (snd (generateRecommendedQuestions w documentText st)) = calls st
        \/ calls (snd (generateRecommendedQuestions w documentText st))
           = calls st ++ [questionsPrompt (substring0 documentText 1000)])
    /\ timers (snd (generateRecommendedQuestions w documentText st)) = timers st
    /\ saved (snd (generateRecommendedQuestions w documentText st)) = saved st.
Proof.
  intros w documentText st.
  assert (Hexcerpt : substring0 (substring0 documentText 1000) 1000
                     = substring0 documentText 1000).
  { unfold substring0. rewrite firstn_firstn. f_equal. }
  split.
  - rewrite !generateRecommendedQuestions_run. cbv zeta.
    rewrite Hexcerpt. reflexivity.
  - rewrite generateRecommendedQuestions_run. cbv zeta.
    assert (Hmodel : forall r st0, ensureModel w st = (r, st0) ->
              calls st0 = calls st /\ timers st0 = timers st
              /\ saved st0 = saved st).
    { unfold ensureModel, initializeGemini. intros r st0.
      destruct (model st); [intros [= _ <-]; repeat split|].
      destruct (GEMINI_API_KEY w); intros [= _ <-]; repeat split. }
    destruct (ensureModel w st) as [[[]|e0] st0] eqn:Hm;
      destruct (Hmodel _ _ eq_refl) as [Hc [Ht Hs]].
    + destruct (generateContent w (List.length (calls st0)) _);
        cbn [snd afterCall calls timers saved]; rewrite Hc, Ht, Hs;
        (split; [right; reflexivity | split; reflexivity]).
    + cbn [snd]. rewrite Hc, Ht, Hs. split; [left|split]; reflexivity.
Qed.

(** X15.  [validateGeminiKey] never throws.  It answers [true] exactly
    when the key is there and the provider answers the test request;
    without the key it leaves the state as it is, and with the key it sets
    [model] and sends the test request once. *)
Theorem validateGeminiKey_answers :
  forall (w : World) (st : State),
    exists (valid : bool) (st' : State),
      validateGeminiKey w st = (Normal valid, st')
      /\ (valid = true <->
          GEMINI_API_KEY w = true
          /\ exists responseText,
               generateContent w (List.length (calls st))
                 (utf16 "Hello, this is a test.") = Text responseText)
      /\ (GEMINI_API_KEY w = false -> st' = st)
      /\ (GEMINI_API_KEY w = true ->
          model st' = true
          /\ calls st' = calls st ++ [utf16 "Hello, this is a test."]
          /\ timers st' = timers st).
Proof.
  intros w st. unfold validateGeminiKey, tryCatch.
  destruct (GEMINI_API_KEY w) eqn:Hk; cbn [negb].
  - unfold bind, initializeGemini, callProvider, ret. rewrite Hk.
    cbn [withModel calls].
    destruct (generateContent w (List.length (calls st))
                (utf16 "Hello, this is a test.")) as [t|e] eqn:Hreply.
    + do 2 eexists. split; [reflexivity|]. split; [|split].
      * split; [intros _; split; [reflexivity | exists t; reflexivity]
               | reflexivity].
      * discriminate.
      * intros _. repeat split.
    + do 2 eexists. split; [reflexivity|]. split; [|split].
      * split; [discriminate | intros [_ [t [=]]]].
      * discriminate.
      * intros _. repeat split.
  - do 2 eexists. split; [reflexivity|]. split; [|split].
    + split; [discriminate | intros [[=] _]].
    + reflexivity.
    + discriminate.
Qed.

(* ================================================================== *)
(** * cleanText *)
(* ================================================================== *)

Lemma trimEnd_snoc (l : jsstring) (c : N) :
  trimEnd (l ++ [c]) = if isWhiteSpace c then trimEnd l else l ++ [c].
Proof.
  unfold trimEnd. rewrite rev_app_distr. cbn [rev app trimStart].
  destruct (isWhiteSpace c); [reflexivity|].
  cbn [rev]. now rewrite rev_involutive.
Qed.

Lemma trimEnd_cons (c : N) (l : jsstring) :
  trimEnd (c :: l)
  = match trimEnd l with
    | [] => if isWhiteSpace c then [] else [c]
    | d :: t => c :: d :: t
    end.
Proof.
  induction l as [|d l IH] using rev_ind.
  - change [c] with ([] ++ [c]). rewrite trimEnd_snoc.
    destruct (isWhiteSpace c); reflexivity.
  - change (c :: l ++ [d]) with ((c :: l) ++ [d]). rewrite !trimEnd_snoc.
    destruct (isWhiteSpace d); [exact IH|].
    destruct l; reflexivity.
Qed.

Lemma trimStart_clean (s : jsstring) : startsClean s = true -> trimStart s = s.
Proof.
  destruct s as [|c s]; [reflexivity|]. cbn [startsClean trimStart].
  destruct (isWhiteSpace c); [discriminate | reflexivity].
Qed.

Lemma trimStart_startsClean (s : jsstring) : startsClean (trimStart s) = true.
Proof.
  induction s as [|c s IH]; [reflexivity|]. cbn [trimStart].
  destruct (isWhiteSpace c) eqn:E; [exact IH|]. cbn [startsClean]. now rewrite E.
Qed.

Lemma trimEnd_startsClean (s : jsstring) :
  startsClean s = true -> startsClean (trimEnd s) = true.
Proof.
  destruct s as [|c s]; [reflexivity|]. rewrite trimEnd_cons.
  cbn [startsClean]. intros Hc. apply negb_true_iff in Hc. rewrite Hc.
  destruct (trimEnd s); cbn [startsClean]; rewrite Hc; reflexivity.
Qed.

Lemma trimEnd_idempotent (s : jsstring) : trimEnd (trimEnd s) = trimEnd s.
Proof.
  unfold trimEnd. rewrite rev_involutive.
  now rewrite (trimStart_clean _ (trimStart_startsClean (rev s))).
Qed.

Lemma trim_idempotent (s : jsstring) : trim (trim s) = trim s.
Proof.
  unfold trim.
  rewrite (trimStart_clean (trimEnd (trimStart s)))
    by (apply trimEnd_startsClean, trimStart_startsClean).
  apply trimEnd_idempotent.
Qed.

Lemma singleSpaced_tail (c : N) (s : jsstring) :
  singleSpaced (c :: s) = true -> singleSpaced s = true.
Proof. cbn [singleSpaced]. intros H. apply andb_true_iff in H. apply H. Qed.

Lemma trimStart_singleSpaced (s : jsstring) :
  singleSpaced s = true -> singleSpaced (trimStart s) = true.
Proof.
  induction s as [|c s IH]; [reflexivity|]. intros H. cbn [trimStart].
  destruct (isWhiteSpace c); [apply IH, (singleSpaced_tail c), H | exact H].
Qed.

Lemma trimEnd_singleSpaced (s : jsstring) :
  singleSpaced s = true -> singleSpaced (trimEnd s) = true.
Proof.
  induction s as [|c s IH]; [reflexivity|]. intros H.
  pose proof (IH (singleSpaced_tail c s H)) as IH'.
  rewrite trimEnd_cons.
  destruct (trimEnd s) as [|d t] eqn:Ht.
  - destruct (isWhiteSpace c) eqn:E; [reflexivity|].
    cbn [singleSpaced]. now rewrite E.
  - cbn [singleSpaced] in H |- *. apply andb_true_iff in H.
    destruct H as [Hc _]. apply andb_true_iff. split; [|exact IH'].
    destruct (isWhiteSpace c); [|reflexivity].
    apply andb_true_iff in Hc. destruct Hc as [H32 Hnext].
    rewrite H32. cbn [andb].
    destruct s as [|d' s']; [discriminate Ht|].
    rewrite trimEnd_cons in Ht.
    destruct (trimEnd s'); [destruct (isWhiteSpace d'); [discriminate|] |];
      injection Ht as <- _; exact Hnext.
Qed.

Lemma collapseWhiteSpace_spaced (s : jsstring) :
  singleSpaced (collapseWhiteSpace false s) = true
  /\ singleSpaced (collapseWhiteSpace true s) = true
  /\ startsClean (collapseWhiteSpace true s) = true.
Proof.
  induction s as [|c s [IH1 [IH2 IH3]]]; [repeat split|].
  cbn [collapseWhiteSpace]. destruct (isWhiteSpace c) eqn:E.
  - split; [|split; assumption].
    cbn [singleSpaced]. change (isWhiteSpace 32) with true.
    cbn [N.eqb Pos.eqb andb]. rewrite IH3, IH2. reflexivity.
  - cbn [singleSpaced startsClean]. rewrite E, IH1. repeat split.
Qed.

Lemma singleSpaced_no_newline (s : jsstring) :
  singleSpaced s = true -> forall b, collapseNewlines b s = s.
Proof.
  induction s as [|c s IH]; [reflexivity|]. intros H b.
  cbn [collapseNewlines].
  destruct (c =? 10)%N eqn:E.
  - apply N.eqb_eq in E. subst c. cbn [singleSpaced] in H.
    change (isWhiteSpace 10) with true in H. cbn in H. discriminate H.
  - f_equal. apply IH. exact (singleSpaced_tail c s H).
Qed.

Lemma collapseWhiteSpace_clean (s : jsstring) :
  startsClean s = true ->
  collapseWhiteSpace true s = collapseWhiteSpace false s.
Proof.
  destruct s as [|c s]; [reflexivity|]. cbn [startsClean collapseWhiteSpace].
  destruct (isWhiteSpace c); [discriminate | reflexivity].
Qed.

Lemma collapseWhiteSpace_fixed (s : jsstring) :
  singleSpaced s = true -> collapseWhiteSpace false s = s.
Proof.
  induction s as [|c s IH]; [reflexivity|]. intros H.
  pose proof (IH (singleSpaced_tail c s H)) as IH'.
  cbn [collapseWhiteSpace singleSpaced] in *.
  destruct (isWhiteSpace c); [|now rewrite IH'].
  apply andb_true_iff in H. destruct H as [Hc _].
  apply andb_true_iff in Hc. destruct Hc as [H32 Hnext].
  apply N.eqb_eq in H32. subst c.
  rewrite (collapseWhiteSpace_clean s Hnext), IH'. reflexivity.
Qed.

Lemma inked_collapseWhiteSpace (b : bool) (s : jsstring) :
  inked (collapseWhiteSpace b s) = inked s.
Proof.
  unfold inked. revert b. induction s as [|c s IH]; intros b; [reflexivity|].
  cbn [collapseWhiteSpace filter]. destruct (isWhiteSpace c) eqn:E.
  - destruct b; cbn [filter negb]; [apply IH|].
    change (isWhiteSpace 32) with true. cbn [negb]. apply IH.
  - cbn [filter]. rewrite E. cbn [negb]. now rewrite IH.
Qed.

Lemma inked_collapseNewlines (b : bool) (s : jsstring) :
  inked (collapseNewlines b s) = inked s.
Proof.
  unfold inked. revert b. induction s as [|c s IH]; intros b; [reflexivity|].
  cbn [collapseNewlines filter]. destruct (c =? 10)%N eqn:E.
  - apply N.eqb_eq in E. subst c. change (isWhiteSpace 10) with true.
    cbn [negb]. destruct b; cbn [filter]; [apply IH|].
    change (isWhiteSpace 10) with true. cbn [negb]. apply IH.
  - cbn [filter]. now rewrite IH.
Qed.

Lemma inked_trimStart (s : jsstring) : inked (trimStart s) = inked s.
Proof.
  unfold inked. induction s as [|c s IH]; [reflexivity|].
  cbn [trimStart filter]. destruct (isWhiteSpace c) eqn:E; cbn [negb];
    [exact IH|]. cbn [filter]. now rewrite E.
Qed.

Lemma inked_trim (s : jsstring) : inked (trim s) = inked s.
Proof.
  unfold trim, trimEnd.
  assert (Hrev : forall l, inked (rev l) = rev (inked l))
    by (intros l; unfold inked; apply filter_rev).
  rewrite Hrev, inked_trimStart, Hrev, rev_involutive. apply inked_trimStart.
Qed.

Lemma inked_nil_trim (s : jsstring) : inked s = [] -> trim s = [].
Proof.
  intros H. assert (Hs : trimStart s = []).
  { induction s as [|c s IH]; [reflexivity|].
    unfold inked in H. cbn [filter trimStart] in *.
    destruct (isWhiteSpace c); [apply IH; exact H | discriminate H]. }
  unfold trim. rewrite Hs. reflexivity.
Qed.

Lemma cleanText_spaced (text : jsstring) :
  singleSpaced (cleanText text) = true /\ trim (cleanText text) = cleanText text.
Proof.
  unfold cleanText.
  destruct (collapseWhiteSpace_spaced text) as [Hs _].
  rewrite (singleSpaced_no_newline _ Hs).
  split; [|apply trim_idempotent].
  unfold trim. apply trimEnd_singleSpaced, trimStart_singleSpaced, Hs.
Qed.

Lemma cleanText_fixed (text : jsstring) :
  singleSpaced text = true -> trim text = text -> cleanText text = text.
Proof.
  intros Hs Ht. unfold cleanText.
  rewrite (collapseWhiteSpace_fixed text Hs).
  rewrite (singleSpaced_no_newline text Hs). exact Ht.
Qed.

Lemma singleSpaced_only_spaces (s : jsstring) :
  singleSpaced s = true ->
  forall c, In c s -> isWhiteSpace c = true -> c = 32%N.
Proof.
  induction s as [|d s IH]; intros H c; [intros []|].
  intros [<- | Hin] Hws.
  - cbn [singleSpaced] in H. rewrite Hws in H.
    apply andb_true_iff in H. destruct H as [H _].
    apply andb_true_iff in H. destruct H as [H _].
    now apply N.eqb_eq in H.
  - exact (IH (singleSpaced_tail d s H) c Hin Hws).
Qed.

Lemma cleanText_trim (text : jsstring) :
  cleanText text = trim (collapseWhiteSpace false text).
Proof.
  unfold cleanText. destruct (collapseWhiteSpace_spaced text) as [Hc _].
  now rewrite (singleSpaced_no_newline _ Hc).
Qed.

(** X16.  The text that [cleanText] returns is in normal form: its only
    whitespace is the space, no space is followed by another, and it
    neither starts nor ends with one, so [trim] leaves it as it is.  In
    particular it holds no line feed: the second replacement of
    [cleanText] never finds one. *)
Theorem cleanText_is_in_normal_form :
  forall text : jsstring,
    singleSpaced (cleanText text) = true
    /\ trim (cleanText text) = cleanText text
    /\ (forall c, In c (cleanText text) -> isWhiteSpace c = true -> c = 32%N)
    /\ ~ In 10%N (cleanText text)
    /\ cleanText text = trim (collapseWhiteSpace false text).
Proof.
  intros text. destruct (cleanText_spaced text) as [Hs Ht].
  split; [exact Hs|]. split; [exact Ht|].
  split; [apply singleSpaced_only_spaces; exact Hs|]. split.
  - intros Hin.
    pose proof (singleSpaced_only_spaces _ Hs 10%N Hin eq_refl) as H.
    discriminate H.
  - apply cleanText_trim.
Qed.

(** X17.  [cleanText] changes whitespace only: the code units of the text
    that are not whitespace are all kept, in their order, and nothing is
    added but spaces. *)
Theorem cleanText_keeps_the_ink :
  forall text : jsstring,
    inked (cleanText text) = inked text
    /\ List.length (cleanText text) <= List.length text.
Proof.
  intros text.
  assert (Hink : inked (cleanText text) = inked text).
  { unfold cleanText.
    now rewrite inked_trim, inked_collapseNewlines, inked_collapseWhiteSpace. }
  split; [exact Hink|].
  assert (Hcw : forall b s,
             List.length (collapseWhiteSpace b s) <= List.length s).
  { intros b s. revert b. induction s as [|c s IH]; intros b; [cbn; lia|].
    cbn [collapseWhiteSpace]. destruct (isWhiteSpace c);
      [destruct b|]; cbn [List.length];
      [specialize (IH true) | specialize (IH true) | specialize (IH false)];
      lia. }
  assert (Hts : forall s, List.length (trimStart s) <= List.length s).
  { induction s as [|c s IH]; [cbn; lia|]. cbn [trimStart].
    destruct (isWhiteSpace c); cbn [List.length]; lia. }
  rewrite cleanText_trim. unfold trim, trimEnd. rewrite length_rev.
  etransitivity; [apply Hts|]. rewrite length_rev.
  etransitivity; [apply Hts|]. apply Hcw.
Qed.

(** X18.  [cleanText] is idempotent, and the texts it leaves as they are
    are the texts in normal form. *)
Theorem cleanText_is_idempotent :
  forall text : jsstring,
    cleanText (cleanText text) = cleanText text
    /\ (cleanText text = text <->
        singleSpaced text = true /\ trim text = text).
Proof.
  intros text. destruct (cleanText_spaced text) as [Hs Ht].
  split; [apply cleanText_fixed; assumption|].
  split.
  - intros H. rewrite <- H. split; assumption.
  - intros [Hs' Ht']. apply cleanText_fixed; assumption.
Qed.

(** X19.  [cleanText] returns the empty text exactly for the texts made
    of whitespace only (the empty text is one): these are the uploads that
    the upload route refuses as empty. *)
Theorem cleanText_is_empty_on_whitespace_only :
  forall text : jsstring,
    cleanText text = [] <-> forallb isWhiteSpace text = true.
Proof.
  intros text.
  assert (Hink : inked (cleanText text) = inked text).
  { unfold cleanText.
    now rewrite inked_trim, inked_collapseNewlines, inked_collapseWhiteSpace. }
  assert (Hall : forall s, inked s = [] <-> forallb isWhiteSpace s = true).
  { unfold inked. induction s as [|c s IH]; [split; reflexivity|].
    cbn [filter forallb]. destruct (isWhiteSpace c); cbn [negb andb];
      [exact IH | split; discriminate]. }
  split.
  - intros H. apply Hall. rewrite <- Hink, H. reflexivity.
  - intros H. apply Hall in H. rewrite <- Hink in H.
    destruct (cleanText_spaced text) as [_ Ht]. rewrite <- Ht.
    apply inked_nil_trim. exact H.
Qed.

(* ================================================================== *)
(** * The upload route *)
(* ================================================================== *)

Lemma startsWith_cat (p rest : jsstring) : startsWith (p +++ rest) p = true.
Proof. apply startsWith_app. Qed.

Section UploadFacts.

Import Upload.

Variable env : Env.

Lemma extractAndClean_text (f : UploadedFile) (text : jsstring) :
  extractAndClean env f = Normal text ->
  exists raw,
    extractTextFromDocument env (path f) (mimetype f) = Normal raw
    /\ text = cleanText raw
    /\ text <> [].
Proof.
  unfold extractAndClean.
  destruct (extractTextFromDocument env (path f) (mimetype f)) as [raw|e];
    [|discriminate].
  cbv zeta.
  destruct (isEmpty (cleanText raw)) eqn:Hempty; cbn [orb]; [discriminate|].
  destruct (List.length (trim (cleanText raw)) =? 0)%nat; [discriminate|].
  intros [= <-]. exists raw. repeat split.
  intros H. rewrite H in Hempty. discriminate Hempty.
Qed.

Lemma saveDocument_stores (d : NewDocument) (st st' : Store) :
  saveDocument env d st = Normal st' ->
  st' = mkStore (removed st) (documents st ++ [d]).
Proof.
  unfold saveDocument. destruct (validateDocument d); [discriminate|].
  destruct (insertDocument env (List.length (documents st)) d);
    [discriminate | intros [= <-]; reflexivity].
Qed.

End UploadFacts.

Lemma postUpload_created (env : Upload.Env) (f : Upload.UploadedFile)
    (st st' : Upload.Store) (resp : Upload.UploadResponse) :
  Upload.postUpload env (Some f) st = (resp, st') ->
  Upload.up_status resp = 201 ->
  exists raw,
    Upload.extractTextFromDocument env (Upload.path f) (Upload.mimetype f)
    = Normal raw
    /\ cleanText raw <> []
    /\ st' = Upload.mkStore (Upload.removed st)
               (Upload.documents st
                ++ [Upload.mkNewDocument (Upload.filename f)
                      (Upload.originalname f) (Upload.path f) (Upload.size f)
                      (Upload.mimetype f) (cleanText raw)]).
Proof.
  unfold Upload.postUpload.
  destruct (Upload.extractAndClean env f) as [text|e] eqn:Hextract;
    [|intros [= <- _]; discriminate].
  destruct (Upload.saveDocument env _ st) as [st1|e] eqn:Hsave;
    [|intros [= <- _]; discriminate].
  intros [= _ <-] _.
  destruct (extractAndClean_text env f text Hextract) as [raw [Hraw [-> Hne]]].
  apply saveDocument_stores in Hsave. subst st1.
  exists raw. repeat split; assumption.
Qed.


(** X20.  When [POST /api/upload] answers 201 it has stored one document
    and removed no file.  The text stored is [cleanText] of what the
    extraction returned: it is not empty, it is in normal form, and the
    [textLength] of the reply is its length. *)
Theorem upload_stores_clean_text :
  forall (env : Upload.Env) (f : Upload.UploadedFile) (st st' : Upload.Store)
         (resp : Upload.UploadResponse),
    Upload.postUpload env (Some f) st = (resp, st') ->
    Upload.up_status resp = 201 ->
    exists (raw : jsstring) (d : Upload.NewDocument),
      Upload.extractTextFromDocument env (Upload.path f) (Upload.mimetype f)
      = Normal raw
      /\ Upload.documents st' = Upload.documents st ++ [d]
      /\ Upload.removed st' = Upload.removed st
      /\ Upload.doc_extractedText d = cleanText raw
      /\ Upload.doc_extractedText d <> []
      /\ trim (Upload.doc_extractedText d) = Upload.doc_extractedText d
      /\ singleSpaced (Upload.doc_extractedText d) = true
      /\ Upload.doc_filePath d = Upload.path f
      /\ Upload.up_body resp
         = Upload.Uploaded (Upload.originalname f) (Upload.size f)
             (Upload.mimetype f) (List.length (Upload.doc_extractedText d)).
Proof.
  intros env f st st' resp Hup H201.
  destruct (postUpload_created env f st st' resp Hup H201)
    as [raw [Hraw [Hne ->]]].
  assert (Hbody : Upload.up_body resp
                  = Upload.Uploaded (Upload.originalname f) (Upload.size f)
                      (Upload.mimetype f) (List.length (cleanText raw))).
  { revert Hup H201. unfold Upload.postUpload.
    destruct (Upload.extractAndClean env f) as [text|e] eqn:Hextract;
      [|intros [= <- _]; discriminate].
    destruct (Upload.saveDocument env _ st) as [st1|e];
      [|intros [= <- _]; discriminate].
    intros [= <- _] _. cbn [Upload.up_body].
    destruct (extractAndClean_text env f text Hextract) as [raw' [Hraw' [-> _]]].
    rewrite Hraw in Hraw'. injection Hraw' as <-. reflexivity. }
  destruct (cleanText_spaced raw) as [Hs Ht].
  exists raw. eexists. split; [exact Hraw|].
  cbn [Upload.documents Upload.removed Upload.doc_extractedText
       Upload.doc_filePath].
  repeat split; assumption || reflexivity.
Qed.

Lemma upload_stores_clean_text_witness :
  exists (raw : jsstring) (d : Upload.NewDocument),
    Upload.extractTextFromDocument
      (Upload.textEnv ("  The sky" +++ nl +++ nl +++ "is   blue. "))
      (Upload.path Upload.notes) (Upload.mimetype Upload.notes)
    = Normal raw
    /\ Upload.documents
         (snd (Upload.postUpload
                 (Upload.textEnv ("  The sky" +++ nl +++ nl +++ "is   blue. "))
                 (Some Upload.notes) Upload.emptyStore))
       = Upload.documents Upload.emptyStore ++ [d]
    /\ Upload.doc_extractedText d = utf16 "The sky is blue.".
Proof.
  destruct (upload_stores_clean_text
              (Upload.textEnv ("  The sky" +++ nl +++ nl +++ "is   blue. "))
              Upload.notes Upload.emptyStore
              (snd (Upload.postUpload
                      (Upload.textEnv ("  The sky" +++ nl +++ nl +++ "is   blue. "))
                      (Some Upload.notes) Upload.emptyStore))
              (fst (Upload.postUpload
                      (Upload.textEnv ("  The sky" +++ nl +++ nl +++ "is   blue. "))
                      (Some Upload.notes) Upload.emptyStore)))
    as [raw [d [Hraw [Hdocs [_ [Htext _]]]]]].
  - apply surjective_pairing.
  - vm_compute. reflexivity.
  - exists raw, d. split; [exact Hraw|]. split; [exact Hdocs|].
    rewrite Htext. revert Hraw. vm_compute. intros [= <-]. reflexivity.
Defined.

(** X21.  [POST /api/upload] answers 201, 400 or 500.  It stores a
    document only with 201.  With any other status and a file uploaded,
    it asks for the removal of the file, so the file is removed whenever
    the removal succeeds; with 201 the file is kept. *)
Theorem upload_cleans_up_on_failure :
  forall (env : Upload.Env) (file : option Upload.UploadedFile)
         (st : Upload.Store),
    let resp := fst (Upload.postUpload env file st) in
    let st' := snd (Upload.postUpload env file st) in
    In (Upload.up_status resp) [201; 400; 500]
    /\ (Upload.up_status resp = 201 -> Upload.removed st' = Upload.removed st)
    /\ (Upload.up_status resp <> 201 ->
        Upload.documents st' = Upload.documents st)
    /\ (forall f,
          file = Some f ->
          Upload.up_status resp <> 201 ->
          Upload.path f <> [] ->
          Upload.remove env (Upload.path f) = None ->
          Upload.removed st' = Upload.removed st ++ [Upload.path f]).
Proof.
  intros env file st. cbv zeta. unfold Upload.postUpload.
  destruct file as [f|].
  - destruct (Upload.extractAndClean env f) as [text|e].
    + destruct (Upload.saveDocument env _ st) as [st1|e] eqn:Hsave.
      * apply saveDocument_stores in Hsave. subst st1.
        cbn [fst snd Upload.up_status Upload.removed Upload.documents].
        split; [left; reflexivity|]. split; [reflexivity|].
        split; [intros H; contradiction H; reflexivity|].
        intros f0 _ H; contradiction H; reflexivity.
      * cbn [fst snd Upload.up_status].
        split; [do 2 right; left; reflexivity|]. split; [discriminate|].
        unfold Upload.cleanup. split.
        -- intros _. destruct (isEmpty (Upload.path f)); [reflexivity|].
           destruct (Upload.remove env (Upload.path f)); reflexivity.
        -- intros f0 [= <-] _ Hpath Hremove. rewrite Hremove.
           destruct (Upload.path f); [contradiction Hpath|]; reflexivity.
    + cbn [fst snd Upload.up_status].
      split; [right; left; reflexivity|]. split; [discriminate|].
      unfold Upload.cleanup. split.
      * intros _. destruct (Upload.remove env (Upload.path f)); reflexivity.
      * intros f0 [= <-] _ _ Hremove. rewrite Hremove. reflexivity.
  - cbn [fst snd Upload.up_status].
    split; [right; left; reflexivity|]. split; [discriminate|].
    split; [reflexivity | discriminate].
Qed.

(** X22.  Every error of [extractTextFromDocument] has a message that
    starts with "Failed to extract text: ".  A file of a type that is
    neither PDF nor Word is read as text, whatever its type: the branch
    "Unsupported file type" is never taken.  The types that [fileFilter]
    accepts are the four that the switch names. *)
Theorem extraction_errors_and_types :
  forall (env : Upload.Env) (filePath mimeType : jsstring),
    (forall e,
        Upload.extractTextFromDocument env filePath mimeType = Throw e ->
        startsWith (message e) "Failed to extract text: " = true)
    /\ (mimeType <> Upload.pdfType ->
        mimeType <> Upload.docxType ->
        mimeType <> Upload.mswordType ->
        forall fileBuffer,
          Upload.readFileSync env filePath = Normal fileBuffer ->
          Upload.extractTextFromDocument env filePath mimeType
          = Normal (Upload.toUtf8 env fileBuffer))
    /\ (Upload.fileFilter mimeType = true <->
        mimeType = Upload.pdfType \/ mimeType = Upload.docxType
        \/ mimeType = Upload.mswordType \/ mimeType = Upload.textType).
Proof.
  intros env filePath mimeType.
  assert (Heqb : forall a b, jsstring_eqb a b = true <-> a = b).
  { intros a b. unfold jsstring_eqb.
    destruct (list_eq_dec N.eq_dec a b); split; congruence. }
  split; [|split].
  - intros e. unfold Upload.extractTextFromDocument, Upload.rethrow.
    match goal with |- context [match ?c with Normal _ => _ | Throw _ => _ end] =>
      destruct c end; [discriminate|].
    intros H. injection H as <-. cbn [message].
    first [apply startsWith_cat | reflexivity].
  - intros Hpdf Hdocx Hword fileBuffer Hread.
    unfold Upload.extractTextFromDocument. rewrite Hread.
    destruct (jsstring_eqb mimeType Upload.pdfType) eqn:E1;
      [apply Heqb in E1; contradiction|].
    destruct (jsstring_eqb mimeType Upload.docxType) eqn:E2;
      [apply Heqb in E2; contradiction|].
    destruct (jsstring_eqb mimeType Upload.mswordType) eqn:E3;
      [apply Heqb in E3; contradiction|].
    cbn [orb]. destruct (jsstring_eqb mimeType Upload.textType); reflexivity.
  - unfold Upload.fileFilter. cbn [existsb]. rewrite orb_false_r.
    rewrite !orb_true_iff, !Heqb. tauto.
Qed.

Lemma extraction_errors_and_types_witness :
  Upload.extractTextFromDocument (Upload.textEnv "a,b,c") "uploads/data.csv"
    "text/csv"
  = Normal (utf16 "a,b,c").
Proof.
  destruct (extraction_errors_and_types (Upload.textEnv "a,b,c")
              "uploads/data.csv" "text/csv") as [_ [Hother _]].
  apply (Hother ltac:(vm_compute; discriminate) ltac:(vm_compute; discriminate)
           ltac:(vm_compute; discriminate) []).
  reflexivity.
Defined.

(** X23.  A document stored by the upload route is never refused by
    [POST /api/query] for lack of text: whatever the request, the reply
    for that document is not "No text content". *)
Theorem uploaded_document_has_text_for_queries :
  forall (env : Upload.Env) (f : Upload.UploadedFile) (st st' : Upload.Store)
         (resp : Upload.UploadResponse) (d : Upload.NewDocument)
         (w : World) (id name : jsstring),
    Upload.postUpload env (Some f) st = (resp, st') ->
    Upload.up_status resp = 201 ->
    Upload.documents st' = Upload.documents st ++ [d] ->
    findById w id = Found (mkDocument id name (Upload.doc_extractedText d)) ->
    forall (query : option jsstring) (s : State),
    exists (r : Response) (s' : State),
      postQuery w (Some id) query s = (Normal r, s')
      /\ forall detail, body r <> ErrorBody "No text content" detail.
Proof.
  intros env f st st' resp d w id name Hup H201 Hdocs Hfound query s.
  destruct (postUpload_created env f st st' resp Hup H201)
    as [raw [_ [Hne ->]]].
  cbn [Upload.documents] in Hdocs. apply app_inv_head in Hdocs.
  injection Hdocs as <-. cbn [Upload.doc_extractedText] in Hfound.
  destruct (cleanText_spaced raw) as [_ Ht].
  assert (Hother : forall error detail s',
    error <> utf16 "No text content" ->
    exists (r : Response) (s0 : State),
      (Normal (mkResponse 400 (ErrorBody error detail)), s') = (Normal r, s0)
      /\ forall detail0, body r <> ErrorBody "No text content" detail0).
  { intros error detail s' Hneq. do 2 eexists. split; [reflexivity|].
    cbn [body]. intros detail0 [= H _]. contradiction. }
  assert (Hfail : forall e s',
    exists (r : Response) (s0 : State),
      (Normal (queryFailure e), s') = (Normal r, s0)
      /\ forall detail0, body r <> ErrorBody "No text content" detail0).
  { intros e s'. do 2 eexists. split; [reflexivity|].
    unfold queryFailure. destruct (includes (message e) "Gemini");
      cbn [body]; intros detail0 [= H _]; vm_compute in H; discriminate H. }
  destruct query as [q|];
    [|unfold postQuery, tryCatch; apply Hother; vm_compute; discriminate].
  destruct (isEmpty id) eqn:Hid;
    [unfold postQuery, tryCatch; rewrite Hid; apply Hother; vm_compute;
     discriminate|].
  destruct (isEmpty q) eqn:Hq;
    [unfold postQuery, tryCatch; rewrite Hid, Hq; apply Hother; vm_compute;
     discriminate|].
  destruct (List.length (trim q) <? 3)%nat eqn:Hlen;
    [unfold postQuery, tryCatch; rewrite Hid, Hq, Hlen; apply Hother;
     vm_compute; discriminate|].
  apply Nat.ltb_ge in Hlen.
  rewrite (postQuery_valid w s id q _ Hid Hq Hlen Hfound)
    by (cbn [extractedText]; rewrite Ht; exact Hne).
  cbn [extractedText].
  destruct (processQueryWithGemini w (cleanText raw) q s)
    as [[aiResponse|e] s1]; [|apply Hfail].
  destruct (save w _ s1) as [[[]|e] s2]; [|apply Hfail].
  do 2 eexists. split; [reflexivity|]. cbn [queryReplyOf body]. discriminate.
Qed.

Lemma uploaded_document_has_text_for_queries_witness :
  exists (r : Response) (s' : State),
    postQuery
      (Scenario.worldWith (fun _ _ => Text Scenario.blueReply)
         (mkDocument "65f0c0ffee" "notes.txt" "The sky is blue."))
      (Some (utf16 "65f0c0ffee")) (Some Scenario.skyQuestion) Scenario.initial
    = (Normal r, s')
    /\ forall detail, body r <> ErrorBody "No text content" detail.
Proof.
  apply (uploaded_document_has_text_for_queries
           (Upload.textEnv ("  The sky" +++ nl +++ nl +++ "is   blue. "))
           Upload.notes Upload.emptyStore
           (snd (Upload.postUpload
                   (Upload.textEnv ("  The sky" +++ nl +++ nl +++ "is   blue. "))
                   (Some Upload.notes) Upload.emptyStore))
           (fst (Upload.postUpload
                   (Upload.textEnv ("  The sky" +++ nl +++ nl +++ "is   blue. "))
                   (Some Upload.notes) Upload.emptyStore))
           (Upload.mkNewDocument "document-1.txt" "notes.txt"
              "uploads/document-1.txt" 42 "text/plain" "The sky is blue.")
           (Scenario.worldWith (fun _ _ => Text Scenario.blueReply)
              (mkDocument "65f0c0ffee" "notes.txt" "The sky is blue."))
           (utf16 "65f0c0ffee") (utf16 "notes.txt")).
  - apply surjective_pairing.
  - vm_compute. reflexivity.
  - vm_compute. reflexivity.
  - vm_compute. reflexivity.
Defined.

(* ================================================================== *)
(** * The route of the recommended questions *)
(* ================================================================== *)

Lemma recommendations_normal (w : World) (documentText : jsstring) (st : State) :
  exists (v : JsValue) (st' : State),
    generateRecommendedQuestions w documentText st = (Normal v, st').
Proof.
  rewrite generateRecommendedQuestions_run. cbv zeta.
  destruct (ensureModel w st) as [[[]|e] st0]; [|do 2 eexists; reflexivity].
  destruct (generateContent w (List.length (calls st0)) _);
    do 2 eexists; reflexivity.
Qed.

(** X24.  [GET /api/upload/:id/recommended-questions] never throws.  For a
    document that is found it answers 200 with what
    [generateRecommendedQuestions] resolves to, whatever the provider
    does; for one that is not found, 404, and when the lookup throws, 500,
    the state being kept in both cases.  When [global.useMemoryStorage]
    is truthy it answers 500 without looking the document up. *)
Theorem recommended_questions_route_answers :
  forall (w : World) (documentId : jsstring) (st : State),
    (exists (resp : Upload.QuestionsResponse) (st' : State),
       Upload.getRecommendedQuestions w false documentId st = (Normal resp, st')
       /\ (forall document,
             findById w documentId = Found document ->
             exists questions,
               generateRecommendedQuestions w (extractedText document) st
               = (Normal questions, st')
               /\ resp = Upload.mkQuestionsResponse 200 (Upload.Questions questions))
       /\ (findById w documentId = NotFound ->
           st' = st
           /\ resp = Upload.mkQuestionsResponse 404
                       (Upload.QuestionsError "Document not found" None))
       /\ (forall e,
             findById w documentId = LookupFails e ->
             st' = st
             /\ resp = Upload.mkQuestionsResponse 500
                         (Upload.QuestionsError
                            "Failed to generate recommended questions"
                            (Some (message e)))))
    /\ Upload.getRecommendedQuestions w true documentId st
       = (Normal
            (Upload.mkQuestionsResponse 500
               (Upload.QuestionsError "Failed to generate recommended questions"
                  (Some (utf16 "getMemoryStorage is not a function")))),
          st).
Proof.
  intros w documentId st. split; [|reflexivity].
  unfold Upload.getRecommendedQuestions, tryCatch, bind at 1.
  unfold Document_findById.
  destruct (findById w documentId) as [document| |e].
  - destruct (recommendations_normal w (extractedText document) st)
      as [v [st' Hrun]].
    unfold bind. rewrite Hrun. do 2 eexists. split; [reflexivity|].
    split; [|split]; [|discriminate|discriminate].
    intros d [= <-]. exists v. split; [exact Hrun | reflexivity].
  - do 2 eexists. split; [reflexivity|].
    split; [discriminate|]. split; [|discriminate].
    intros _. split; reflexivity.
  - do 2 eexists. split; [reflexivity|].
    split; [discriminate|]. split; [discriminate|].
    intros e0 [= <-]. split; reflexivity.
Qed.

Lemma recommended_questions_route_answers_witness :
  exists st' : State,
    Upload.getRecommendedQuestions Scenario.overloadedWorld false
      (doc_id Scenario.skyDocument) Scenario.initial
    = (Normal (Upload.mkQuestionsResponse 200 (Upload.Questions defaultQuestions)),
       st').
Proof.
  destruct (recommended_questions_route_answers Scenario.overloadedWorld
              (doc_id Scenario.skyDocument) Scenario.initial)
    as [[resp [st' [Hrun [Hfound _]]]] _].
  destruct (Hfound Scenario.skyDocument eq_refl) as [questions [Hq ->]].
  exists st'. rewrite Hrun. revert Hq. vm_compute. intros [= <- _].
  reflexivity.
Defined.

(* ================================================================== *)
(** * The allowed origins *)
(* ================================================================== *)

Lemma jsstring_eqb_eq (a b : jsstring) : jsstring_eqb a b = true <-> a = b.
Proof.
  unfold jsstring_eqb. destruct (list_eq_dec N.eq_dec a b); split; congruence.
Qed.

Lemma existsb_eqb_In (x : jsstring) (l : list jsstring) :
  existsb (jsstring_eqb x) l = true <-> In x l.
Proof.
  rewrite existsb_exists. split.
  - intros [y [Hin Heq]]. apply jsstring_eqb_eq in Heq. now subst y.
  - intros Hin. exists x. split; [exact Hin | now apply jsstring_eqb_eq].
Qed.

Lemma startsWith_spec (s p : jsstring) :
  startsWith s p = true <-> exists rest, s = p ++ rest.
Proof.
  revert s. induction p as [|a p IH]; intros s.
  - split; [intros _; exists s; reflexivity | reflexivity].
  - destruct s as [|b s]; cbn [startsWith].
    + split; [discriminate | intros [rest H]; discriminate H].
    + rewrite andb_true_iff, N.eqb_eq, IH. split.
      * intros [-> [rest ->]]. exists rest. reflexivity.
      * intros [rest [= -> ->]]. split; [reflexivity | exists rest; reflexivity].
Qed.

Lemma endsWith_spec (s suffix : jsstring) :
  Cors.endsWith s suffix = true <-> exists pre, s = pre ++ suffix.
Proof.
  unfold Cors.endsWith. rewrite startsWith_spec. split.
  - intros [rest H]. exists (rev rest).
    apply (f_equal (@rev N)) in H.
    rewrite rev_involutive, rev_app_distr, rev_involutive in H. exact H.
  - intros [pre ->]. exists (rev pre). apply rev_app_distr.
Qed.

Lemma dedupe_In (x : jsstring) (l seen : list jsstring) :
  In x (Cors.dedupe seen l) <-> In x l /\ ~ In x seen.
Proof.
  revert seen. induction l as [|y l IH]; intros seen; cbn [Cors.dedupe].
  - split; [intros [] | intros [[] _]].
  - destruct (existsb (jsstring_eqb y) seen) eqn:E.
    + apply existsb_eqb_In in E. rewrite IH. cbn [In]. split.
      * intros [H1 H2]. split; [right; exact H1 | exact H2].
      * intros [[<- | H1] H2]; [contradiction | split; assumption].
    + assert (Hy : ~ In y seen)
        by (intros H; apply existsb_eqb_In in H; rewrite H in E; discriminate).
      cbn [In]. rewrite IH. cbn [In]. split.
      * intros [<- | [H1 H2]]; [split; [left; reflexivity | exact Hy]|].
        split; [right; exact H1 | intros H; apply H2; right; exact H].
      * intros [[<- | H1] H2]; [left; reflexivity|].
        destruct (list_eq_dec N.eq_dec y x) as [-> | Hneq];
          [left; reflexivity|].
        right. split; [exact H1 | intros [H | H]; [contradiction | contradiction]].
Qed.

Lemma dedupe_NoDup (l seen : list jsstring) : NoDup (Cors.dedupe seen l).
Proof.
  revert seen. induction l as [|y l IH]; intros seen; cbn [Cors.dedupe];
    [constructor|].
  destruct (existsb (jsstring_eqb y) seen); [apply IH|].
  constructor; [|apply IH].
  intros H. apply dedupe_In in H. destruct H as [_ H]. apply H. left.
  reflexivity.
Qed.

Lemma splitComma_no_comma (s piece : jsstring) :
  In piece (Cors.splitComma s) -> ~ In 44%N piece.
Proof.
  revert piece. induction s as [|c s IH]; intros piece; cbn [Cors.splitComma].
  - intros [<- | []]. intros [].
  - destruct (c =? 44)%N eqn:E.
    + intros [<- | H]; [intros [] | apply IH; exact H].
    + apply N.eqb_neq in E.
      destruct (Cors.splitComma s) as [|first rest] eqn:Hs.
      * intros [<- | []]. intros [H | []]. congruence.
      * intros [<- | H].
        -- intros [Hc | Hin]; [congruence|].
           apply (IH first); [left; reflexivity | exact Hin].
        -- apply IH. right. exact H.
Qed.

Lemma trimStart_In (c : N) (s : jsstring) : In c (trimStart s) -> In c s.
Proof.
  induction s as [|d s IH]; [intros []|]. cbn [trimStart].
  destruct (isWhiteSpace d); [intros H; right; apply IH; exact H | intros H; exact H].
Qed.

Lemma trim_In (c : N) (s : jsstring) : In c (trim s) -> In c s.
Proof.
  unfold trim, trimEnd. intros H.
  apply in_rev in H. apply trimStart_In in H. apply in_rev in H.
  apply trimStart_In. exact H.
Qed.

Lemma allowedOrigins_defaults (env : option jsstring) :
  Cors.allowedOrigins env
  = Cors.defaultOrigins
    ++ Cors.dedupe (rev Cors.defaultOrigins) (Cors.envOrigins env).
Proof. reflexivity. Qed.

(** X25.  The list of allowed origins starts with the three local
    defaults, whatever [ALLOWED_ORIGINS] is, and has no duplicate.  What
    it holds besides are the pieces of [ALLOWED_ORIGINS] between commas,
    trimmed, the empty ones left out: an entry from the variable is not
    empty, has no comma and no whitespace at its ends.  Without the
    variable, or with an empty one, the list is the defaults. *)
Theorem allowed_origins_are_defaults_and_env_entries :
  forall env : option jsstring,
    NoDup (Cors.allowedOrigins env)
    /\ firstn 3 (Cors.allowedOrigins env) = Cors.defaultOrigins
    /\ (forall o,
          In o (Cors.allowedOrigins env) <->
          In o Cors.defaultOrigins
          \/ (o <> []
              /\ exists piece,
                   In piece (Cors.splitComma
                               (match env with Some s => s | None => [] end))
                   /\ o = trim piece))
    /\ (forall o,
          In o (Cors.allowedOrigins env) ->
          o <> [] /\ ~ In 44%N o /\ trim o = o)
    /\ Cors.allowedOrigins None = Cors.defaultOrigins
    /\ Cors.allowedOrigins (Some []) = Cors.defaultOrigins.
Proof.
  intros env.
  assert (Hin : forall o,
    In o (Cors.allowedOrigins env) <->
    In o Cors.defaultOrigins
    \/ (o <> []
        /\ exists piece,
             In piece (Cors.splitComma
                         (match env with Some s => s | None => [] end))
             /\ o = trim piece)).
  { intros o. unfold Cors.allowedOrigins. rewrite dedupe_In, in_app_iff.
    unfold Cors.envOrigins. rewrite filter_In, in_map_iff. split.
    - intros [[H | [[piece [<- Hp]] Hne]] _]; [left; exact H|].
      right. split; [|exists piece; split; [exact Hp | reflexivity]].
      intros H. rewrite H in Hne. discriminate Hne.
    - intros [H | [Hne [piece [Hp ->]]]]; (split; [|intros []]);
        [left; exact H|].
      right. split; [exists piece; split; [reflexivity | exact Hp]|].
      destruct (trim piece); [contradiction | reflexivity]. }
  split; [apply dedupe_NoDup|]. split; [reflexivity|]. split; [exact Hin|].
  split; [|split; reflexivity].
  intros o Ho. apply Hin in Ho. destruct Ho as [Hd | [Hne [piece [Hp ->]]]].
  - cbn [Cors.defaultOrigins In] in Hd.
    destruct Hd as [<- | [<- | [<- | []]]];
      (split; [discriminate | split; [|vm_compute; reflexivity]]);
      vm_compute; intuition discriminate.
  - split; [exact Hne|]. split; [|apply trim_idempotent].
    intros H. apply trim_In in H. exact (splitComma_no_comma _ piece Hp H).
Qed.

(** X26.  The origins that pass the check: a request without origin
    passes; an origin passes exactly when the list holds "*", or the
    origin itself, or an entry "*." followed by a base such that the
    origin ends with "." and that base; any other origin is blocked with
    the message "CORS blocked: " and the origin.  An origin that passes
    with a list passes with every list that holds its entries. *)
Theorem cors_origin_decision :
  forall (allowed : list jsstring) (o : jsstring),
    Cors.origin allowed None = None
    /\ Cors.origin allowed (Some []) = None
    /\ (Cors.origin allowed (Some o) = None <->
        o = []
        \/ In (utf16 "*") allowed
        \/ In o allowed
        \/ exists base pre,
             In (utf16 "*." ++ base) allowed /\ o = pre ++ utf16 "." ++ base)
    /\ (Cors.origin allowed (Some o) <> None ->
        Cors.origin allowed (Some o) = Some (mkError ("CORS blocked: " +++ o)))
    /\ (forall allowed',
          incl allowed allowed' ->
          Cors.origin allowed (Some o) = None ->
          Cors.origin allowed' (Some o) = None).
Proof.
  assert (Hspec : forall allowed o,
    Cors.origin allowed (Some o) = None <->
    o = []
    \/ In (utf16 "*") allowed
    \/ In o allowed
    \/ exists base pre,
         In (utf16 "*." ++ base) allowed /\ o = pre ++ utf16 "." ++ base).
  { intros allowed o. unfold Cors.origin.
    destruct o as [|c o']; [split; [left; reflexivity | reflexivity]|].
    cbn [isEmpty].
    destruct (existsb (jsstring_eqb (utf16 "*")) allowed) eqn:Estar.
    { apply existsb_eqb_In in Estar. split; [right; left; exact Estar | reflexivity]. }
    destruct (existsb (jsstring_eqb (c :: o')) allowed) eqn:Eexact.
    { apply existsb_eqb_In in Eexact.
      split; [right; right; left; exact Eexact | reflexivity]. }
    destruct (existsb (fun entry => startsWith entry "*."
                                    && Cors.endsWith (c :: o') (tl entry))
                allowed) eqn:Ewild.
    - split; [|reflexivity]. intros _. do 3 right.
      apply existsb_exists in Ewild. destruct Ewild as [entry [Hin H]].
      apply andb_true_iff in H. destruct H as [Hs He].
      apply startsWith_spec in Hs. destruct Hs as [base ->].
      apply endsWith_spec in He. destruct He as [pre He].
      exists base, pre. split; [exact Hin | exact He].
    - split; [discriminate|].
      intros [H | [H | [H | [base [pre [Hin Ho]]]]]].
      + discriminate H.
      + apply existsb_eqb_In in H. rewrite H in Estar. discriminate.
      + apply existsb_eqb_In in H. rewrite H in Eexact. discriminate.
      + assert (Hex : existsb (fun entry => startsWith entry "*."
                                            && Cors.endsWith (c :: o') (tl entry))
                        allowed = true).
        { apply existsb_exists. exists (utf16 "*." ++ base).
          split; [exact Hin|]. apply andb_true_iff. split.
          - apply startsWith_spec. exists base. reflexivity.
          - apply endsWith_spec. exists pre. exact Ho. }
        rewrite Hex in Ewild. discriminate. }
  intros allowed o. split; [reflexivity|]. split; [reflexivity|].
  split; [apply Hspec|]. split.
  - unfold Cors.origin. destruct (isEmpty o); [intros H; contradiction H; reflexivity|].
    destruct (existsb (jsstring_eqb (utf16 "*")) allowed);
      [intros H; contradiction H; reflexivity|].
    destruct (existsb (jsstring_eqb o) allowed);
      [intros H; contradiction H; reflexivity|].
    destruct (existsb _ allowed); [intros H; contradiction H; reflexivity|].
    reflexivity.
  - intros allowed' Hincl H. apply Hspec. apply Hspec in H.
    destruct H as [H | [H | [H | [base [pre [Hin Ho]]]]]].
    + left; exact H.
    + right; left. apply Hincl, H.
    + right; right; left. apply Hincl, H.
    + do 3 right. exists base, pre. split; [apply Hincl, Hin | exact Ho].
Qed.

Lemma cors_origin_decision_witness :
  Cors.origin (Cors.allowedOrigins (Some (utf16 " https://query-fy.vercel.app , *.vercel.app")))
    (Some (utf16 "https://preview-42.vercel.app"))
  = None
  /\ Cors.origin (Cors.allowedOrigins (Some (utf16 " https://query-fy.vercel.app , *.vercel.app")))
       (Some (utf16 "https://vercel.app.example.org"))
     = Some (mkError ("CORS blocked: " +++ "https://vercel.app.example.org")).
Proof.
  split.
  - destruct (cors_origin_decision
                (Cors.allowedOrigins
                   (Some (utf16 " https://query-fy.vercel.app , *.vercel.app")))
                (utf16 "https://preview-42.vercel.app"))
      as [_ [_ [Hiff _]]].
    apply Hiff. right. right. right.
    exists (utf16 "vercel.app"), (utf16 "https://preview-42").
    split; [|reflexivity]. vm_compute. tauto.
  - destruct (cors_origin_decision
                (Cors.allowedOrigins
                   (Some (utf16 " https://query-fy.vercel.app , *.vercel.app")))
                (utf16 "https://vercel.app.example.org"))
      as [_ [_ [_ [Hblocked _]]]].
    apply Hblocked. vm_compute. discriminate.
Defined.

(* ================================================================== *)
(** * The in-memory storage *)
(* ================================================================== *)

Section MemoryFacts.

Import MemoryStorage.

Lemma digitsOf_inj (a b : Decimal.uint) : digitsOf a = digitsOf b -> a = b.
Proof.
  revert b. induction a; destruct b; cbn [digitsOf]; intros H;
    try discriminate H; try reflexivity;
    injection H as H; f_equal; apply IHa; exact H.
Qed.

Lemma docKey_inj (n m : N) : docKey n = docKey m -> n = m.
Proof.
  unfold docKey, cat. intros H. apply app_inv_head in H.
  apply DecimalN.Unsigned.to_uint_inj, digitsOf_inj, H.
Qed.

Lemma propOf_app_lacks (k : jsstring) (pre data : Props) :
  lacks k data -> propOf k (pre ++ data) = propOf k pre.
Proof.
  unfold lacks. intros H. induction pre as [|[k' v] pre IH]; cbn [app propOf];
    [exact H | now rewrite IH].
Qed.

Lemma propOf_app_has (k : jsstring) (pre data : Props) (v : JsValue) :
  propOf k data = Some v -> propOf k (pre ++ data) = Some v.
Proof.
  intros H. induction pre as [|[k' v'] pre IH]; cbn [app propOf];
    [exact H | now rewrite IH].
Qed.

Lemma increment_below (n : N) :
  (n < 9007199254740992)%N -> increment n = (n + 1)%N.
Proof.
  intros H. unfold increment. apply N.ltb_lt in H. now rewrite H.
Qed.

Lemma find_snoc (p : Stored -> bool) (l : list Stored) (x : Stored) :
  find p (l ++ [x])
  = match find p l with
    | Some y => Some y
    | None => if p x then Some x else None
    end.
Proof.
  induction l as [|y l IH]; cbn [app find]; [reflexivity|].
  destruct (p y); [reflexivity | exact IH].
Qed.

Lemma hasId_keys (id : jsstring) (o : Stored) (n : N) :
  keysOf o = (JStr (docKey n), JStr (docKey n)) ->
  hasId id o = jsstring_eqb (docKey n) id.
Proof.
  unfold keysOf, hasId. intros [= -> ->]. cbn [strictEq]. apply orb_diag.
Qed.

Lemma find_absent (id : jsstring) (docs : list Stored) (ns : list N) :
  map keysOf docs = map (fun n => (JStr (docKey n), JStr (docKey n))) ns ->
  (forall n, In n ns -> docKey n <> id) ->
  find (hasId id) docs = None.
Proof.
  revert ns. induction docs as [|o docs IH]; intros ns Hmap Hnone;
    [reflexivity|].
  destruct ns as [|n ns]; [discriminate Hmap|].
  cbn [map] in Hmap. injection Hmap as H1 H2 Hrest. cbn [find].
  assert (Hkeys : keysOf o = (JStr (docKey n), JStr (docKey n)))
    by (unfold keysOf; now rewrite H1, H2).
  rewrite (hasId_keys id o n Hkeys).
  destruct (jsstring_eqb (docKey n) id) eqn:E.
  - apply jsstring_eqb_eq in E. exfalso. apply (Hnone n); [left; reflexivity | exact E].
  - apply (IH ns Hrest). intros m Hm. apply Hnone. right. exact Hm.
Qed.

(** The first document with the identifier, what is before it and what is
    after it. *)
Lemma find_split (id : jsstring) (docs : list Stored) (doc : Stored) :
  find (hasId id) docs = Some doc ->
  exists before after,
    docs = before ++ doc :: after
    /\ hasId id doc = true
    /\ removeFirst (hasId id) docs = before ++ after
    /\ existsb (hasId id) docs = true
    /\ forall p, p doc = false ->
                 find p (before ++ after) = find p docs.
Proof.
  induction docs as [|o docs IH]; cbn [find]; [discriminate|].
  destruct (hasId id o) eqn:E.
  - intros [= <-]. exists [], docs. cbn [app removeFirst existsb].
    rewrite E. repeat split. intros p Hp. cbn [find]. now rewrite Hp.
  - intros H. destruct (IH H) as [before [after [-> [Hd [Hr [He Hp]]]]]].
    exists (o :: before), after. cbn [app removeFirst existsb].
    rewrite E, Hr, He. repeat split; [exact Hd|].
    intros p Hpd. cbn [find]. destruct (p o); [reflexivity | apply Hp, Hpd].
Qed.

Lemma find_none_existsb (id : jsstring) (docs : list Stored) :
  find (hasId id) docs = None -> existsb (hasId id) docs = false.
Proof.
  induction docs as [|o docs IH]; cbn [find existsb]; [reflexivity|].
  destruct (hasId id o); [discriminate | exact IH].
Qed.

Lemma strictEq_eq (v : JsValue) (id : jsstring) :
  strictEq v id = true <-> v = JStr id.
Proof.
  destruct v; cbn [strictEq]; try (split; discriminate).
  rewrite jsstring_eqb_eq. split; [intros ->; reflexivity | intros [= ->]; reflexivity].
Qed.

End MemoryFacts.

(** X27.  In a store whose documents are keyed, with the counter below
    [2^53] and data that has no [_id] and no [id] of its own,
    [saveDocument] gives the document a key that no stored document has;
    [findDocumentById] with that key then returns the document, and with
    any other identifier what it returned before.  The properties of the
    data, [uploadedAt] apart, are read back from the document, the queries
    are left as they are, and the store is keyed again. *)
Theorem saved_document_is_found_by_its_key :
  forall (st : MemoryStorage.Memory) (docData : MemoryStorage.Props) (now : Z),
    MemoryStorage.keyed st ->
    (MemoryStorage.nextDocId st < 9007199254740992)%N ->
    MemoryStorage.lacks "_id" docData ->
    MemoryStorage.lacks "id" docData ->
    let key := MemoryStorage.docKey (MemoryStorage.nextDocId st) in
    let doc := fst (MemoryStorage.saveDocument docData now st) in
    let st' := snd (MemoryStorage.saveDocument docData now st) in
    MemoryStorage.findDocumentById key st = None
    /\ MemoryStorage.findDocumentById key st' = Some doc
    /\ MemoryStorage.get "_id" (MemoryStorage.props doc) = JStr key
    /\ MemoryStorage.get "id" (MemoryStorage.props doc) = JStr key
    /\ (forall id, id <> key ->
          MemoryStorage.findDocumentById id st'
          = MemoryStorage.findDocumentById id st)
    /\ (forall k v, k <> utf16 "uploadedAt" ->
          MemoryStorage.propOf k docData = Some v ->
          MemoryStorage.get k (MemoryStorage.props doc) = v)
    /\ MemoryStorage.queries st' = MemoryStorage.queries st
    /\ MemoryStorage.keyed st'.
Proof.
  intros st docData now [ns [Hnodup [Hbelow Hmap]]] Hbound Hl1 Hl2.
  cbv zeta. unfold MemoryStorage.saveDocument. cbv zeta. cbn [fst snd].
  rewrite (increment_below _ Hbound).
  replace (MemoryStorage.nextDocId st + 1 - 1)%N
    with (MemoryStorage.nextDocId st) by lia.
  set (key := MemoryStorage.docKey (MemoryStorage.nextDocId st)).
  set (doc := MemoryStorage.mkStored
                ([(utf16 "_id", JStr key); (utf16 "id", JStr key)] ++ docData)
                now).
  assert (Hkeys : MemoryStorage.keysOf doc = (JStr key, JStr key)).
  { unfold MemoryStorage.keysOf, MemoryStorage.get, doc.
    cbn [MemoryStorage.props].
    rewrite !propOf_app_lacks by assumption. reflexivity. }
  assert (Hfresh : forall n, In n ns -> MemoryStorage.docKey n <> key).
  { intros n Hn Heq. apply docKey_inj in Heq. subst n.
    rewrite Forall_forall in Hbelow. specialize (Hbelow _ Hn). lia. }
  assert (Hnone : MemoryStorage.findDocumentById key st = None)
    by (apply (find_absent key _ ns Hmap Hfresh)).
  assert (Hself : MemoryStorage.hasId key doc = true).
  { rewrite (hasId_keys key doc _ Hkeys). now apply jsstring_eqb_eq. }
  split; [exact Hnone|]. split; [|split; [|split; [|split; [|split; [|split]]]]].
  - unfold MemoryStorage.findDocumentById in *. cbn [MemoryStorage.documents].
    rewrite find_snoc, Hnone, Hself. reflexivity.
  - injection Hkeys as H _. exact H.
  - injection Hkeys as _ H. exact H.
  - intros id Hid. unfold MemoryStorage.findDocumentById.
    cbn [MemoryStorage.documents]. rewrite find_snoc.
    rewrite (hasId_keys id doc _ Hkeys).
    match goal with |- context [jsstring_eqb ?a id] =>
      destruct (jsstring_eqb a id) eqn:E
    end; [apply jsstring_eqb_eq in E; exfalso; apply Hid; symmetry; exact E|].
    destruct (find (MemoryStorage.hasId id) (MemoryStorage.documents st));
      reflexivity.
  - intros k v _ Hk. unfold MemoryStorage.get, doc. cbn [MemoryStorage.props].
    now rewrite (propOf_app_has k _ docData v Hk).
  - reflexivity.
  - exists (ns ++ [MemoryStorage.nextDocId st]).
    cbn [MemoryStorage.documents MemoryStorage.nextDocId]. split; [|split].
    + apply NoDup_app; [exact Hnodup | repeat constructor; intros [] |].
      intros n Hn [<- | []]. rewrite Forall_forall in Hbelow.
      specialize (Hbelow _ Hn). lia.
    + apply Forall_app. split.
      * eapply Forall_impl; [|exact Hbelow]. cbv beta. intros; lia.
      * repeat constructor. lia.
    + rewrite !map_app, Hmap. cbn [map]. now rewrite Hkeys.
Qed.

Lemma saved_document_is_found_by_its_key_witness :
  let st := MemoryStorage.initial in
  let data := [ (utf16 "originalName", JStr (utf16 "notes.txt")) ] in
  MemoryStorage.findDocumentById (utf16 "doc_1")
    (snd (MemoryStorage.saveDocument data 0 st))
  = Some (fst (MemoryStorage.saveDocument data 0 st))
  /\ MemoryStorage.get "originalName"
       (MemoryStorage.props (fst (MemoryStorage.saveDocument data 0 st)))
     = JStr (utf16 "notes.txt").
Proof.
  intros st data.
  destruct (saved_document_is_found_by_its_key st data 0)
    as [_ [Hfound [_ [_ [_ [Hdata _]]]]]].
  - exists []. repeat split; constructor.
  - vm_compute. reflexivity.
  - reflexivity.
  - reflexivity.
  - split; [exact Hfound|]. apply Hdata; [discriminate | reflexivity].
Defined.

(** X28.  [deleteDocument] with an identifier that no document has
    answers [false] and changes nothing.  With the identifier of a stored
    document, in a keyed store, it answers [true]; after it, no document
    has the identifier and no query has it as [documentId]; the documents
    and the queries of every other identifier are found as before, and
    the store is keyed again, with one document less. *)
Theorem deleted_document_and_its_queries_are_gone :
  forall (st : MemoryStorage.Memory) (id : jsstring),
    MemoryStorage.keyed st ->
    (MemoryStorage.findDocumentById id st = None ->
     MemoryStorage.deleteDocument id st = (false, st))
    /\ (forall doc,
          MemoryStorage.findDocumentById id st = Some doc ->
          let st' := snd (MemoryStorage.deleteDocument id st) in
          fst (MemoryStorage.deleteDocument id st) = true
          /\ MemoryStorage.findDocumentById id st' = None
          /\ MemoryStorage.findQueriesByDocumentId id st' = []
          /\ (forall other, other <> id ->
                MemoryStorage.findDocumentById other st'
                = MemoryStorage.findDocumentById other st
                /\ MemoryStorage.findQueriesByDocumentId other st'
                   = MemoryStorage.findQueriesByDocumentId other st)
          /\ List.length (MemoryStorage.documents st') + 1
             = List.length (MemoryStorage.documents st)
          /\ MemoryStorage.keyed st').
Proof.
  intros st id [ns [Hnodup [Hbelow Hmap]]]. split.
  - intros Hnone. unfold MemoryStorage.deleteDocument.
    unfold MemoryStorage.findDocumentById in Hnone.
    now rewrite (find_none_existsb id _ Hnone).
  - intros doc Hfound. cbv zeta.
    unfold MemoryStorage.findDocumentById in Hfound.
    destruct (find_split id _ doc Hfound)
      as [before [after [Hdocs [Hhas [Hremove [Hexists Hkeep]]]]]].
    unfold MemoryStorage.deleteDocument. rewrite Hexists, Hremove.
    cbn [fst snd].
    rewrite Hdocs, map_app in Hmap. cbn [map] in Hmap.
    symmetry in Hmap. apply map_eq_app in Hmap.
    destruct Hmap as [ns1 [ns2' [-> [Hm1 Hm2]]]].
    apply map_eq_cons in Hm2. destruct Hm2 as [n [ns2 [-> [Hk Hm2]]]].
    assert (Hkeys : MemoryStorage.keysOf doc
                    = (JStr (MemoryStorage.docKey n),
                       JStr (MemoryStorage.docKey n)))
      by (symmetry; exact Hk).
    assert (Hid : MemoryStorage.docKey n = id).
    { rewrite (hasId_keys id doc n Hkeys) in Hhas.
      now apply jsstring_eqb_eq in Hhas. }
    assert (Hmap' : map MemoryStorage.keysOf (before ++ after)
                    = map (fun m => (JStr (MemoryStorage.docKey m),
                                     JStr (MemoryStorage.docKey m)))
                        (ns1 ++ ns2))
      by (rewrite !map_app, Hm1, Hm2; reflexivity).
    split; [reflexivity|]. split; [|split; [|split; [|split]]].
    + unfold MemoryStorage.findDocumentById. cbn [MemoryStorage.documents].
      apply (find_absent id _ (ns1 ++ ns2) Hmap').
      intros m Hm Heq. rewrite <- Hid in Heq. apply docKey_inj in Heq.
      subst m. exact (NoDup_remove_2 _ _ _ Hnodup Hm).
    + unfold MemoryStorage.findQueriesByDocumentId.
      cbn [MemoryStorage.queries].
      induction (MemoryStorage.queries st) as [|q qs IH]; [reflexivity|].
      cbn [filter].
      destruct (MemoryStorage.strictEq
                  (MemoryStorage.get "documentId" (MemoryStorage.props q)) id)
        eqn:E; cbn [negb]; [exact IH|].
      cbn [filter]. rewrite E. exact IH.
    + intros other Hother. split.
      * unfold MemoryStorage.findDocumentById. cbn [MemoryStorage.documents].
        apply Hkeep.
        rewrite (hasId_keys other doc n Hkeys).
        destruct (jsstring_eqb (MemoryStorage.docKey n) other) eqn:E;
          [|reflexivity].
        apply jsstring_eqb_eq in E. congruence.
      * unfold MemoryStorage.findQueriesByDocumentId.
        cbn [MemoryStorage.queries].
        induction (MemoryStorage.queries st) as [|q qs IH]; [reflexivity|].
        cbn [filter].
        destruct (MemoryStorage.strictEq
                    (MemoryStorage.get "documentId" (MemoryStorage.props q)) id)
          eqn:E; cbn [negb].
        -- apply strictEq_eq in E.
           destruct (MemoryStorage.strictEq
                       (MemoryStorage.get "documentId" (MemoryStorage.props q))
                       other) eqn:E'; [|exact IH].
           apply strictEq_eq in E'. congruence.
        -- cbn [filter]. rewrite IH. reflexivity.
    + cbn [MemoryStorage.documents]. rewrite Hdocs, !length_app.
      cbn [List.length]. lia.
    + exists (ns1 ++ ns2).
      cbn [MemoryStorage.documents MemoryStorage.nextDocId].
      split; [exact (NoDup_remove_1 _ _ _ Hnodup)|]. split; [|exact Hmap'].
      apply Forall_app in Hbelow. destruct Hbelow as [H1 H2].
      apply Forall_app. split; [exact H1 | now inversion H2].
Qed.

Lemma deleted_document_and_its_queries_are_gone_witness :
  let st0 :=
    snd (MemoryStorage.saveDocument
           [ (utf16 "originalName", JStr (utf16 "notes.txt")) ] 0
           MemoryStorage.initial) in
  let st1 :=
    snd (MemoryStorage.saveQuery
           [ (utf16 "documentId", JStr (utf16 "doc_1"));
             (utf16 "queryText", JStr (utf16 "What color is the sky?")) ] 1
           st0) in
  MemoryStorage.findQueriesByDocumentId (utf16 "doc_1") st1 <> []
  /\ fst (MemoryStorage.deleteDocument (utf16 "doc_1") st1) = true
  /\ MemoryStorage.findDocumentById (utf16 "doc_1")
       (snd (MemoryStorage.deleteDocument (utf16 "doc_1") st1)) = None
  /\ MemoryStorage.findQueriesByDocumentId (utf16 "doc_1")
       (snd (MemoryStorage.deleteDocument (utf16 "doc_1") st1)) = [].
Proof.
  intros st0 st1.
  assert (Hkeyed : MemoryStorage.keyed st1).
  { exists [1%N]. split; [repeat constructor; intros []|].
    split; [repeat constructor | reflexivity]. }
  destruct (deleted_document_and_its_queries_are_gone st1 (utf16 "doc_1") Hkeyed)
    as [_ Hfound].
  destruct (Hfound (fst (MemoryStorage.saveDocument
                           [ (utf16 "originalName", JStr (utf16 "notes.txt")) ]
                           0 MemoryStorage.initial)) eq_refl)
    as [Htrue [Hgone [Hqueries _]]].
  split; [vm_compute; discriminate|].
  split; [exact Htrue|]. split; [exact Hgone | exact Hqueries].
Defined.

(** X29.  [saveQuery] adds the query at the end: for every document
    identifier, [findQueriesByDocumentId] returns what it returned before,
    followed by the new query when the [documentId] of its data is that
    identifier.  The [documentId] of the data is the one of the stored
    query, the documents are left as they are, and a keyed store stays
    keyed. *)
Theorem saved_query_is_found_by_its_document :
  forall (st : MemoryStorage.Memory) (queryData : MemoryStorage.Props)
         (now : Z) (documentId : jsstring),
    let q := fst (MemoryStorage.saveQuery queryData now st) in
    let st' := snd (MemoryStorage.saveQuery queryData now st) in
    MemoryStorage.findQueriesByDocumentId documentId st'
    = MemoryStorage.findQueriesByDocumentId documentId st
      ++ (if MemoryStorage.strictEq (MemoryStorage.get "documentId" queryData)
               documentId
          then [q] else [])
    /\ MemoryStorage.get "documentId" (MemoryStorage.props q)
       = MemoryStorage.get "documentId" queryData
    /\ MemoryStorage.findAllQueries st' = MemoryStorage.findAllQueries st ++ [q]
    /\ MemoryStorage.findDocuments st' = MemoryStorage.findDocuments st
    /\ (MemoryStorage.keyed st -> MemoryStorage.keyed st').
Proof.
  intros st queryData now documentId. cbv zeta.
  unfold MemoryStorage.saveQuery. cbv zeta. cbn [fst snd].
  assert (Hget : forall pre,
            pre = [ (utf16 "_id", JStr (MemoryStorage.queryKey
                                          (MemoryStorage.nextQueryId st)));
                    (utf16 "id", JStr (MemoryStorage.queryKey
                                         (MemoryStorage.increment
                                            (MemoryStorage.nextQueryId st) - 1))) ] ->
            MemoryStorage.get "documentId" (pre ++ queryData)
            = MemoryStorage.get "documentId" queryData).
  { intros pre ->. unfold MemoryStorage.get.
    destruct (MemoryStorage.propOf "documentId" queryData) as [v|] eqn:E.
    - now rewrite (propOf_app_has _ _ _ v E).
    - rewrite (propOf_app_lacks _ _ _ E). reflexivity. }
  split; [|split; [|split; [|split]]].
  - unfold MemoryStorage.findQueriesByDocumentId.
    cbn [MemoryStorage.queries]. rewrite filter_app. f_equal.
    cbn [filter MemoryStorage.props]. rewrite (Hget _ eq_refl).
    destruct (MemoryStorage.strictEq _ documentId); reflexivity.
  - cbn [MemoryStorage.props]. apply Hget. reflexivity.
  - reflexivity.
  - reflexivity.
  - intros [ns H]. exists ns. exact H.
Qed.
